(** * SkyHamSat: pass prediction glue and the graph widgets

    A shallow embedding of the parts of [SkyHamSat.py] and [graphqt5.py]
    that decide the pass-prediction properties: the Doppler expressions of
    [on_auto_update_timer], [get_alt_azimuth], [get_next_passes],
    [create_pass_line], [transit_list_sorted_by_time], the rise-at-now
    insertion of [draw_next_passes_for_selected_satellite], and the
    constructors and coordinate transforms of [Graph] and [Polar].
    Beside them: the satellite list ([on_pushButtonDownloadSatInfo_clicked],
    [set_up_satellite_data]), the combo boxes
    ([fill_combo_box_with_list_of_modes], [selected_satellite_info]), the
    lines of [draw_upcoming_passes] and
    [draw_next_passes_for_selected_satellite], the plotted positions of
    [on_auto_update_timer], and of the graphs the texts and the polar
    transforms.

    Conventions of the embedding.
    - Strings are strings of characters with code points below 256; the
      [str] methods the code calls ([split], [strip], [replace], [join],
      [in]) are functions of the embedding.
    - Python floats, and the ints mixed with them, are rationals [Q];
      infinities and NaN of IEEE doubles are not modelled.  Where a float is
      a coordinate or a frequency, a value read off a scale, its arithmetic
      is exact.  Where the rounding of a result decides what the program
      does next, how often the sampling loop of [create_pass_line] runs, the
      operation is a field of [Extern], and the properties hold for every
      rounding; [Binary64] is the rounding of IEEE doubles.  Counts and
      indices are integers [Z].  Times are Julian dates ([Time.tt]).
    - A Python call that may raise returns [result]; the exception classes
      the modelled code can meet are the constructors of [exn].
    - skyfield, numpy and the Python builtins are not code of the
      repository: the calls the methods make to them are the fields of the
      record [Extern], which every method takes as its first argument, the
      attributes of [self] as its second.
    - The one [while] loop takes a bound [fuel] on its rounds and returns
      [None] when the bound is reached.
    - A reading of the clock ([ts.now()]) is an argument [now]; a loop
      that compares its entries with a reading it takes in every round
      takes the readings as a function of the round.

    The file has three parts: the embedding, the vocabulary and the
    installations the properties are stated with, and the properties. *)

From Stdlib Require Import ZArith QArith Qminmax Qround Qfield Lqa Lia List Bool.
From Stdlib Require Import Sorting.Permutation Sorting.Sorted.
From Stdlib Require Import Strings.String Strings.Ascii.
From Stdlib Require OrderedTypeEx.
From Stdlib Require Import Numbers.DecimalString.
From Stdlib Require Import Floats.SpecFloat.
From stdpp Require Import base option gmap strings.
Import ListNotations.

Local Open Scope Q_scope.

(** ** The Python run time the code relies on *)

Module Py.

(** Exception classes.  [ValueError] stands for the class and its
    subclasses, which [except ValueError] catches alike; [ExternalError]
    stands for any class outside the listed ones that a library call may
    raise. *)
Inductive exn : Set :=
| ValueError
| KeyError
| IndexError
| ZeroDivisionError
| UnboundLocalError
| ExternalError.

Inductive result (A : Type) : Type :=
| Ok (a : A)
| Raise (e : exn).

Arguments Ok {A} a.
Arguments Raise {A} e.

Definition bind {A B : Type} (c : result A) (k : A -> result B) : result B :=
  match c with
  | Ok a => k a
  | Raise e => Raise e
  end.

(** [try: body / except ValueError: handler]. *)
Definition try_except_ValueError {A : Type} (body handler : result A) : result A :=
  match body with
  | Raise ValueError => handler
  | other => other
  end.

(** [d[k]] on a dict. *)
Definition getitem {K V : Type} `{Countable K} (d : gmap K V) (k : K) : result V :=
  match d !! k with
  | Some v => Ok v
  | None => Raise KeyError
  end.

(** The truth value of a list: [True] unless it is empty. *)
Definition nonempty {A : Type} (l : list A) : bool :=
  match l with
  | [] => false
  | _ :: _ => true
  end.

(** [a < b], [a > b] and [a == b] on numbers. *)
Definition lt (a b : Q) : bool := negb (Qle_bool b a).
Definition gt (a b : Q) : bool := lt b a.
Definition eq (a b : Q) : bool := Qeq_bool a b.

(** [a / b] on numbers: division by zero raises. *)
Definition truediv (a b : Q) : result Q :=
  if eq b 0 then Raise ZeroDivisionError else Ok (a / b).

(** [t[i]] on a tuple or list: indices [-len .. len-1] are valid, a
    negative one counts from the end. *)
Definition index {A : Type} (t : list A) (i : Z) : result A :=
  let n := Z.of_nat (List.length t) in
  let j := if (i <? 0)%Z then (i + n)%Z else i in
  if ((j <? 0) || (n <=? j))%Z then Raise IndexError
  else match nth_error t (Z.to_nat j) with
       | Some a => Ok a
       | None => Raise IndexError
       end.

End Py.

Import Py.

Notation "x <- c ;; k" := (Py.bind c (fun x => k))
  (at level 100, c at next level, right associativity).

(** ** SkyHamSat.py *)

Module SkyHamSat.

(** A skyfield [Angle], read through [.degrees] and [.radians]. *)
Record Angle : Set := { degrees : Q; radians : Q }.

(** [Angle(degrees=0)] *)
Definition Angle_degrees_0 : Angle := {| degrees := 0; radians := 0 |}.

Definition vec : Set := (Q * Q * Q)%type.

(** [np.dot] on two 3-vectors. *)
Definition dot (a b : vec) : Q :=
  let '(a1, a2, a3) := a in
  let '(b1, b2, b3) := b in
  a1 * b1 + a2 * b2 + a3 * b3.

(** What [(satellite - home).at(t)] is read through: [.position.km],
    [.velocity.km_per_s] and the first two components of [.altaz()]. *)
Record Topocentric : Set := {
  position_km : vec;
  velocity_km_per_s : vec;
  altaz_alt : Angle;
  altaz_az : Angle
}.

(** The library calls of the modelled methods.  [satellite] is skyfield's
    [EarthSatellite]. *)
Record Extern (satellite : Type) : Type := {
  (** [int(s)] on a string; [ValueError] when [s] is no integer literal. *)
  py_int : string -> result Z;
  (** [satellite.find_events(home, t0, t1, altitude_degrees=0.0)]: the event
      times ([.tt]) and the event codes, 0 rise, 1 culminate, 2 set. *)
  find_events : satellite -> Q -> Q -> result (list Q * list Z);
  (** [(satellite - home).at(ts.tt_jd(t))] *)
  topocentric_at : satellite -> Q -> result Topocentric;
  (** [np.linalg.norm] *)
  norm : vec -> Q;
  (** The text [f' {calendar[3]:02d}:{calendar[4]:02d}:{calendar[5]:02.0f}']
      for [calendar = ts.tt_jd(t).tt_calendar()]. *)
  calendar_text : Q -> string;
  (** The text [f' {sat}: 2: {d2:+0.0f}, 70: {d70:+0.0f} Hz ']. *)
  doppler_text : string -> Q -> Q -> string;
  (** [a + b], [a * b] and [a / b] on two floats where the rounding of the
      result decides what the program does next: the float nearest the
      exact result. *)
  float_add : Q -> Q -> Q;
  float_mul : Q -> Q -> Q;
  float_truediv : Q -> Q -> Q
}.

Arguments py_int {satellite} _ _.
Arguments find_events {satellite} _ _ _ _.
Arguments topocentric_at {satellite} _ _ _.
Arguments norm {satellite} _ _.
Arguments calendar_text {satellite} _ _.
Arguments doppler_text {satellite} _ _ _ _.
Arguments float_add {satellite} _ _ _.
Arguments float_mul {satellite} _ _ _.
Arguments float_truediv {satellite} _ _ _.

(** One value of [self.satellites]: the keys the modelled methods read. *)
Record sat_data : Set := { Satellite : string; Number : string }.

(** The attributes of [MainApp] the modelled methods read. *)
Record MainApp (satellite : Type) : Type := {
  satellites : gmap string sat_data;
  by_number : gmap Z satellite
}.

Arguments satellites {satellite} _.
Arguments by_number {satellite} _.

(** A point of a plotted line: [(r, theta, colour, point_size, text)]. *)
Record point : Set := {
  pt_r : Q;
  pt_theta : Q;
  pt_colour : string;
  pt_size : Z;
  pt_text : string
}.

(** A pass event [(ti, event_name)], [ti] read through [.tt]. *)
Definition pass_event : Set := (Q * string)%type.

(** An entry [[rise, transit, set, sat]] of the transit list. *)
Definition transit : Set := (Q * Q * Q * string)%type.

Section Methods.

Context {satellite : Type}.
Variable X : Extern satellite.
Variable self : MainApp satellite.

(** *** [on_auto_update_timer], lines 565-572: the Doppler expressions *)

(** [-slant_velocity / 300000 * 145.9e6], and the like for 100 MHz and for
    436.5 MHz. *)
Definition doppler_shift_2m (slant_velocity : Q) : Q :=
  - slant_velocity / 300000 * 145900000.

Definition doppler_shift_100 (slant_velocity : Q) : Q :=
  - slant_velocity / 300000 * 100000000.

Definition doppler_shift_70cm (slant_velocity : Q) : Q :=
  - slant_velocity / 300000 * 436500000.

(** [-slant_velocity / 300000 * float(currentText()) * 1e6] *)
Definition selected_doppler_shift (slant_velocity selected_mhz : Q) : Q :=
  - slant_velocity / 300000 * selected_mhz * 1000000.

(** *** The two look-ups that open both [try] blocks *)

Definition lookup_satellite (satellite_name : string) : result satellite :=
  info <- getitem (satellites self) satellite_name ;;
  satellite_number <- py_int X (Number info) ;;
  getitem (by_number self) satellite_number.

(** *** [get_alt_azimuth], lines 643-660 *)

(** Line 658, the slant velocity in km/s.  (A numpy division raises
    nothing; the properties below take the norm to be positive.) *)
Definition slant_velocity (velocity pos : vec) : Q :=
  dot velocity pos / norm X pos.

Definition get_alt_azimuth (calc_time : Q) (satellite_name : string)
  : result (Angle * Angle * Q) :=
  match lookup_satellite satellite_name with
  | Raise ValueError => Ok (Angle_degrees_0, Angle_degrees_0, 0)
  | Raise e => Raise e
  | Ok sat =>
      topocentric <- topocentric_at X sat calc_time ;;
      let pos := position_km topocentric in
      let velocity := velocity_km_per_s topocentric in
      let d := slant_velocity velocity pos in
      Ok (altaz_alt topocentric, altaz_az topocentric, d)
  end.

(** *** [get_next_passes], lines 662-689 *)

(** [('rise', 'transit', 'set')[event]] *)
Definition event_name_of (event : Z) : result string :=
  index ["rise"%string; "transit"%string; "set"%string] event.

(** The [for ti, event in zip(event_times_ts, events)] loop, started with
    [passes] passes counted and [event_list] built so far. *)
Fixpoint events_loop (number_of_passes : Z) (zipped : list (Q * Z))
  (passes : Z) (event_list : list pass_event) : result (list pass_event) :=
  match zipped with
  | [] => Ok event_list
  | (ti, event) :: rest =>
      if (passes >=? number_of_passes)%Z then Ok event_list
      else
        event_name <- event_name_of event ;;
        let event_list := event_list ++ [(ti, event_name)] in
        if String.eqb event_name "set"
        then events_loop number_of_passes rest (passes + 1)%Z event_list
        else events_loop number_of_passes rest passes event_list
  end.

(** [now] is the reading [ts.now().tt] of the call. *)
Definition get_next_passes (now : Q) (satellite_name : string)
  (number_of_passes : Z) : result (list pass_event) :=
  try_except_ValueError
    (sat <- lookup_satellite satellite_name ;;
     let end_tt := now + 1 in
     found <- find_events X sat now end_tt ;;
     events_loop number_of_passes (combine (fst found) (snd found)) 0%Z [])
    (Ok []).

(** *** [create_pass_line], lines 600-641 *)

(** [JULIAN_SEC = 1 / 86400], line 54 *)
Definition JULIAN_SEC : Q := float_truediv X 1 86400.

(** [pass_line[-1][4] = text] on a non-empty list. *)
Fixpoint set_last_text (pass_line : list point) (text : string) : list point :=
  match pass_line with
  | [] => []
  | [p] => [ {| pt_r := pt_r p; pt_theta := pt_theta p; pt_colour := pt_colour p;
               pt_size := pt_size p; pt_text := text |} ]
  | p :: rest => p :: set_last_text rest text
  end.

(** [text_every_point and (point_number % text_every_point == 0)] *)
Definition text_due (text_every_point point_number : Z) : bool :=
  negb (text_every_point =? 0)%Z && (point_number mod text_every_point =? 0)%Z.

(** The [while calc_time < setting_time.tt] loop.  [fuel] bounds the number
    of tests of the loop condition; [None] means the bound was reached.
    [calendar] holds the time of the last [calendar = ...] assignment. *)
Fixpoint pass_line_loop (fuel : nat) (sat : string) (setting_tt interval : Q)
  (colour : string) (text_every_point : Z)
  (pass_line : list point) (point_number : Z) (calc_time : Q)
  (calendar : option Q) : option (result (list point * option Q)) :=
  match fuel with
  | O => None
  | S fuel =>
      if lt calc_time setting_tt then
        match get_alt_azimuth calc_time sat with
        | Raise e => Some (Raise e)
        | Ok (alt, az, velocity) =>
            let calendar := calc_time in
            let text_field :=
              if text_due text_every_point point_number
              then calendar_text X calendar else ""%string in
            let pass_line :=
              pass_line ++ [ {| pt_r := degrees alt; pt_theta := radians az;
                                pt_colour := colour; pt_size := 4;
                                pt_text := text_field |} ] in
            let calc_time :=
              float_add X calc_time (float_mul X JULIAN_SEC interval) in
            pass_line_loop fuel sat setting_tt interval colour text_every_point
              pass_line (point_number + 1)%Z calc_time (Some calendar)
        end
      else Some (Ok (pass_line, calendar))
  end.

Definition create_pass_line (fuel : nat) (sat : string)
  (rise_tt setting_tt interval : Q) (colour : string) (text_every_point : Z)
  : option (result (list point)) :=
  match pass_line_loop fuel sat setting_tt interval colour text_every_point
          [] 0%Z rise_tt None with
  | None => None
  | Some (Raise e) => Some (Raise e)
  | Some (Ok (pass_line, calendar)) =>
      if negb (text_every_point =? 0)%Z && nonempty pass_line then
        match calendar with
        | Some calendar =>
            Some (Ok (set_last_text pass_line (calendar_text X calendar)))
        | None => Some (Raise UnboundLocalError)
        end
      else Some (Ok pass_line)
  end.

(** *** [transit_list_sorted_by_time], lines 453-479 *)

(** The [for pass_event in pass_list] loop of one satellite. *)
Fixpoint pass_info_loop (sat : string) (pass_list : list pass_event)
  (pass_info : Q * Q * Q) (transit_list : list transit) : list transit :=
  match pass_list with
  | [] => transit_list
  | (ti, event_name) :: rest =>
      let '(rise_tt, transit_tt, set_tt) := pass_info in
      if String.eqb event_name "rise" then
        pass_info_loop sat rest (ti, transit_tt, set_tt) transit_list
      else if String.eqb event_name "transit" then
        pass_info_loop sat rest (rise_tt, ti, set_tt) transit_list
      else if String.eqb event_name "set" then
        pass_info_loop sat rest (0, 0, 0)
          (transit_list ++ [(rise_tt, transit_tt, ti, sat)])
      else pass_info_loop sat rest pass_info transit_list
  end.

(** The [for v in self.satellites_filtered_by_check_boxes()] loop;
    [filtered] is what the generator yields. *)
Fixpoint transit_list_loop (now : Q) (number_of_passes : Z)
  (filtered : list sat_data) (transit_list : list transit)
  : result (list transit) :=
  match filtered with
  | [] => Ok transit_list
  | v :: rest =>
      let sat := Satellite v in
      pass_list <- get_next_passes now sat number_of_passes ;;
      let transit_list := pass_info_loop sat pass_list (0, 0, 0) transit_list in
      let transit_list :=
        match pass_list with
        | [] => transit_list ++ [(0, 0, 0, sat)]
        | _ :: _ => transit_list
        end in
      transit_list_loop now number_of_passes rest transit_list
  end.

(** [a < b] on two entries, as Python compares lists: the first position
    where they differ decides. *)
Definition transit_lt (a b : transit) : bool :=
  let '(a0, a1, a2, a3) := a in
  let '(b0, b1, b2, b3) := b in
  if negb (eq a0 b0) then lt a0 b0
  else if negb (eq a1 b1) then lt a1 b1
  else if negb (eq a2 b2) then lt a2 b2
  else String.ltb a3 b3.

(** [list.sort()]: a stable sort by [<]. *)
Fixpoint sort_insert (x : transit) (sorted : list transit) : list transit :=
  match sorted with
  | [] => [x]
  | y :: rest =>
      if transit_lt y x then y :: sort_insert x rest else x :: y :: rest
  end.

Definition list_sort (l : list transit) : list transit :=
  fold_right sort_insert [] l.

Definition transit_list_sorted_by_time (now : Q) (number_of_passes : Z)
  (filtered : list sat_data) : result (list transit) :=
  transit_list <- transit_list_loop now number_of_passes filtered [] ;;
  Ok (list_sort transit_list).

(** *** [on_auto_update_timer], lines 555-577: the loop over the satellites *)

(** Returns [up_positions] and the value last shown by [self.doppler].
    [selected_mhz] is [float(self.selected_frequencies.currentText())]. *)
Fixpoint up_positions_loop (now : Q) (selected_satellite : string)
  (selected_mhz : result Q) (filtered : list sat_data)
  (up_positions : list point) (shown : option Q)
  : result (list point * option Q) :=
  match filtered with
  | [] => Ok (up_positions, shown)
  | v :: rest =>
      let sat := Satellite v in
      let calc_time := now in
      observed <- get_alt_azimuth calc_time sat ;;
      let '(alt, az, slant_velocity) := observed in
      if gt (degrees alt) 0 then
        let up_positions :=
          up_positions ++ [ {| pt_r := degrees alt; pt_theta := radians az;
                               pt_colour := "grey"; pt_size := 8;
                               pt_text := String " "%char sat |} ] in
        if String.eqb sat selected_satellite then
          let d2 := doppler_shift_2m slant_velocity in
          let d100 := doppler_shift_100 slant_velocity in
          let d70 := doppler_shift_70cm slant_velocity in
          mhz <- selected_mhz ;;
          let selected := selected_doppler_shift slant_velocity mhz in
          let up_positions :=
            up_positions ++ [ {| pt_r := degrees alt; pt_theta := radians az;
                                 pt_colour := "black"; pt_size := 8;
                                 pt_text := doppler_text X sat d2 d70 |} ] in
          up_positions_loop now selected_satellite selected_mhz rest
            up_positions (Some selected)
        else
          up_positions_loop now selected_satellite selected_mhz rest
            up_positions shown
      else
        up_positions_loop now selected_satellite selected_mhz rest
          up_positions shown
  end.

(** *** [draw_next_passes_for_selected_satellite], lines 698-711 *)

(** The pass list the drawing loop walks: [None] when the method returns at
    [if not pass_list]; [now] is the reading of line 710. *)
Definition pass_list_to_draw (now : Q) (pass_list : list pass_event)
  : option (list pass_event) :=
  match pass_list with
  | [] => None
  | (_, event_name) :: _ =>
      if negb (String.eqb event_name "rise")
      then Some ((now, "rise"%string) :: pass_list)
      else Some pass_list
  end.

End Methods.

(** *** The satellite dicts and the check boxes *)

(** One value of [self.satellites] with every key [satslist.json] gives it
    (see [default], line 245): four strings and six lists of strings. *)
Record sat_dict : Set := {
  d_Satellite : string;
  d_Number : string;
  d_Transponder_Uplink : list string;
  d_Transponder_Downlink : list string;
  d_Uplinks : list string;
  d_Downlinks : list string;
  d_Beacons : list string;
  d_Modes : list string;
  d_Callsign : string;
  d_Status : string
}.

(** The two keys the pass methods read. *)
Definition sat_data_of (s : sat_dict) : sat_data :=
  {| Satellite := d_Satellite s; Number := d_Number s |}.

(** [isChecked()] of the four check boxes. *)
Record check_boxes : Set := {
  checkBoxTransponder : bool;
  checkBoxUplink : bool;
  checkBoxDownlink : bool;
  checkBoxBeacon : bool
}.

(** [x in l] on a list of strings. *)
Fixpoint str_in (x : string) (l : list string) : bool :=
  match l with
  | [] => false
  | y :: rest => String.eqb y x || str_in x rest
  end.

(** [any([hasTransponder, hasUplink, hasDownlink, hasBeacon])], each
    [has...] being [checkBox.isChecked() and s[key]]. *)
Definition any_checked (boxes : check_boxes) (s : sat_dict) : bool :=
  (checkBoxTransponder boxes && nonempty (d_Transponder_Uplink s))
  || (checkBoxUplink boxes && nonempty (d_Uplinks s))
  || (checkBoxDownlink boxes && nonempty (d_Downlinks s))
  || (checkBoxBeacon boxes && nonempty (d_Beacons s)).

(** [satellites_filtered_by_check_boxes], lines 442-451: what the generator
    yields, in order; [mode] is [comboBoxMode.currentText()] and [values] is
    [self.satellites.values()]. *)
Fixpoint satellites_filtered_by_check_boxes (boxes : check_boxes)
  (mode : string) (values : list sat_dict) (dont_filter : bool)
  : list sat_dict :=
  match values with
  | [] => []
  | s :: rest =>
      let hasMode := String.eqb mode "Any" || str_in mode (d_Modes s) in
      if (any_checked boxes s || dont_filter) && hasMode
      then s :: satellites_filtered_by_check_boxes boxes mode rest dont_filter
      else satellites_filtered_by_check_boxes boxes mode rest dont_filter
  end.

(** *** [fill_combo_box_with_list_of_modes], lines 410-434 *)

(** The loop of lines 412-422. *)
Fixpoint mode_list_loop (boxes : check_boxes) (values : list sat_dict)
  (mode_list : list string) : list string :=
  match values with
  | [] => mode_list
  | s :: rest =>
      if any_checked boxes s
      then
        if nonempty (d_Modes s)
        then mode_list_loop boxes rest (mode_list ++ d_Modes s)
        else mode_list_loop boxes rest mode_list
      else mode_list_loop boxes rest mode_list
  end.

(** [list(set(l))]: each string once.  The order a set is walked in is not
    fixed by Python; the model takes the order of the last occurrences, and
    the sort that follows makes the order immaterial
    ([sort_strings_unique] below). *)
Fixpoint list_set (l : list string) : list string :=
  match l with
  | [] => []
  | x :: rest => if str_in x rest then list_set rest else x :: list_set rest
  end.

(** [l.sort()] on strings: a stable sort by [<]. *)
Fixpoint sort_insert_string (x : string) (sorted : list string) : list string :=
  match sorted with
  | [] => [x]
  | y :: rest =>
      if String.ltb y x then y :: sort_insert_string x rest
      else x :: y :: rest
  end.

Definition sort_strings (l : list string) : list string :=
  fold_right sort_insert_string [] l.

(** The items of [comboBoxMode] after the call. *)
Definition fill_combo_box_with_list_of_modes (boxes : check_boxes)
  (values : list sat_dict) : list string :=
  let mode_list := mode_list_loop boxes values [] in
  let mode_list := list_set mode_list in
  let mode_list := sort_strings mode_list in
  "Any"%string :: mode_list.

(** *** [selected_satellite_info], lines 374-403 *)

(** A value of a satellite dict: a string or a list of strings. *)
Inductive dict_value : Set :=
| VStr (v : string)
| VList (v : list string).

(** [s.items()], in the order of the keys of [default], line 245. *)
Definition items (s : sat_dict) : list (string * dict_value) :=
  [ ("Satellite"%string, VStr (d_Satellite s));
    ("Number"%string, VStr (d_Number s));
    ("Transponder Uplink"%string, VList (d_Transponder_Uplink s));
    ("Transponder Downlink"%string, VList (d_Transponder_Downlink s));
    ("Uplinks"%string, VList (d_Uplinks s));
    ("Downlinks"%string, VList (d_Downlinks s));
    ("Beacons"%string, VList (d_Beacons s));
    ("Modes"%string, VList (d_Modes s));
    ("Callsign"%string, VStr (d_Callsign s));
    ("Status"%string, VStr (d_Status s)) ].

(** [s.rstrip(c)] for one character [c]. *)
Fixpoint rstrip_char (c : ascii) (s : string) : string :=
  match s with
  | EmptyString => EmptyString
  | String a rest =>
      match rstrip_char c rest with
      | EmptyString => if Ascii.eqb a c then EmptyString else String a EmptyString
      | rest' => String a rest'
      end
  end.

Section SelectedSatelliteInfo.

(** [float(s)] on a string. *)
Variable py_float : string -> result Q.

(** The loop [for L in inf] of lines 389-397. *)
Fixpoint list_value_loop (k : string) (inf : list string)
  (info : string) (frequencies : list string) : result (string * list string) :=
  match inf with
  | [] => Ok (info, frequencies)
  | L :: rest =>
      let info := (info ++ L ++ "-")%string in
      if negb (String.eqb k "modes") then
        match py_float L with
        | Ok _ => list_value_loop k rest info (frequencies ++ [L])
        | Raise ValueError => list_value_loop k rest info frequencies
        | Raise e => Raise e
        end
      else list_value_loop k rest info frequencies
  end.

(** The loop [for k, inf in s.items()] of lines 380-398. *)
Fixpoint items_loop (its : list (string * dict_value))
  (info : string) (frequencies : list string) : result (string * list string) :=
  match its with
  | [] => Ok (info, frequencies)
  | (k, VStr inf) :: rest =>
      if String.eqb inf "" then items_loop rest info frequencies
      else items_loop rest (info ++ k ++ ": " ++ inf ++ " ")%string frequencies
  | (k, VList inf) :: rest =>
      if negb (nonempty inf) then items_loop rest info frequencies
      else
        let info := (info ++ k ++ ": ")%string in
        done <- list_value_loop k inf info frequencies ;;
        let info := (rstrip_char "-" (fst done) ++ " ")%string in
        items_loop rest info (snd done)
  end.

(** The loop [for s in selected_satellites_generator] of lines 376-398. *)
Fixpoint selected_loop (selected_satellite : string) (values : list sat_dict)
  (info : string) (frequencies : list string) : result (string * list string) :=
  match values with
  | [] => Ok (info, frequencies)
  | s :: rest =>
      if String.eqb (d_Satellite s) selected_satellite then
        done <- items_loop (items s) info frequencies ;;
        selected_loop selected_satellite rest (fst done) (snd done)
      else selected_loop selected_satellite rest info frequencies
  end.

(** The text of [satelliteFeatures] and the items of [selected_frequencies]
    after the call, for a satellite selected in the combo box. *)
Definition selected_satellite_info (selected_satellite : string)
  (values : list sat_dict) : result (string * list string) :=
  selected_loop selected_satellite values "" [].

End SelectedSatelliteInfo.

Section MoreMethods.

Context {satellite : Type}.
Variable X : Extern satellite.
Variable self : MainApp satellite.

(** *** [draw_upcoming_passes], lines 740-764 *)

(** A point of a line of the upcoming-passes graph:
    [(x, y, colour, point_size)] or [(x, y, colour, point_size, text)]. *)
Record graph_point : Set := {
  gp_x : Q;
  gp_y : Q;
  gp_colour : string;
  gp_size : Z;
  gp_text : option string
}.

(** [hours_to_show = 3] *)
Definition hours_to_show : Q := 3.

(** The loop [for transit in transit_list] of lines 744-760, in its round
    number [round]; [now round] is the reading of the clock that line 745
    takes in that round. *)
Fixpoint upcoming_loop (now : nat -> Q) (round : nat)
  (transit_list : list transit) (next_pass_lines : list (list graph_point))
  : result (list (list graph_point)) :=
  match transit_list with
  | [] => Ok next_pass_lines
  | (transit0, transit1, transit2, transit3) :: rest =>
      let now_tt := now round in
      let transit0 := if eq transit0 0 then now_tt else transit0 in
      observed <-
        (if negb (eq transit1 0)
         then get_alt_azimuth X self transit1 transit3
         else get_alt_azimuth X self now_tt transit3) ;;
      let alt := fst (fst observed) in
      let rise_delta := transit0 - now_tt in
      let set_delta := transit2 - now_tt in
      if lt (set_delta * 24) hours_to_show then
        upcoming_loop now (S round) rest
          (next_pass_lines
           ++ [[ {| gp_x := rise_delta * 24; gp_y := degrees alt;
                    gp_colour := "purple"; gp_size := 6; gp_text := None |};
                 {| gp_x := set_delta * 24; gp_y := degrees alt;
                    gp_colour := "purple"; gp_size := 6;
                    gp_text := Some (String " "%char transit3) |} ]])
      else upcoming_loop now (S round) rest next_pass_lines
  end.

(** The lines handed to [self.upcoming_passes_graph.draw]; [now_passes] is
    the reading of the clock inside [get_next_passes]. *)
Definition draw_upcoming_passes (now_passes : Q) (now : nat -> Q)
  (number_of_passes : Z) (filtered : list sat_data)
  : result (list (list graph_point)) :=
  transit_list <-
    transit_list_sorted_by_time X self now_passes number_of_passes filtered ;;
  upcoming_loop now O transit_list [].

(** *** [draw_next_passes_for_selected_satellite], lines 703-728 *)

(** [plot_colours], line 703. *)
Definition plot_colours : list string :=
  [ "firebrick"; "sandybrown"; "olive"; "darkgreen"; "purple"; "blue" ]%string.

(** The loop [for pass_event in pass_list] of lines 714-728, with the state
    [rise_ts] ([None] while unbound), [p], [self.lines] and
    [self.next_pass_polar_lines]; [fuel] is handed to every
    [create_pass_line]. *)
Fixpoint passes_loop (fuel : nat) (satellite_name : string)
  (pass_list : list pass_event) (rise_ts : option Q) (p : Z)
  (lines next_pass_polar_lines : list (list point))
  : option (result (list (list point) * list (list point))) :=
  match pass_list with
  | [] => Some (Ok (lines, next_pass_polar_lines))
  | (ti, event_name) :: rest =>
      if String.eqb event_name "rise" then
        passes_loop fuel satellite_name rest (Some ti) p lines
          next_pass_polar_lines
      else if String.eqb event_name "set" then
        let set_ts := ti in
        match rise_ts with
        | None => Some (Raise UnboundLocalError)
        | Some rise =>
            match
              (if (p =? 0)%Z
               then
                 match index plot_colours 0 with
                 | Raise e => Some (Raise e)
                 | Ok colour =>
                     match create_pass_line X self fuel satellite_name rise
                             set_ts 30 colour 4 with
                     | None => None
                     | Some (Raise e) => Some (Raise e)
                     | Some (Ok line) => Some (Ok (lines ++ [line]))
                     end
                 end
               else Some (Ok lines))
            with
            | None => None
            | Some (Raise e) => Some (Raise e)
            | Some (Ok lines) =>
                match index plot_colours
                        (p mod Z.of_nat (List.length plot_colours)) with
                | Raise e => Some (Raise e)
                | Ok colour =>
                    match create_pass_line X self fuel satellite_name rise
                            set_ts 30 colour 4 with
                    | None => None
                    | Some (Raise e) => Some (Raise e)
                    | Some (Ok line) =>
                        passes_loop fuel satellite_name rest rise_ts
                          (p + 1)%Z lines (next_pass_polar_lines ++ [line])
                    end
                end
            end
        end
      else
        passes_loop fuel satellite_name rest rise_ts p lines
          next_pass_polar_lines
  end.

(** The method from line 698 on, for a satellite name that is not [None]:
    [None] inside [Ok] when it returns at [if not pass_list], else the lines
    handed to the two polar graphs.  [now_passes] and [now] are the readings
    of the clock in [get_next_passes] and at line 710. *)
Definition draw_next_passes_for_selected_satellite (fuel : nat)
  (now_passes now : Q) (satellite_name : string) (number_of_passes : Z)
  : option (result (option (list (list point) * list (list point)))) :=
  match get_next_passes X self now_passes satellite_name number_of_passes with
  | Raise e => Some (Raise e)
  | Ok pass_list =>
      match pass_list_to_draw now pass_list with
      | None => Some (Ok None)
      | Some pass_list =>
          match passes_loop fuel satellite_name pass_list None 0%Z [] [] with
          | None => None
          | Some (Raise e) => Some (Raise e)
          | Some (Ok drawn) => Some (Ok (Some drawn))
          end
      end
  end.

End MoreMethods.

(** *** [on_pushButtonDownloadSatInfo_clicked], lines 245-292: from the
    lines of [satslist.csv] to the dict written to [satslist.json] *)

(** Characters are code points below 256; [isspace] is [str.isspace] on
    them. *)
Definition isspace (c : ascii) : bool :=
  let n := nat_of_ascii c in
  ((9 <=? n)%nat && (n <=? 13)%nat) || ((28 <=? n)%nat && (n <=? 32)%nat)
  || (n =? 133)%nat || (n =? 160)%nat.

Fixpoint str_lstrip (s : string) : string :=
  match s with
  | EmptyString => EmptyString
  | String c rest => if isspace c then str_lstrip rest else s
  end.

Fixpoint str_rstrip (s : string) : string :=
  match s with
  | EmptyString => EmptyString
  | String c rest =>
      match str_rstrip rest with
      | EmptyString => if isspace c then EmptyString else String c EmptyString
      | kept => String c kept
      end
  end.

(** [s.strip()] *)
Definition str_strip (s : string) : string := str_rstrip (str_lstrip s).

(** [s.split(sep)] for a separator of one character: never an empty list. *)
Fixpoint str_split (sep : ascii) (s : string) : list string :=
  match s with
  | EmptyString => [EmptyString]
  | String c rest =>
      if Ascii.eqb c sep then EmptyString :: str_split sep rest
      else match str_split sep rest with
           | [] => [String c EmptyString]
           | w :: ws => String c w :: ws
           end
  end.

(** [s.replace(old, new)] for a non-empty [old]: the occurrences are
    replaced from the left, [skip] characters of a replaced occurrence
    being still to pass. *)
Fixpoint replace_loop (old new : string) (skip : nat) (s : string) : string :=
  match s with
  | EmptyString => EmptyString
  | String c rest =>
      match skip with
      | S skip' => replace_loop old new skip' rest
      | O =>
          if String.prefix old s
          then String.append new
                 (replace_loop old new (Nat.pred (String.length old)) rest)
          else String c (replace_loop old new O rest)
      end
  end.

Definition str_replace (old new s : string) : string :=
  replace_loop old new O s.

(** [c in s] for a character [c]. *)
Fixpoint contains_char (c : ascii) (s : string) : bool :=
  match s with
  | EmptyString => false
  | String c' rest => Ascii.eqb c' c || contains_char c rest
  end.

(** The truth value of a string: [True] unless it is empty. *)
Definition truthy (s : string) : bool :=
  match s with
  | EmptyString => false
  | String _ _ => true
  end.

(** A dict in insertion order; [d[k]] and [d[k] = v]. *)
Fixpoint dict_get {V : Type} (k : string) (d : list (string * V)) : result V :=
  match d with
  | [] => Raise KeyError
  | (k', v) :: rest => if String.eqb k' k then Ok v else dict_get k rest
  end.

Fixpoint dict_set {V : Type} (k : string) (v : V) (d : list (string * V))
  : list (string * V) :=
  match d with
  | [] => [(k, v)]
  | (k', v') :: rest =>
      if String.eqb k' k then (k', v) :: rest
      else (k', v') :: dict_set k v rest
  end.

(** [file_lines]: the lines of the file, stripped. *)
Definition file_lines (raw : list string) : list string :=
  List.map str_strip raw.

Definition csv_field_names : list string :=
  ["Satellite"; "Number"; "Uplink"; "Downlink"; "Beacon"; "Mode";
   "Callsign"; "Status"]%string.

(** [dict(zip(csv_field_names, ...))]: [zip] stops at the shorter of the
    two, and the field names are distinct. *)
Definition csv_row : Set := list (string * string).

(** [dict(zip(csv_field_names, (s.strip() for s in sat.strip().split(';'))))] *)
Definition csv_row_of (sat : string) : csv_row :=
  combine csv_field_names
    (List.map str_strip (str_split ";" (str_strip sat))).

(** [csv.split(';')[7] == 'active' or 'operational'], line 252: the truth
    value of [(... == 'active') or 'operational']. *)
Definition filter_active (csv : string) : result bool :=
  status <- index (str_split ";" csv) 7 ;;
  Ok (String.eqb status "active" || truthy "operational").

(** The comprehension of lines 256-257 over the generator of line 252. *)
Fixpoint active_sats_loop (lines : list string) : result (list csv_row) :=
  match lines with
  | [] => Ok []
  | sat :: rest =>
      keep <- filter_active sat ;;
      if keep then
        let s := csv_row_of sat in
        active <- active_sats_loop rest ;;
        Ok (s :: active)
      else active_sats_loop rest
  end.

(** [a == b] on two such dicts: they hold the same keys in the same order
    whenever they hold the same keys. *)
Fixpoint csv_row_eq (a b : csv_row) : bool :=
  match a, b with
  | [], [] => true
  | (k, v) :: a', (k', v') :: b' =>
      String.eqb k k' && String.eqb v v' && csv_row_eq a' b'
  | _, _ => false
  end.

(** [l.remove(x)]: the first item equal to [x] goes. *)
Fixpoint list_remove_row (x : csv_row) (l : list csv_row)
  : result (list csv_row) :=
  match l with
  | [] => Raise ValueError
  | y :: rest =>
      if csv_row_eq y x then Ok rest
      else rest' <- list_remove_row x rest ;; Ok (y :: rest')
  end.

(** The loop of lines 261-265 over the copy [active_sats_list[:]]. *)
Fixpoint dedup_loop (copy active_sats_list : list csv_row)
  (sat_number_list : list string) : result (list csv_row) :=
  match copy with
  | [] => Ok active_sats_list
  | sat :: rest =>
      number <- dict_get "Number" sat ;;
      if str_in number sat_number_list then
        active_sats_list <- list_remove_row sat active_sats_list ;;
        dedup_loop rest active_sats_list sat_number_list
      else dedup_loop rest active_sats_list (sat_number_list ++ [number])
  end.

(** The body of the loop of lines 268-290: the dict of one satellite. *)
Definition make_sat_dict (s : csv_row) : result sat_dict :=
  satellite <- dict_get "Satellite" s ;;
  number <- dict_get "Number" s ;;
  callsign <- dict_get "Callsign" s ;;
  status <- dict_get "Status" s ;;
  uplink <- dict_get "Uplink" s ;;
  downlink <- dict_get "Downlink" s ;;
  beacon <- dict_get "Beacon" s ;;
  mode <- dict_get "Mode" s ;;
  let transponder := contains_char "-" uplink in
  Ok {| d_Satellite := satellite;
        d_Number := number;
        d_Transponder_Uplink :=
          if truthy uplink && transponder then str_split "-" uplink else [];
        d_Transponder_Downlink :=
          if truthy downlink && transponder then str_split "-" downlink
          else [];
        d_Uplinks :=
          if truthy uplink && negb transponder then str_split "/" uplink
          else [];
        d_Downlinks :=
          if truthy downlink && negb transponder then str_split "/" downlink
          else [];
        d_Beacons := if truthy beacon then str_split "/" beacon else [];
        d_Modes :=
          if truthy mode
          then str_split " " (str_replace "bps " "bps:" mode) else [];
        d_Callsign := callsign;
        d_Status := status |}.

Fixpoint sats_dict_loop (active_sats_list : list csv_row)
  (sats_dict : list (string * sat_dict)) : result (list (string * sat_dict)) :=
  match active_sats_list with
  | [] => Ok sats_dict
  | s :: rest =>
      sat_dict <- make_sat_dict s ;;
      sats_dict_loop rest (dict_set (d_Satellite sat_dict) sat_dict sats_dict)
  end.

(** From the lines of [satslist.csv] as they are in the file to the dict
    that [json.dump] writes. *)
Definition on_pushButtonDownloadSatInfo_clicked (raw : list string)
  : result (list (string * sat_dict)) :=
  active_sats_list <- active_sats_loop (file_lines raw) ;;
  active_sats_list <- dedup_loop active_sats_list active_sats_list [] ;;
  sats_dict_loop active_sats_list [].

(** *** [set_up_satellite_data], lines 501-521: the satellites that have
    both TLEs and satellite information *)

(** [str(n)] on an int. *)
Definition str_int (n : Z) : string := NilZero.string_of_int (Z.to_int n).

(** [x in s] on two strings: [x] is found somewhere in [s]. *)
Fixpoint str_contains (x s : string) : bool :=
  String.prefix x s ||
  match s with
  | EmptyString => false
  | String _ rest => str_contains x rest
  end.

(** [sep.join(l)] *)
Fixpoint str_join (sep : string) (l : list string) : string :=
  match l with
  | [] => EmptyString
  | x :: rest =>
      match rest with
      | [] => x
      | _ :: _ => String.append x (String.append sep (str_join sep rest))
      end
  end.

(** [d[k] = v] on a dict with int keys, in insertion order. *)
Fixpoint int_dict_set {V : Type} (k : Z) (v : V) (d : list (Z * V))
  : list (Z * V) :=
  match d with
  | [] => [(k, v)]
  | (k', v') :: rest =>
      if (k' =? k)%Z then (k', v) :: rest
      else (k', v') :: int_dict_set k v rest
  end.

Section SetUp.

Context {satellite : Type}.

(** [sat.model.satnum] *)
Variable satnum : satellite -> Z.

(** [{sat.model.satnum: sat for sat in self.satellite_body_objects}], as
    [numbers] with the order of its keys and as [self.by_number]. *)
Definition numbers_of (satellite_body_objects : list satellite)
  : list (Z * satellite) :=
  fold_left (fun d sat => int_dict_set (satnum sat) sat d)
    satellite_body_objects [].

Definition by_number_of (satellite_body_objects : list satellite)
  : gmap Z satellite :=
  fold_left (fun d sat => <[satnum sat := sat]> d) satellite_body_objects ∅.

(** [str(numbers.keys())] *)
Definition str_keys (numbers : list (Z * satellite)) : string :=
  String.append "dict_keys(["
    (String.append
       (str_join ", " (List.map (fun e => str_int (fst e)) numbers)) "])").

(** The comprehension of lines 519-520 over the keys [names] of
    [self.satellite_data]; of each value the two keys the pass methods read
    are kept. *)
Fixpoint satellites_loop (keys : string)
  (satellite_data : list (string * sat_dict)) (names : list string)
  (acc : gmap string sat_data) : result (gmap string sat_data) :=
  match names with
  | [] => Ok acc
  | s :: rest =>
      v <- dict_get s satellite_data ;;
      if str_contains (d_Number v) keys
      then satellites_loop keys satellite_data rest (<[s := sat_data_of v]> acc)
      else satellites_loop keys satellite_data rest acc
  end.

(** The attributes [set_up_satellite_data] gives [self], from the TLEs
    loaded and the dict read from [satslist.json]. *)
Definition set_up_satellite_data (satellite_body_objects : list satellite)
  (satellite_data : list (string * sat_dict)) : result (MainApp satellite) :=
  let by_number := by_number_of satellite_body_objects in
  let numbers := numbers_of satellite_body_objects in
  satellites <- satellites_loop (str_keys numbers) satellite_data
                  (List.map fst satellite_data) ∅ ;;
  Ok {| satellites := satellites; by_number := by_number |}.

End SetUp.

End SkyHamSat.

(** ** graphqt5.py *)

Module graphqt5.

(** The attributes of a [Graph] (and of a [Polar], which sets the same ones)
    that the coordinate transforms read. *)
Record Graph : Set := {
  image_size_x : Q;
  image_size_y : Q;
  xmin : Q;
  xmax : Q;
  ymin : Q;
  ymax : Q;
  xgrids : Z;
  ygrids : Z
}.

(** [Graph.__init__], lines 85-131. *)
Definition Graph_init (xmin xmax ymin ymax : Q) (xgrids ygrids : Z)
  (size_x size_y : Q) : Graph :=
  let self_xmin := xmin in
  let self_ymin := ymin in
  let '(self_xmax, self_xmin) :=
    if eq (xmax - xmin) 0 then (1, 0) else (xmax, self_xmin) in
  let '(self_ymax, self_ymin) :=
    if eq (ymax - ymin) 0 then
      if gt ymax 0 then (ymax, 0) else (0, ymin)
    else (ymax, self_ymin) in
  let self_xgrids := if (xgrids <=? 0)%Z then 1%Z else xgrids in
  let self_ygrids := if (ygrids <=? 0)%Z then 1%Z else ygrids in
  {| image_size_x := size_x; image_size_y := size_y;
     xmin := self_xmin; xmax := self_xmax;
     ymin := self_ymin; ymax := self_ymax;
     xgrids := self_xgrids; ygrids := self_ygrids |}.

(** [Polar.__init__], lines 756-801. *)
Definition Polar_init (r_min r_max theta_min theta_max : Q)
  (r_circles theta_spokes : Z) (size_x size_y : Q) : Graph :=
  let self_xmin := r_min in
  let self_ymin := theta_min in
  let '(self_xmax, self_xmin) :=
    if eq (r_max - r_min) 0 then (1, 0) else (r_max, self_xmin) in
  let '(self_ymax, self_ymin) :=
    if eq (theta_max - theta_min) 0 then
      if gt theta_max 0 then (theta_max, 0) else (0, theta_min)
    else (theta_max, self_ymin) in
  let self_xgrids := if (r_circles <=? 0)%Z then 1%Z else r_circles in
  let self_ygrids := if (theta_spokes <=? 0)%Z then 1%Z else theta_spokes in
  {| image_size_x := size_x; image_size_y := size_y;
     xmin := self_xmin; xmax := self_xmax;
     ymin := self_ymin; ymax := self_ymax;
     xgrids := self_xgrids; ygrids := self_ygrids |}.

(** [Graph.tx], lines 137-147. *)
Definition tx (self : Graph) (x : Q) : result Q :=
  scale <- truediv (image_size_x self) (xmax self - xmin self) ;;
  let xt := scale * (x - xmin self) in
  Ok xt.

(** [Graph.ty], lines 149-163. *)
Definition ty (self : Graph) (y : Q) : result Q :=
  let imsize := image_size_y self in
  scale <- truediv imsize (ymax self - ymin self) ;;
  let yt := scale * (y - ymin self) in
  let yyt := imsize - yt in
  Ok yyt.

(** [Polar.pRad], lines 906-917. *)
Definition pRad (self : Graph) (r : Q) : result Q :=
  let graphRadius := Qmin (image_size_x self) (image_size_y self) / 2 in
  rp <- truediv (xmax self - r) (xmax self - xmin self) ;;
  let rad := graphRadius * rp in
  Ok rad.

(** *** The texts of a graph *)

(** An item of [self.texts] or [self.polarTexts]: the tuple
    [(text, x, y, colour, fixed)], or [(text, r, theta, colour, fixed)]. *)
Record text_item : Set := {
  ti_text : string;
  ti_x : Q;
  ti_y : Q;
  ti_colour : string;
  ti_fixed : bool
}.

(** [a == b] on two such tuples: item by item. *)
Definition text_item_eq (a b : text_item) : bool :=
  String.eqb (ti_text a) (ti_text b)
  && eq (ti_x a) (ti_x b)
  && eq (ti_y a) (ti_y b)
  && String.eqb (ti_colour a) (ti_colour b)
  && Bool.eqb (ti_fixed a) (ti_fixed b).

(** [l.index(x)]: the first position of an item equal to [x]. *)
Fixpoint list_index (x : text_item) (l : list text_item) : result nat :=
  match l with
  | [] => Raise ValueError
  | y :: rest =>
      if text_item_eq y x then Ok O
      else inx <- list_index x rest ;; Ok (S inx)
  end.

(** [del l[inx]] for a position [inx >= 0]. *)
Fixpoint list_del (l : list text_item) (inx : nat) : result (list text_item) :=
  match l, inx with
  | [], _ => Raise IndexError
  | _ :: rest, O => Ok rest
  | y :: rest, S inx => rest' <- list_del rest inx ;; Ok (y :: rest')
  end.

(** [l.remove(x)]: the first item equal to [x] is removed. *)
Fixpoint list_remove (x : text_item) (l : list text_item)
  : result (list text_item) :=
  match l with
  | [] => Raise ValueError
  | y :: rest =>
      if text_item_eq y x then Ok rest
      else rest' <- list_remove x rest ;; Ok (y :: rest')
  end.

(** A graph object: the attributes of [Graph] above, and the two lists of
    texts. *)
Record GraphTexts : Set := {
  attrs : Graph;
  texts : list text_item;
  polarTexts : list text_item
}.

(** The object as [__init__] leaves it: [self.texts = []],
    [self.polarTexts = []]. *)
Definition new_graph (g : Graph) : GraphTexts :=
  {| attrs := g; texts := []; polarTexts := [] |}.

(** [Graph.add_text], line 400. *)
Definition add_text (self : GraphTexts) (text : string) (x y : Q)
  (colour : string) (fixed : bool) : GraphTexts :=
  {| attrs := attrs self;
     texts := texts self ++ [ {| ti_text := text; ti_x := x; ti_y := y;
                                 ti_colour := colour; ti_fixed := fixed |} ];
     polarTexts := polarTexts self |}.

(** [Graph.remove_text], lines 415-416. *)
Definition remove_text (self : GraphTexts) (text : string) (x y : Q)
  (colour : string) (fixed : bool) : result GraphTexts :=
  let item := {| ti_text := text; ti_x := x; ti_y := y;
                 ti_colour := colour; ti_fixed := fixed |} in
  inx <- list_index item (texts self) ;;
  texts' <- list_del (texts self) inx ;;
  Ok {| attrs := attrs self; texts := texts'; polarTexts := polarTexts self |}.

(** [Graph.add_text_by_proportion], lines 432-435. *)
Definition add_text_by_proportion (self : GraphTexts) (text : string)
  (x_proportion y_proportion : Q) (colour : string) (fixed : bool)
  : GraphTexts :=
  add_text self text
    ((xmax (attrs self) - xmin (attrs self)) * x_proportion + xmin (attrs self))
    ((ymax (attrs self) - ymin (attrs self)) * y_proportion + ymin (attrs self))
    colour fixed.

(** [Graph.remove_text_by_proportion], lines 451-454. *)
Definition remove_text_by_proportion (self : GraphTexts) (text : string)
  (x_proportion y_proportion : Q) (colour : string) (fixed : bool)
  : result GraphTexts :=
  remove_text self text
    ((xmax (attrs self) - xmin (attrs self)) * x_proportion + xmin (attrs self))
    ((ymax (attrs self) - ymin (attrs self)) * y_proportion + ymin (attrs self))
    colour fixed.

(** The loop [for t in copy: if not t[4]: l.remove(t)] of [clear_texts] and
    [clear_polar_texts], run on the list [l] for the rest [copy] of the
    copy. *)
Fixpoint clear_loop (copy l : list text_item) : result (list text_item) :=
  match copy with
  | [] => Ok l
  | t :: copy =>
      if negb (ti_fixed t)
      then l' <- list_remove t l ;; clear_loop copy l'
      else clear_loop copy l
  end.

(** [Graph.clear_texts], lines 464-466. *)
Definition clear_texts (self : GraphTexts) : result GraphTexts :=
  texts' <- clear_loop (texts self) (texts self) ;;
  Ok {| attrs := attrs self; texts := texts'; polarTexts := polarTexts self |}.

(** [Polar.add_polar_text], line 1060. *)
Definition add_polar_text (self : GraphTexts) (text : string) (r theta : Q)
  (colour : string) (fixed : bool) : GraphTexts :=
  {| attrs := attrs self;
     texts := texts self;
     polarTexts := polarTexts self
                   ++ [ {| ti_text := text; ti_x := r; ti_y := theta;
                           ti_colour := colour; ti_fixed := fixed |} ] |}.

(** [Polar.clear_polar_texts], lines 1070-1072. *)
Definition clear_polar_texts (self : GraphTexts) : result GraphTexts :=
  polarTexts' <- clear_loop (polarTexts self) (polarTexts self) ;;
  Ok {| attrs := attrs self; texts := texts self; polarTexts := polarTexts' |}.

(** [Polar.remove_polar_text], lines 1087-1088. *)
Definition remove_polar_text (self : GraphTexts) (text : string) (r theta : Q)
  (colour : string) (fixed : bool) : result GraphTexts :=
  let item := {| ti_text := text; ti_x := r; ti_y := theta;
                 ti_colour := colour; ti_fixed := fixed |} in
  inx <- list_index item (polarTexts self) ;;
  polarTexts' <- list_del (polarTexts self) inx ;;
  Ok {| attrs := attrs self; texts := texts self; polarTexts := polarTexts' |}.

(** *** The polar transforms *)

(** [Polar.pr], lines 926-930, and [Polar.pt], lines 939-943; [sin] and
    [cos] are [math.sin] and [math.cos]. *)
Definition pr (sin : Q -> Q) (self : Graph) (r theta : Q) : result Q :=
  let centre := Qmin (image_size_x self) (image_size_y self) / 2 in
  rad <- pRad self r ;;
  let x := centre + rad * sin theta in
  Ok x.

Definition pt (cos : Q -> Q) (self : Graph) (r theta : Q) : result Q :=
  let centre := Qmin (image_size_x self) (image_size_y self) / 2 in
  rad <- pRad self r ;;
  let y := centre - rad * cos theta in
  Ok y.

End graphqt5.

Import SkyHamSat.
Import graphqt5.

(** * The vocabulary of the properties *)

(** ** Doppler shift *)

(** The speed of light in km/s. *)
Definition c_km_s : Q := 299792458 / 1000.

(** The shift the specification gives for the range rate [r] (km/s) and
    the carrier frequency [f] (Hz): [-r / c * f]. *)
Definition claimed_shift (r f : Q) : Q := - (r / c_km_s) * f.

(** ** Event lists *)

(** [event_name == 'set'] on a pass event. *)
Definition is_set (e : pass_event) : bool := String.eqb (snd e) "set".

(** The number of ['set'] events of an event list. *)
Fixpoint count_set (l : list pass_event) : nat :=
  match l with
  | [] => O
  | e :: rest => if is_set e then S (count_set rest) else count_set rest
  end.

(** [named_prefix zipped l]: [l] is, event for event and in the same order,
    a prefix of the events [zipped] that [find_events] reported, each code
    replaced by its name. *)
Inductive named_prefix : list (Q * Z) -> list pass_event -> Prop :=
| named_nil (zipped : list (Q * Z)) : named_prefix zipped []
| named_cons (ti : Q) (event : Z) (event_name : string)
    (zipped : list (Q * Z)) (l : list pass_event) :
    event_name_of event = Ok event_name ->
    named_prefix zipped l ->
    named_prefix ((ti, event) :: zipped) ((ti, event_name) :: l).

(** ** Vectors and ranges *)

(** The vector [v] stretched by [k]. *)
Definition scale (k : Q) (v : vec) : vec :=
  let '(v1, v2, v3) := v in (k * v1, k * v2, k * v3).

(** The sum of two vectors. *)
Definition add (a b : vec) : vec :=
  let '(a1, a2, a3) := a in
  let '(b1, b2, b3) := b in
  (a1 + b1, a2 + b2, a3 + b3).

(** The observer-to-satellite unit vector, for [n] the length of [pos]. *)
Definition unit_vector (n : Q) (pos : vec) : vec := scale (/ n) pos.

(** The square of the range. *)
Definition range_sq (pos : vec) : Q := dot pos pos.

(** The relative position [dt] seconds on, the relative velocity kept. *)
Definition moved (pos velocity : vec) (dt : Q) : vec :=
  add pos (scale dt velocity).

(** ** Sampling *)

(** [calc_time] after one round of the loop entered with [calc_time = t]:
    line 634, in the float arithmetic of the program. *)
Definition next_time {satellite : Type} (X : Extern satellite)
  (interval t : Q) : Q :=
  float_add X t (float_mul X (JULIAN_SEC X) interval).

(** The value of [calc_time] at the [k]-th test of the loop condition, the
    loop entered with [calc_time = t]. *)
Fixpoint sample_time {satellite : Type} (X : Extern satellite)
  (interval t : Q) (k : nat) : Q :=
  match k with
  | O => t
  | S k => sample_time X interval (next_time X interval t) k
  end.

(** The stepping from [rise_tt] reaches [setting_tt]. *)
Definition reaches {satellite : Type} (X : Extern satellite)
  (interval rise_tt setting_tt : Q) : Prop :=
  exists n, setting_tt <= sample_time X interval rise_tt n.

(** An arithmetic that rounds nothing. *)
Definition exact_arithmetic {satellite : Type} (X : Extern satellite) : Prop :=
  (forall a b, float_add X a b = a + b) /\
  (forall a b, float_mul X a b = a * b) /\
  (forall a b, float_truediv X a b = a / b).

(** The number of samples under an arithmetic that rounds nothing: the
    least [n] with [rise + n * step >= set], for [step = interval / 86400]. *)
Definition sample_count (rise_tt setting_tt interval : Q) : nat :=
  Z.to_nat (Qceiling ((setting_tt - rise_tt) / (1 / 86400 * interval))).

(** The point the loop body appends at [calc_time = t], [point_number = pn],
    for the observation [o] made there. *)
Definition sample_point {satellite : Type} (X : Extern satellite)
  (colour : string) (text_every_point : Z) (o : Angle * Angle * Q)
  (pn : Z) (t : Q) : point :=
  {| pt_r := degrees (fst (fst o));
     pt_theta := radians (snd (fst o));
     pt_colour := colour;
     pt_size := 4;
     pt_text := if text_due text_every_point pn
                then calendar_text X t else ""%string |}.

(** The [m] points appended from [calc_time = t], [point_number = pn] on. *)
Fixpoint points_from {satellite : Type} (X : Extern satellite)
  (colour : string) (text_every_point : Z) (interval : Q)
  (obs : Q -> Angle * Angle * Q) (t : Q) (pn : Z) (m : nat) : list point :=
  match m with
  | O => []
  | S m =>
      sample_point X colour text_every_point (obs t) pn t
      :: points_from X colour text_every_point interval obs
           (next_time X interval t) (pn + 1)%Z m
  end.

(** The time of the last [calendar = ...] assignment after [m] rounds. *)
Definition last_calendar {satellite : Type} (X : Extern satellite)
  (interval : Q) (calendar : option Q) (t : Q) (m : nat) : option Q :=
  match m with
  | O => calendar
  | S m => Some (sample_time X interval t m)
  end.

(** ** Orders on the transit list *)

(** The rise time and the satellite name of an entry. *)
Definition rise_of (a : transit) : Q := fst (fst (fst a)).
Definition sat_of (a : transit) : string := snd a.

(** The order [list.sort()] puts the entries in: rise time first, then
    transit time, then set time, then satellite name. *)
Definition transit_le (a b : transit) : Prop :=
  let '(a0, a1, a2, a3) := a in
  let '(b0, b1, b2, b3) := b in
  a0 < b0 \/
  (a0 == b0 /\
   (a1 < b1 \/
    (a1 == b1 /\
     (a2 < b2 \/
      (a2 == b2 /\ String.leb a3 b3 = true))))).

(** The order of the claim: rise time, ties broken by satellite name. *)
Definition by_rise_then_identifier (a b : transit) : Prop :=
  rise_of a < rise_of b \/
  (rise_of a == rise_of b /\ String.leb (sat_of a) (sat_of b) = true).

(** ** Results of the transforms *)

(** [returns c v]: the call [c] raises nothing and its value is [v]. *)
Definition returns (c : result Q) (v : Q) : Prop :=
  exists v', c = Ok v' /\ v' == v.

(** [differs x]: an item that is not equal ([==]) to [x]. *)
Definition differs (x y : text_item) : Prop := text_item_eq y x = false.

(** The item [(text, x, y, colour, fixed)]. *)
Definition item (text : string) (x y : Q) (colour : string) (fixed : bool)
  : text_item :=
  {| ti_text := text; ti_x := x; ti_y := y;
     ti_colour := colour; ti_fixed := fixed |}.

(** ** Modes and frequencies *)

(** [a < b] on strings, as a proposition. *)
Definition string_lt (a b : string) : Prop := String.ltb a b = true.

(** The satellite has a non-empty list under a ticked check box and carries
    the mode [m]. *)
Definition offers (boxes : check_boxes) (m : string) (s : sat_dict) : Prop :=
  any_checked boxes s = true /\ In m (d_Modes s).

(** The entries of the six lists of a satellite dict, in the order of its
    keys. *)
Definition list_entries (s : sat_dict) : list string :=
  d_Transponder_Uplink s ++ d_Transponder_Downlink s ++ d_Uplinks s
  ++ d_Downlinks s ++ d_Beacons s ++ d_Modes s.

(** [float] accepts the string. *)
Definition accepted (py_float : string -> result Q) (L : string) : bool :=
  match py_float L with
  | Ok _ => true
  | Raise _ => false
  end.

(** ** The lines of the upcoming passes *)

(** The entry sets less than [hours_to_show] hours after [now]. *)
Definition sets_soon (now : Q) (t : transit) : bool :=
  let '(_, _, transit2, _) := t in
  lt ((transit2 - now) * 24) hours_to_show.

(** [line_for now t line]: [line] is the line of the entry [t], two purple
    points of size 6 at one altitude, the first at the hours from [now] to
    the rise ([now] itself standing for a rise time of 0), the second, with
    the name of the satellite, at the hours from [now] to the set. *)
Definition line_for (now : Q) (t : transit) (line : list graph_point) : Prop :=
  let '(transit0, _, transit2, transit3) := t in
  exists alt : Q,
    line
    = [ {| gp_x := ((if eq transit0 0 then now else transit0) - now) * 24;
           gp_y := alt; gp_colour := "purple"; gp_size := 6;
           gp_text := None |};
        {| gp_x := (transit2 - now) * 24;
           gp_y := alt; gp_colour := "purple"; gp_size := 6;
           gp_text := Some (String " "%char transit3) |} ].

(** The entries of a transit list with the rounds of the loop that meet
    them, the first entry met in round [round]. *)
Fixpoint rounds (round : nat) (transit_list : list transit)
  : list (nat * transit) :=
  match transit_list with
  | [] => []
  | t :: rest => (round, t) :: rounds (S round) rest
  end.

(** [sets_soon] and [line_for] at the reading of the clock in the round
    that meets the entry. *)
Definition sets_soon_in (now : nat -> Q) (e : nat * transit) : bool :=
  sets_soon (now (fst e)) (snd e).

Definition line_in (now : nat -> Q) (e : nat * transit)
  (line : list graph_point) : Prop :=
  line_for (now (fst e)) (snd e) line.

(** ** The polar lines of the next passes *)

(** No 'set' comes while [rise_ts] is unbound: [bound] tells whether it is
    bound at the start of the list. *)
Fixpoint rise_before_set (bound : bool) (pass_list : list pass_event) : bool :=
  match pass_list with
  | [] => true
  | (_, event_name) :: rest =>
      if String.eqb event_name "rise" then rise_before_set true rest
      else if String.eqb event_name "set"
           then bound && rise_before_set bound rest
           else rise_before_set bound rest
  end.

(** The colour [plot_colours[k % len(plot_colours)]]. *)
Definition colour_of_pass (k : Z) : result string :=
  index plot_colours (k mod Z.of_nat (List.length plot_colours)).

(** The strings of a dict value that is a list. *)
Definition list_of_value (v : string * dict_value) : list string :=
  match snd v with
  | VStr _ => []
  | VList l => l
  end.

(** A line of [satslist.csv] with at least eight fields. *)
Definition full_line (csv : string) : bool :=
  (8 <=? List.length (str_split ";" csv))%nat.

(** The [k]-th field of a line, stripped. *)
Definition csv_field (k : nat) (csv : string) : string :=
  nth k (List.map str_strip (str_split ";" (str_strip csv))) EmptyString.

(** A string with no white space at its start. *)
Definition lstripped (s : string) : Prop :=
  match s with
  | EmptyString => True
  | String c _ => isspace c = false
  end.

(** A row with all the eight keys. *)
Definition complete (r : csv_row) : Prop :=
  List.map fst r = csv_field_names.

(** The value of a key the row has; the empty string for one it lacks. *)
Definition value_of (k : string) (r : csv_row) : string :=
  match dict_get k r with
  | Ok v => v
  | Raise _ => EmptyString
  end.

(** How many items of a list pass a test. *)
Definition countb {A : Type} (p : A -> bool) (l : list A) : nat :=
  List.length (List.filter p l).

Definition has_number (n : string) (r : csv_row) : bool :=
  String.eqb (value_of "Number" r) n.

(** The grey point [on_auto_update_timer] plots for a satellite seen at
    [alt], [az]. *)
Definition up_point (sat : string) (alt az : Angle) : point :=
  {| pt_r := degrees alt; pt_theta := radians az; pt_colour := "grey";
     pt_size := 8; pt_text := String " "%char sat |}.

(** The black point of the selected satellite, its label made of the two
    shifts [d2] and [d70]. *)
Definition doppler_point {satellite : Type} (X : Extern satellite)
  (sat : string) (alt az : Angle) (d2 d70 : Q) : point :=
  {| pt_r := degrees alt; pt_theta := radians az; pt_colour := "black";
     pt_size := 8; pt_text := doppler_text X sat d2 d70 |}.

(** [p] is at the place where a satellite of [filtered] is seen above the
    horizon at [now]. *)
Definition seen_up {satellite : Type} (X : Extern satellite)
  (self : MainApp satellite) (now : Q) (filtered : list sat_data) (p : point)
  : Prop :=
  exists (v : sat_data) (alt az : Angle) (velocity : Q),
    In v filtered /\
    get_alt_azimuth X self now (Satellite v) = Ok (alt, az, velocity) /\
    0 < degrees alt /\ pt_r p = degrees alt /\ pt_theta p = radians az.

(** How many entries [transit_list_sorted_by_time] makes for one satellite. *)
Definition entered {satellite : Type} (X : Extern satellite)
  (self : MainApp satellite) (now : Q) (N : Z) (v : sat_data) : nat :=
  match get_next_passes X self now (Satellite v) N with
  | Ok [] => 1%nat
  | Ok pass_list => count_set pass_list
  | Raise _ => 0%nat
  end.

(** How many entries of a transit list a satellite has. *)
Definition entries_named (name : string) (transit_list : list transit) : nat :=
  countb (fun t => String.eqb (sat_of t) name) transit_list.

(** The keys of a dict, and the 'Number' of each of its values, in order. *)
Definition dict_keys {V : Type} (d : list (string * V)) : list string :=
  List.map fst d.

Definition dict_numbers (d : list (string * sat_dict)) : list string :=
  List.map d_Number (List.map snd d).

(** [x] is a part of [s]. *)
Definition substring (x s : string) : Prop :=
  exists a b, s = String.append a (String.append x b).

(** * Installations on which the methods are run *)

(** A small installation: two satellites with elements, a third whose
    number is no integer literal, and library calls that answer with fixed
    values. *)
Module Demo.

(** [int] on the three numbers of the installation. *)
Definition int (s : string) : result Z :=
  if String.eqb s "25544" then Ok 25544%Z
  else if String.eqb s "7530" then Ok 7530%Z
  else Raise ValueError.

(** Satellite 0 rises, culminates and sets twice; satellite 1 is above the
    horizon at the start, past its culmination, and sets once. *)
Definition events_of (sat : nat) : list Q * list Z :=
  match sat with
  | O => ([1 # 10; 2 # 10; 3 # 10; 6 # 10; 7 # 10; 8 # 10],
          [0; 1; 2; 0; 1; 2]%Z)
  | _ => ([1 # 20], [2]%Z)
  end.

(** Every satellite is seen 5 km away at (3, 4, 0), moving along the first
    axis, at an altitude of [10 + t] degrees. *)
Definition observed (sat : nat) (t : Q) : Topocentric :=
  {| position_km := (3, 4, 0);
     velocity_km_per_s := (1, 0, 0);
     altaz_alt := {| degrees := 10 + t; radians := (10 + t) / 57 |};
     altaz_az := {| degrees := 100 + t; radians := (100 + t) / 57 |} |}.

(** [norm] answers with the length of the one position [observed] gives. *)
Definition extern : Extern nat :=
  {| py_int := int;
     find_events := fun sat _ _ => Ok (events_of sat);
     topocentric_at := fun sat t => Ok (observed sat t);
     norm := fun _ => 5;
     calendar_text := fun _ => "hh:mm:ss"%string;
     doppler_text := fun sat _ _ => sat;
     float_add := Qplus; float_mul := Qmult; float_truediv := Qdiv |}.

Definition iss : sat_data := {| Satellite := "ISS"; Number := "25544" |}.
Definition ao7 : sat_data := {| Satellite := "AO-7"; Number := "7530" |}.
Definition bad : sat_data := {| Satellite := "BAD"; Number := "n/a" |}.

Definition app : MainApp nat :=
  {| satellites := <["ISS" := iss]> (<["AO-7" := ao7]> (<["BAD" := bad]> ∅));
     by_number := <[25544%Z := O]> (<[7530%Z := 1%nat]> ∅) |}.

(** The first pass of satellite 0. *)
Definition first_pass : list pass_event :=
  [(1 # 10, "rise"%string); (2 # 10, "transit"%string); (3 # 10, "set"%string)].

End Demo.

(** The installation of [Demo] under a sky in which nothing ever rises. *)
Definition empty_sky : Extern nat :=
  {| py_int := Demo.int;
     find_events := fun _ _ _ => Ok ([], []);
     topocentric_at := fun sat t => Ok (Demo.observed sat t);
     norm := fun _ => 5;
     calendar_text := fun _ => "hh:mm:ss"%string;
     doppler_text := fun sat _ _ => sat;
     float_add := Qplus; float_mul := Qmult; float_truediv := Qdiv |}.

(** Binary64 arithmetic on the rationals that are floats: an operation is
    that of IEEE 754 (53 bits, rounding to nearest, ties to even) on the
    floats nearest its arguments. *)
Module Binary64.

Definition prec : Z := 53.
Definition emax : Z := 1024.

Definition of_Z (z : Z) : spec_float :=
  match z with
  | Z0 => S754_zero false
  | Zpos m => binary_normalize prec emax (Zpos m) 0 false
  | Zneg m => SFopp (binary_normalize prec emax (Zpos m) 0 false)
  end.

(** The float nearest a rational whose numerator and denominator are
    floats themselves. *)
Definition of_Q (q : Q) : spec_float :=
  SFdiv prec emax (of_Z (Qnum q)) (of_Z (Zpos (Qden q))).

Definition to_Q (f : spec_float) : Q :=
  match f with
  | S754_finite s m e =>
      (if s then - (1) else 1) * (inject_Z (Zpos m) * Qpower 2 e)
  | _ => 0
  end.

Definition add (a b : Q) : Q := to_Q (SFadd prec emax (of_Q a) (of_Q b)).
Definition mul (a b : Q) : Q := to_Q (SFmul prec emax (of_Q a) (of_Q b)).
Definition truediv (a b : Q) : Q := to_Q (SFdiv prec emax (of_Q a) (of_Q b)).

End Binary64.

(** The installation of [Demo] with the arithmetic of binary64. *)
Definition binary64 : Extern nat :=
  {| py_int := Demo.int;
     find_events := find_events Demo.extern;
     topocentric_at := topocentric_at Demo.extern;
     norm := norm Demo.extern;
     calendar_text := calendar_text Demo.extern;
     doppler_text := doppler_text Demo.extern;
     float_add := Binary64.add;
     float_mul := Binary64.mul;
     float_truediv := Binary64.truediv |}.

(** 90 s after the epoch, and half a day after Julian date 2460000, as the
    program has them. *)
Definition after_90_s : Q := Binary64.truediv 90 86400.
Definition noon_2460000 : Q := 4920001 # 2.

(** The installation of [Demo] with every satellite seen at (1, 1, 0), a
    position whose length, the square root of 2, is no rational: [norm]
    answers with the float nearest it. *)
Definition diagonal : Extern nat :=
  {| py_int := Demo.int;
     find_events := find_events Demo.extern;
     topocentric_at := fun sat t =>
       Ok {| position_km := (1, 1, 0);
             velocity_km_per_s := (1, 0, 0);
             altaz_alt := altaz_alt (Demo.observed sat t);
             altaz_az := altaz_az (Demo.observed sat t) |};
     norm := fun _ => 6369051672525773 # 4503599627370496;
     calendar_text := calendar_text Demo.extern;
     doppler_text := doppler_text Demo.extern;
     float_add := Qplus; float_mul := Qmult; float_truediv := Qdiv |}.

(** A clock that starts at [t0] and is a second later at every reading. *)
Definition ticking (t0 : Q) (reading : nat) : Q :=
  t0 + inject_Z (Z.of_nat reading) / 86400.

(** What [get_alt_azimuth] returns for ISS at time [t] in [Demo]. *)
Definition demo_obs (t : Q) : Angle * Angle * Q :=
  (altaz_alt (Demo.observed O t), altaz_az (Demo.observed O t),
   slant_velocity Demo.extern (1, 0, 0) (3, 4, 0)).

(** Two satellites that rise at the same instant, the one with the smaller
    name culminating later. *)
Definition same_rise : Extern nat :=
  {| py_int := Demo.int;
     find_events := fun sat _ _ =>
       match sat with
       | O => Ok ([1 # 10; 2 # 10; 3 # 10], [0; 1; 2]%Z)
       | _ => Ok ([1 # 10; 1 # 4; 4 # 10], [0; 1; 2]%Z)
       end;
     topocentric_at := fun sat t => Ok (Demo.observed sat t);
     norm := fun _ => 5;
     calendar_text := fun _ => "hh:mm:ss"%string;
     doppler_text := fun sat _ _ => sat;
     float_add := Qplus; float_mul := Qmult; float_truediv := Qdiv |}.

(** The transit list of that sky, as the program returns it. *)
Definition same_rise_sorted : list transit :=
  [(1 # 10, 2 # 10, 3 # 10, "ISS"%string);
   (1 # 10, 1 # 4, 4 # 10, "AO-7"%string)].

(** The installation of [Demo] with a transform that fails for satellite 1
    and an event search that fails, with another class of exception, for
    satellite 0. *)
Definition failing : Extern nat :=
  {| py_int := Demo.int;
     find_events := fun sat _ _ =>
       match sat with
       | O => Raise ExternalError
       | _ => Ok (Demo.events_of sat)
       end;
     topocentric_at := fun sat t =>
       match sat with
       | O => Ok (Demo.observed sat t)
       | _ => Raise ValueError
       end;
     norm := fun _ => 5;
     calendar_text := fun _ => "hh:mm:ss"%string;
     doppler_text := fun sat _ _ => sat;
     float_add := Qplus; float_mul := Qmult; float_truediv := Qdiv |}.

(** A satellite dict with a transponder, a beacon and two modes, one of
    them a number. *)
Definition ao7_dict : sat_dict :=
  {| d_Satellite := "AO-7"; d_Number := "7530";
     d_Transponder_Uplink := ["145.850"; "145.950"]%string;
     d_Transponder_Downlink := ["29.400"; "29.500"]%string;
     d_Uplinks := []; d_Downlinks := [];
     d_Beacons := ["29.502"; "n/a"]%string;
     d_Modes := ["SSB"; "1200"]%string;
     d_Callsign := ""; d_Status := "active" |}.

(** [float] on the strings of [ao7_dict]. *)
Definition demo_float (L : string) : result Q :=
  if String.eqb L "145.850" then Ok (145850 # 1000)
  else if String.eqb L "145.950" then Ok (145950 # 1000)
  else if String.eqb L "29.400" then Ok (29400 # 1000)
  else if String.eqb L "29.500" then Ok (29500 # 1000)
  else if String.eqb L "29.502" then Ok (29502 # 1000)
  else if String.eqb L "1200" then Ok 1200
  else Raise ValueError.

(** Three lines of [satslist.csv]: the first is not active, the third
    repeats the number of the second. *)
Definition demo_csv : list string :=
  ["AO-7;7530;432.125-432.175;145.975-145.925;145.970;A/B;;inactive ";
   " ISS;25544;145.990;145.800/437.800;;1200bps AFSK;NA1SS;active";
   "ISS-dup;25544;;;;;;weird"]%string.

(** Two TLEs, numbered 25544 and 7530, and the satellite information of
    AO-7 and of a satellite whose number, 554, is part of 25544; [int]
    reads 554 as well. *)
Definition demo_satnum (sat : nat) : Z :=
  match sat with
  | O => 25544%Z
  | _ => 7530%Z
  end.

Definition no_tle_dict : sat_dict :=
  {| d_Satellite := "NO-TLE"; d_Number := "554";
     d_Transponder_Uplink := []; d_Transponder_Downlink := [];
     d_Uplinks := []; d_Downlinks := []; d_Beacons := []; d_Modes := [];
     d_Callsign := ""; d_Status := "active" |}.

Definition demo_data : list (string * sat_dict) :=
  [("AO-7"%string, ao7_dict); ("NO-TLE"%string, no_tle_dict)].

Definition reads_554 : Extern nat :=
  {| py_int := fun s => if String.eqb s "554" then Ok 554%Z else Demo.int s;
     find_events := find_events Demo.extern;
     topocentric_at := topocentric_at Demo.extern;
     norm := norm Demo.extern;
     calendar_text := calendar_text Demo.extern;
     doppler_text := doppler_text Demo.extern;
     float_add := Qplus; float_mul := Qmult; float_truediv := Qdiv |}.

(** * Properties *)

(** ** Comparisons *)

Lemma lt_true_iff (a b : Q) : lt a b = true <-> a < b.
Proof.
  unfold lt. rewrite negb_true_iff. split.
  - intros H. destruct (Qlt_le_dec a b) as [Hl|Hl]; [exact Hl|].
    apply Qle_bool_iff in Hl. congruence.
  - intros H. destruct (Qle_bool b a) eqn:Hle; [|reflexivity].
    apply Qle_bool_iff in Hle. lra.
Qed.

Lemma lt_false_iff (a b : Q) : lt a b = false <-> b <= a.
Proof.
  unfold lt. rewrite negb_false_iff. apply Qle_bool_iff.
Qed.

Lemma eq_true_iff (a b : Q) : eq a b = true <-> a == b.
Proof. apply Qeq_bool_iff. Qed.

Lemma eq_false_iff (a b : Q) : eq a b = false <-> ~ a == b.
Proof.
  unfold eq. split.
  - intros H Heq. apply Qeq_bool_iff in Heq. congruence.
  - intros H. destruct (Qeq_bool a b) eqn:He; [|reflexivity].
    apply Qeq_bool_iff in He. contradiction.
Qed.

(** ** The Doppler shift *)

(** A shift [-r / 300000 * f] has the sign of [-r] for a frequency above
    zero. *)
Lemma shift_sign (r f : Q) :
  0 < f ->
  (r < 0 -> 0 < - r / 300000 * f) /\ (0 < r -> - r / 300000 * f < 0).
Proof.
  intros Hf.
  assert (He : - r / 300000 * f == - (r * f) * / 300000) by field.
  rewrite He. split; intros Hr.
  - assert (Hp : r * f < 0) by nra.
    apply Qmult_lt_0_compat; [lra | reflexivity].
  - assert (Hp : 0 < r * f) by nra.
    assert (Hq : 0 < r * f * / 300000)
      by (apply Qmult_lt_0_compat; [lra | reflexivity]).
    assert (He' : - (r * f) * / 300000 == - (r * f * / 300000)) by ring.
    rewrite He'. lra.
Qed.

(** C1, as the code has it.  For every range rate [r] (km/s) the shifts
    the program computes, those of the 2 m, the 100 MHz and the 70 cm
    carriers and that of the selected frequency, are [-r / 300000 * f]: the
    program divides by 300000 km/s where the speed of light is 299792.458
    km/s, so that each shift is [c / 300000], a factor between 0.9993 and
    1, times [-r / c * f].  An approaching satellite ([r < 0]) gets
    positive shifts and a receding one ([0 < r]) negative shifts.  These
    are the shifts [on_auto_update_timer] uses: for the selected satellite,
    seen above the horizon with the range rate [r], it puts the 2 m and the
    70 cm shift into the label of its black point and shows the shift of
    the selected frequency. *)
Theorem doppler_shift_spec (r mhz : Q) :
  let d2 := doppler_shift_2m r in
  let d70 := doppler_shift_70cm r in
  let d := selected_doppler_shift r mhz in
  d2 == c_km_s / 300000 * claimed_shift r 145900000 /\
  d70 == c_km_s / 300000 * claimed_shift r 436500000 /\
  doppler_shift_100 r == c_km_s / 300000 * claimed_shift r 100000000 /\
  d == c_km_s / 300000 * claimed_shift r (mhz * 1000000) /\
  9993 / 10000 < c_km_s / 300000 /\ c_km_s / 300000 < 1 /\
  (r < 0 -> 0 < d2 /\ 0 < d70 /\ 0 < doppler_shift_100 r /\
            (0 < mhz -> 0 < d)) /\
  (0 < r -> d2 < 0 /\ d70 < 0 /\ doppler_shift_100 r < 0 /\
            (0 < mhz -> d < 0)) /\
  (forall (satellite : Type) (X : Extern satellite) (self : MainApp satellite)
          (now : Q) (v : sat_data) (alt az : Angle),
     get_alt_azimuth X self now (Satellite v) = Ok (alt, az, r) ->
     0 < degrees alt ->
     up_positions_loop X self now (Satellite v) (Ok mhz) [v] [] None
     = Ok ([up_point (Satellite v) alt az;
            doppler_point X (Satellite v) alt az d2 d70], Some d)).
Proof.
  intros d2 d70 d.
  assert (Hloop :
    forall (satellite : Type) (X : Extern satellite) (self : MainApp satellite)
           (now : Q) (v : sat_data) (alt az : Angle),
      get_alt_azimuth X self now (Satellite v) = Ok (alt, az, r) ->
      0 < degrees alt ->
      up_positions_loop X self now (Satellite v) (Ok mhz) [v] [] None
      = Ok ([up_point (Satellite v) alt az;
             doppler_point X (Satellite v) alt az d2 d70], Some d)).
  { intros satellite X self now v alt az Hobs Hup.
    cbn [up_positions_loop]. rewrite Hobs. cbn [bind].
    assert (Hgt : gt (degrees alt) 0 = true) by (apply lt_true_iff; exact Hup).
    rewrite Hgt, String.eqb_refl. reflexivity. }
  unfold d2, d70, d, doppler_shift_2m, doppler_shift_70cm, doppler_shift_100,
    selected_doppler_shift, claimed_shift, c_km_s in *.
  split; [field|]. split; [field|]. split; [field|]. split; [field|].
  split; [reflexivity|]. split; [reflexivity|].
  assert (Hsel : 0 < mhz ->
                 (r < 0 -> 0 < - r / 300000 * mhz * 1000000) /\
                 (0 < r -> - r / 300000 * mhz * 1000000 < 0)).
  { intros Hm.
    assert (He : - r / 300000 * mhz * 1000000
                 == - r / 300000 * (mhz * 1000000)) by ring.
    rewrite He. apply shift_sign. nra. }
  split; [|split; [|exact Hloop]]; intros Hr.
  - split; [apply (shift_sign r 145900000); [reflexivity|exact Hr]|].
    split; [apply (shift_sign r 436500000); [reflexivity|exact Hr]|].
    split; [apply (shift_sign r 100000000); [reflexivity|exact Hr]|].
    intros Hm. apply (Hsel Hm), Hr.
  - split; [apply (shift_sign r 145900000); [reflexivity|exact Hr]|].
    split; [apply (shift_sign r 436500000); [reflexivity|exact Hr]|].
    split; [apply (shift_sign r 100000000); [reflexivity|exact Hr]|].
    intros Hm. apply (Hsel Hm), Hr.
Qed.

(** ISS in [Demo] recedes at 3/5 km/s: the shift shown for 145 MHz is
    290 Hz below zero. *)
Lemma doppler_shift_spec_witness :
  exists up_positions d,
    up_positions_loop Demo.extern Demo.app 0 "ISS" (Ok 145) [Demo.iss] [] None
    = Ok (up_positions, Some d) /\
    d == - (290) /\ List.length up_positions = 2%nat.
Proof.
  assert (Hobs : get_alt_azimuth Demo.extern Demo.app 0 (Satellite Demo.iss)
                 = Ok (demo_obs 0)) by (vm_compute; reflexivity).
  assert (Hup : 0 < degrees (fst (fst (demo_obs 0)))) by reflexivity.
  pose proof (proj2 (proj2 (proj2 (proj2 (proj2 (proj2 (proj2 (proj2
                (doppler_shift_spec (snd (demo_obs 0)) 145))))))))
                nat Demo.extern Demo.app 0 Demo.iss
                (fst (fst (demo_obs 0))) (snd (fst (demo_obs 0))) Hobs Hup)
    as Hloop.
  do 2 eexists. split; [exact Hloop|]. split; reflexivity.
Defined.

(** C1, as the claim has it, fails: with the speed of light for [c], the
    2 m shift of a satellite that approaches at 7 km/s would be a little
    over 3406 Hz; the program's is a little over 3404 Hz. *)
Lemma doppler_shift_not_by_light_speed :
  ~ doppler_shift_2m (- (7)) == claimed_shift (- (7)) 145900000 /\
  Qfloor (doppler_shift_2m (- (7))) = 3404%Z /\
  Qfloor (claimed_shift (- (7)) 145900000) = 3406%Z.
Proof.
  split; [intros H; vm_compute in H; discriminate|].
  split; vm_compute; reflexivity.
Qed.

(** ** The event list of [get_next_passes] *)

Lemma count_set_app (l1 l2 : list pass_event) :
  count_set (l1 ++ l2) = (count_set l1 + count_set l2)%nat.
Proof.
  induction l1 as [|e l1 IH]; simpl; [reflexivity|].
  destruct (is_set e); simpl; rewrite IH; reflexivity.
Qed.

(** What the loop of [get_next_passes] adds to the list it was started
    with. *)
Lemma events_loop_spec (N : Z) (zipped : list (Q * Z)) :
  forall (passes : Z) (acc l : list pass_event),
    events_loop N zipped passes acc = Ok l ->
    exists added,
      l = acc ++ added /\
      named_prefix zipped added /\
      (passes + Z.of_nat (count_set added) <= Z.max passes N)%Z /\
      (forall before after,
          added = before ++ after -> after <> [] ->
          (passes + Z.of_nat (count_set before) < N)%Z) /\
      (List.length added = List.length zipped \/
       (N <= passes + Z.of_nat (count_set added))%Z).
Proof.
  induction zipped as [|[ti event] rest IH]; intros passes acc l Hl; simpl in Hl.
  - inversion Hl; subst. exists []. rewrite app_nil_r.
    repeat split; [constructor | simpl; lia | | left; reflexivity].
    intros [|] after Heq Hne; [simpl in Heq; congruence | discriminate].
  - destruct (passes >=? N)%Z eqn:Hcap.
    + inversion Hl; subst. exists []. rewrite app_nil_r.
      repeat split; [constructor | simpl; lia | | right; simpl; lia].
      intros [|] after Heq Hne; [simpl in Heq; congruence | discriminate].
    + assert (Hlt : (passes < N)%Z) by lia.
      destruct (event_name_of event) as [event_name|e] eqn:Hname;
        simpl in Hl; [|discriminate].
      destruct (String.eqb event_name "set") eqn:Hset;
        apply IH in Hl as (added & -> & Hpre & Hcount & Hstop & Hend);
        exists ((ti, event_name) :: added);
        (split; [rewrite <- app_assoc; reflexivity|]);
        (split; [constructor; assumption|]);
        simpl; unfold is_set; simpl; rewrite Hset.
      * split; [lia|]. split.
        -- intros [|b before] after Heq Hne.
           ++ simpl. lia.
           ++ simpl in Heq. inversion Heq; subst b added.
              simpl. unfold is_set. simpl. rewrite Hset.
              specialize (Hstop before after eq_refl Hne). lia.
        -- destruct Hend as [Hend|Hend]; [left; lia | right; lia].
      * split; [lia|]. split.
        -- intros [|b before] after Heq Hne.
           ++ simpl. lia.
           ++ simpl in Heq. inversion Heq; subst b added.
              simpl. unfold is_set. simpl. rewrite Hset.
              specialize (Hstop before after eq_refl Hne). lia.
        -- destruct Hend as [Hend|Hend]; [left; lia | right; lia].
Qed.

Lemma event_name_of_raises (event : Z) (e : exn) :
  event_name_of event = Raise e -> e = IndexError.
Proof.
  unfold event_name_of, index. intros H.
  repeat match type of H with
         | (if ?b then _ else _) = _ => destruct b
         | match ?o with Some _ => _ | None => _ end = _ => destruct o
         end; congruence.
Qed.

Lemma events_loop_raises (N : Z) (zipped : list (Q * Z)) :
  forall (passes : Z) (acc : list pass_event) (e : exn),
    events_loop N zipped passes acc = Raise e -> e = IndexError.
Proof.
  induction zipped as [|[ti event] rest IH]; intros passes acc e H; simpl in H.
  - discriminate.
  - destruct (passes >=? N)%Z; [discriminate|].
    destruct (event_name_of event) as [event_name|e'] eqn:Hname; simpl in H.
    + destruct (String.eqb event_name "set"); eapply IH; eassumption.
    + inversion H; subst e'. eapply event_name_of_raises; eassumption.
Qed.

Section GetNextPasses.

Context {satellite : Type}.
Variable X : Extern satellite.
Variable self : MainApp satellite.

(** With the satellite resolved and the events found, the call is its
    loop. *)
Lemma get_next_passes_resolved (now : Q) (name : string) (N : Z)
  (sat : satellite) (times : list Q) (events : list Z) :
  lookup_satellite X self name = Ok sat ->
  find_events X sat now (now + 1) = Ok (times, events) ->
  forall l, get_next_passes X self now name N = Ok l <->
            events_loop N (combine times events) 0%Z [] = Ok l.
Proof.
  intros Hs Hf l. unfold get_next_passes. rewrite Hs. simpl. rewrite Hf. simpl.
  destruct (events_loop N (combine times events) 0%Z []) as [l'|e] eqn:Hloop;
    simpl; [tauto|].
  apply events_loop_raises in Hloop. subst e. simpl. split; discriminate.
Qed.

(** A returned list comes from the loop over the events of a resolved
    satellite, or is the empty list of the [except] branch. *)
Lemma get_next_passes_inv (now : Q) (name : string) (N : Z)
  (l : list pass_event) :
  get_next_passes X self now name N = Ok l ->
  (exists sat times events,
      lookup_satellite X self name = Ok sat /\
      find_events X sat now (now + 1) = Ok (times, events) /\
      events_loop N (combine times events) 0%Z [] = Ok l)
  \/ l = [].
Proof.
  unfold get_next_passes. intros H.
  destruct (lookup_satellite X self name) as [sat|e] eqn:Hs; simpl in H.
  - destruct (find_events X sat now (now + 1)) as [[times events]|e] eqn:Hf;
      simpl in H.
    + destruct (events_loop N (combine times events) 0%Z []) as [l'|e] eqn:Hloop;
        simpl in H.
      * left. exists sat, times, events. inversion H; subst. auto.
      * right. destruct e; simpl in H; congruence.
    + right. destruct e; simpl in H; congruence.
  - right. destruct e; simpl in H; congruence.
Qed.

End GetNextPasses.

(** C3. For every satellite and requested pass count [N >= 0], the returned
    event list holds at most [N] 'set' events, and no event follows the
    [N]-th 'set': whatever precedes a returned event holds fewer than [N]
    'set' events. *)
Theorem get_next_passes_caps_passes {satellite : Type} (X : Extern satellite)
  (self : MainApp satellite) (now : Q) (name : string) (N : Z)
  (l : list pass_event)
  (HN : (0 <= N)%Z)
  (Hl : get_next_passes X self now name N = Ok l) :
  (Z.of_nat (count_set l) <= N)%Z /\
  (forall before after,
      l = before ++ after -> after <> [] ->
      (Z.of_nat (count_set before) < N)%Z).
Proof.
  apply get_next_passes_inv in Hl as [(sat & times & events & _ & _ & Hloop)| ->].
  - apply events_loop_spec in Hloop as (added & -> & _ & Hcount & Hstop & _).
    simpl. split; [lia|].
    intros before after Heq Hne. specialize (Hstop before after Heq Hne). lia.
  - simpl. split; [lia|].
    intros [|b before] after Heq Hne; [simpl in Heq; congruence | discriminate].
Qed.

Lemma get_next_passes_caps_passes_witness :
  (0 <= 1)%Z /\
  get_next_passes Demo.extern Demo.app 0 "ISS" 1 = Ok Demo.first_pass /\
  (Z.of_nat (count_set Demo.first_pass) <= 1)%Z.
Proof.
  assert (H0 : (0 <= 1)%Z) by lia.
  assert (H1 : get_next_passes Demo.extern Demo.app 0 "ISS" 1
               = Ok Demo.first_pass) by (vm_compute; reflexivity).
  split; [exact H0|]. split; [exact H1|].
  exact (proj1 (get_next_passes_caps_passes Demo.extern Demo.app 0 "ISS" 1
                  Demo.first_pass H0 H1)).
Defined.

(** C4, as the code has it.  For a satellite that never crosses the horizon
    within the search window ([find_events] reports no event), the call
    returns the empty list and raises nothing.  The empty list is not kept
    for that case: a [ValueError] raised by the look-up of the satellite,
    or by the event search, is caught and answered with the same empty
    list. *)
Theorem get_next_passes_not_visible {satellite : Type} (X : Extern satellite)
  (self : MainApp satellite) (now : Q) (name : string) (N : Z) :
  (forall sat,
     lookup_satellite X self name = Ok sat ->
     find_events X sat now (now + 1) = Ok ([], []) ->
     get_next_passes X self now name N = Ok [] /\
     (forall e, get_next_passes X self now name N <> Raise e)) /\
  (lookup_satellite X self name = Raise ValueError ->
   get_next_passes X self now name N = Ok []) /\
  (forall sat,
     lookup_satellite X self name = Ok sat ->
     find_events X sat now (now + 1) = Raise ValueError ->
     get_next_passes X self now name N = Ok []).
Proof.
  split; [|split].
  - intros sat Hs Hf.
    assert (H : get_next_passes X self now name N = Ok []).
    { apply (get_next_passes_resolved X self now name N sat [] [] Hs Hf).
      reflexivity. }
    split; [exact H|]. intros e. rewrite H. discriminate.
  - intros Hs. unfold get_next_passes. rewrite Hs. reflexivity.
  - intros sat Hs Hf. unfold get_next_passes. rewrite Hs. cbn [bind].
    rewrite Hf. reflexivity.
Qed.

Lemma get_next_passes_not_visible_witness :
  lookup_satellite empty_sky Demo.app "ISS" = Ok O /\
  get_next_passes empty_sky Demo.app 0 "ISS" 3 = Ok [].
Proof.
  assert (Hs : lookup_satellite empty_sky Demo.app "ISS" = Ok O)
    by (vm_compute; reflexivity).
  split; [exact Hs|].
  exact (proj1 (proj1 (get_next_passes_not_visible empty_sky Demo.app 0
                         "ISS" 3) O Hs eq_refl)).
Defined.

(** C4, as the claim has it, fails: a satellite whose number [int] rejects
    is answered with the empty list of a satellite that is not visible. *)
Lemma not_visible_same_as_failure :
  lookup_satellite empty_sky Demo.app "ISS" = Ok O /\
  find_events empty_sky O 0 (0 + 1) = Ok ([], []) /\
  lookup_satellite empty_sky Demo.app "BAD" = Raise ValueError /\
  get_next_passes empty_sky Demo.app 0 "BAD" 3
  = get_next_passes empty_sky Demo.app 0 "ISS" 3.
Proof.
  repeat split; vm_compute; reflexivity.
Qed.

(** The times of a named prefix are a prefix of the reported times. *)
Lemma named_prefix_times (times : list Q) :
  forall (events : list Z) (l : list pass_event),
    named_prefix (combine times events) l ->
    exists rest, times = map fst l ++ rest.
Proof.
  induction times as [|t times IH]; intros events l H.
  - simpl in H. inversion H; subst. exists []. reflexivity.
  - destruct events as [|ev events]; simpl in H.
    + inversion H; subst. exists (t :: times). reflexivity.
    + inversion H; subst.
      * exists (t :: times). reflexivity.
      * match goal with Hp : named_prefix (combine times events) _ |- _ =>
          apply IH in Hp as [rest ->] end.
        exists rest. reflexivity.
Qed.

Lemma StronglySorted_app_l {A : Type} (R : A -> A -> Prop) (l1 l2 : list A) :
  StronglySorted R (l1 ++ l2) -> StronglySorted R l1.
Proof.
  induction l1 as [|a l1 IH]; simpl; intros H; [constructor|].
  inversion H as [|? ? Hs Hall]; subst. constructor; [apply IH; exact Hs|].
  apply Forall_app in Hall. tauto.
Qed.

(** C5. The events one call returns are in non-decreasing time order, the
    order in which skyfield's [find_events] reports its event times. *)
Theorem get_next_passes_time_ordered {satellite : Type} (X : Extern satellite)
  (self : MainApp satellite) (now : Q) (name : string) (N : Z)
  (l : list pass_event)
  (Hlib : forall sat t0 t1 times events,
      find_events X sat t0 t1 = Ok (times, events) -> Sorted Qle times)
  (Hl : get_next_passes X self now name N = Ok l) :
  StronglySorted Qle (map fst l).
Proof.
  apply get_next_passes_inv in Hl as [(sat & times & events & _ & Hf & Hloop)| ->].
  - apply events_loop_spec in Hloop as (added & -> & Hpre & _).
    simpl. apply named_prefix_times in Hpre as [rest Htimes].
    apply Hlib in Hf. apply Sorted_StronglySorted in Hf.
    + rewrite Htimes in Hf. eapply StronglySorted_app_l. exact Hf.
    + intros x y z. apply Qle_trans.
  - constructor.
Qed.

Lemma demo_find_events_ordered :
  forall sat t0 t1 times events,
    find_events Demo.extern sat t0 t1 = Ok (times, events) -> Sorted Qle times.
Proof.
  intros sat t0 t1 times events H. simpl in H. inversion H as [He]. clear H.
  destruct sat as [|sat]; simpl in He; inversion He; subst;
    repeat (constructor; try discriminate).
Qed.

Lemma get_next_passes_time_ordered_witness :
  get_next_passes Demo.extern Demo.app 0 "ISS" 1 = Ok Demo.first_pass /\
  StronglySorted Qle (map fst Demo.first_pass).
Proof.
  assert (H1 : get_next_passes Demo.extern Demo.app 0 "ISS" 1
               = Ok Demo.first_pass) by (vm_compute; reflexivity).
  split; [exact H1|].
  exact (get_next_passes_time_ordered Demo.extern Demo.app 0 "ISS" 1
           Demo.first_pass demo_find_events_ordered H1).
Defined.

(** Every event of a named prefix is one of the reported events. *)
Lemma named_prefix_In (zipped : list (Q * Z)) (l : list pass_event) :
  named_prefix zipped l ->
  forall ti event_name,
    In (ti, event_name) l ->
    exists event, In (ti, event) zipped /\ event_name_of event = Ok event_name.
Proof.
  induction 1 as [|ti0 event0 name0 zipped l Hname Hpre IH];
    intros ti event_name Hin; simpl in Hin; [contradiction|].
  destruct Hin as [Heq|Hin].
  - inversion Heq; subst. exists event0. split; [left; reflexivity|assumption].
  - destruct (IH _ _ Hin) as (event & Hz & Hn).
    exists event. split; [right; assumption|assumption].
Qed.

(** With at least one pass requested, a successful loop returns the first
    reported event first. *)
Lemma events_loop_head (N : Z) (ti : Q) (event : Z) (rest : list (Q * Z))
  (l : list pass_event) :
  (0 < N)%Z ->
  events_loop N ((ti, event) :: rest) 0%Z [] = Ok l ->
  exists event_name tl,
    event_name_of event = Ok event_name /\ l = (ti, event_name) :: tl.
Proof.
  intros HN Hl.
  pose proof (events_loop_spec N _ _ _ _ Hl)
    as (added & -> & Hpre & _ & _ & [Hlen|Hcap]).
  - inversion Hpre; subst; [discriminate|]. simpl. eauto.
  - inversion Hpre; subst; [simpl in Hcap; lia|]. simpl. eauto.
Qed.

(** C6. When the satellite is already up at the start of the window the
    event finder invents no rise: every returned event, a rise included, is
    an event [find_events] reported, and the list starts with the first
    reported event.  It is the caller, before plotting, that puts a rise at
    its own [now] in front of a list that does not start with a rise. *)
Theorem get_next_passes_no_synthetic_rise {satellite : Type}
  (X : Extern satellite) (self : MainApp satellite) (now : Q) (name : string)
  (N : Z) (sat : satellite) (times : list Q) (events : list Z)
  (l : list pass_event)
  (Hs : lookup_satellite X self name = Ok sat)
  (Hf : find_events X sat now (now + 1) = Ok (times, events))
  (Hl : get_next_passes X self now name N = Ok l) :
  named_prefix (combine times events) l /\
  (forall ti, In (ti, "rise"%string) l ->
     exists event, In (ti, event) (combine times events) /\
                   event_name_of event = Ok "rise"%string) /\
  (forall ti event rest,
     combine times events = (ti, event) :: rest -> (0 < N)%Z ->
     exists event_name tl,
       event_name_of event = Ok event_name /\ l = (ti, event_name) :: tl) /\
  (forall now' ti event_name tl,
     l = (ti, event_name) :: tl ->
     pass_list_to_draw now' l =
       Some (if String.eqb event_name "rise" then l
             else (now', "rise"%string) :: l)).
Proof.
  apply (get_next_passes_resolved X self now name N sat times events Hs Hf) in Hl.
  pose proof (events_loop_spec N _ _ _ _ Hl) as (added & Heq & Hpre & _).
  simpl in Heq. subst added.
  split; [exact Hpre|]. split; [|split].
  - intros ti Hin. eapply named_prefix_In; eassumption.
  - intros ti event rest Hz HN. rewrite Hz in Hl.
    eapply events_loop_head; eassumption.
  - intros now' ti event_name tl ->. simpl.
    destruct (String.eqb event_name "rise"); reflexivity.
Qed.

Lemma get_next_passes_no_synthetic_rise_witness :
  lookup_satellite Demo.extern Demo.app "AO-7" = Ok 1%nat /\
  get_next_passes Demo.extern Demo.app 0 "AO-7" 2 = Ok [(1 # 20, "set"%string)] /\
  pass_list_to_draw (1 # 1000) [(1 # 20, "set"%string)]
    = Some [(1 # 1000, "rise"%string); (1 # 20, "set"%string)].
Proof.
  assert (Hs : lookup_satellite Demo.extern Demo.app "AO-7" = Ok 1%nat)
    by (vm_compute; reflexivity).
  assert (Hl : get_next_passes Demo.extern Demo.app 0 "AO-7" 2
               = Ok [(1 # 20, "set"%string)]) by (vm_compute; reflexivity).
  split; [exact Hs|]. split; [exact Hl|].
  exact (proj2 (proj2 (proj2
    (get_next_passes_no_synthetic_rise Demo.extern Demo.app 0 "AO-7" 2 1%nat
       [1 # 20] [2%Z] [(1 # 20, "set"%string)] Hs eq_refl Hl)))
    (1 # 1000) (1 # 20) "set"%string [] eq_refl).
Defined.

(** ** The range rate of [get_alt_azimuth] *)

Lemma dot_unit_vector (n : Q) (velocity pos : vec) :
  ~ n == 0 -> dot velocity (unit_vector n pos) == dot velocity pos / n.
Proof.
  destruct velocity as [[v1 v2] v3], pos as [[p1 p2] p3].
  intros Hn. unfold unit_vector, scale, dot. field. exact Hn.
Qed.

Lemma unit_vector_length (n : Q) (pos : vec) :
  ~ n == 0 -> n * n == dot pos pos ->
  dot (unit_vector n pos) (unit_vector n pos) == 1.
Proof.
  intros Hn Hsq.
  assert (H : dot (unit_vector n pos) (unit_vector n pos)
              == dot pos pos / (n * n)).
  { destruct pos as [[p1 p2] p3]. unfold unit_vector, scale, dot.
    field. exact Hn. }
  rewrite H, <- Hsq. field. exact Hn.
Qed.

Lemma unit_vector_length_sq (n : Q) (pos : vec) :
  ~ n == 0 ->
  dot (unit_vector n pos) (unit_vector n pos) == dot pos pos / (n * n).
Proof.
  intros Hn. destruct pos as [[p1 p2] p3]. unfold unit_vector, scale, dot.
  field. exact Hn.
Qed.

(** The squared range along the motion: its first-order term is twice the
    dot product of relative velocity and relative position. *)
Lemma range_sq_moved (pos velocity : vec) (dt : Q) :
  range_sq (moved pos velocity dt) - range_sq pos
  == dt * (2 * dot velocity pos + dt * dot velocity velocity).
Proof.
  destruct velocity as [[v1 v2] v3], pos as [[p1 p2] p3].
  unfold range_sq, moved, add, scale, dot. ring.
Qed.

Lemma dot_self_nonneg (v : vec) : 0 <= dot v v.
Proof.
  destruct v as [[v1 v2] v3]. unfold dot. nra.
Qed.

(** C7. For every observation at a position of positive norm, the range
    rate [get_alt_azimuth] returns is the dot product of the relative
    velocity with the relative position divided by the norm of the relative
    position, that is the projection of the velocity onto the vector
    [pos / norm(pos)] from the observer to the satellite; the squared
    length of that vector is [|pos|^2 / norm(pos)^2], which is 1 where the
    norm is the exact length.  The range rate is positive exactly when the
    range grows to first order (the satellite recedes: it is farther after
    any time [dt > 0] at that velocity) and negative exactly when it
    shrinks (the satellite approaches: it is nearer after any short enough
    time). *)
Theorem get_alt_azimuth_range_rate {satellite : Type} (X : Extern satellite)
  (self : MainApp satellite) (calc_time : Q) (name : string)
  (sat : satellite) (topocentric : Topocentric)
  (Hs : lookup_satellite X self name = Ok sat)
  (Ht : topocentric_at X sat calc_time = Ok topocentric)
  (Hpos : 0 < norm X (position_km topocentric)) :
  let pos := position_km topocentric in
  let velocity := velocity_km_per_s topocentric in
  let unit := unit_vector (norm X pos) pos in
  exists d,
    get_alt_azimuth X self calc_time name
      = Ok (altaz_alt topocentric, altaz_az topocentric, d) /\
    d = slant_velocity X velocity pos /\
    d == dot velocity pos / norm X pos /\
    d == dot velocity unit /\
    dot unit unit == dot pos pos / (norm X pos * norm X pos) /\
    (norm X pos * norm X pos == dot pos pos -> dot unit unit == 1) /\
    (0 < d <-> 0 < dot velocity pos) /\
    (d < 0 <-> dot velocity pos < 0) /\
    (forall dt, range_sq (moved pos velocity dt) - range_sq pos
                == dt * (2 * (norm X pos * d) + dt * dot velocity velocity)) /\
    (0 < d -> forall dt, 0 < dt ->
       range_sq pos < range_sq (moved pos velocity dt)) /\
    (d < 0 -> forall dt, 0 < dt ->
       dt * dot velocity velocity < 2 * (norm X pos * - d) ->
       range_sq (moved pos velocity dt) < range_sq pos).
Proof.
  intros pos velocity unit.
  exists (slant_velocity X velocity pos).
  assert (Hn : ~ norm X pos == 0) by (subst pos; intros H0; lra).
  assert (Hd : norm X pos * slant_velocity X velocity pos == dot velocity pos).
  { unfold slant_velocity. field. exact Hn. }
  assert (Hexp : forall dt, range_sq (moved pos velocity dt) - range_sq pos
            == dt * (2 * (norm X pos * slant_velocity X velocity pos)
                     + dt * dot velocity velocity)).
  { intros dt. rewrite Hd. apply range_sq_moved. }
  pose proof (dot_self_nonneg velocity) as Hvv.
  fold pos in Hpos.
  split; [unfold get_alt_azimuth; rewrite Hs; simpl; rewrite Ht; reflexivity|].
  split; [reflexivity|].
  split; [reflexivity|].
  split; [unfold unit; rewrite dot_unit_vector by exact Hn; reflexivity|].
  split; [apply unit_vector_length_sq; exact Hn|].
  split; [intros Hnorm; apply unit_vector_length; assumption|].
  clear unit Hs Ht.
  generalize dependent (slant_velocity X velocity pos).
  generalize dependent (dot velocity pos).
  generalize dependent (dot velocity velocity).
  generalize dependent (norm X pos).
  intros n Hpos Hn vv Hvv vp d Hd Hexp.
  split; [split; intros; nra|].
  split; [split; intros; nra|].
  split; [exact Hexp|].
  split.
  - intros Hpos_d dt Hdt. specialize (Hexp dt).
    assert (0 < dt * (2 * (n * d) + dt * vv)); [|lra].
    apply Qmult_lt_0_compat; [exact Hdt|]. nra.
  - intros Hneg dt Hdt Hshort. specialize (Hexp dt).
    assert (0 < dt * (2 * (n * - d) - dt * vv)).
    { apply Qmult_lt_0_compat; [exact Hdt|]. lra. }
    nra.
Qed.

(** At the position (1, 1, 0), whose length is no rational, a satellite
    that moves along the first axis recedes: its range rate is above
    zero. *)
Lemma get_alt_azimuth_range_rate_witness :
  0 < norm diagonal (1, 1, 0) /\
  exists d,
    get_alt_azimuth diagonal Demo.app 0 "ISS"
      = Ok (altaz_alt (Demo.observed O 0), altaz_az (Demo.observed O 0), d) /\
    0 < d.
Proof.
  assert (Hs : lookup_satellite diagonal Demo.app "ISS" = Ok O)
    by (vm_compute; reflexivity).
  assert (Hpos : 0 < norm diagonal (1, 1, 0)) by reflexivity.
  split; [exact Hpos|].
  destruct (get_alt_azimuth_range_rate diagonal Demo.app 0 "ISS" O
              _ Hs eq_refl Hpos)
    as (d & Hget & _ & _ & _ & _ & _ & Hsign & _).
  exists d. split; [exact Hget|]. apply Hsign. reflexivity.
Defined.

(** ** The sampling of [create_pass_line] *)

Lemma sample_time_S {satellite : Type} (X : Extern satellite)
  (interval : Q) (k : nat) :
  forall t, sample_time X interval t (S k)
            = next_time X interval (sample_time X interval t k).
Proof.
  induction k as [|k IH]; intros t; [reflexivity|].
  change (sample_time X interval t (S (S k)))
    with (sample_time X interval (next_time X interval t) (S k)).
  rewrite IH. reflexivity.
Qed.

(** The stepped times that reach the set time reach it at a first index. *)
Lemma first_reach {satellite : Type} (X : Extern satellite)
  (interval setting_tt : Q) (n : nat) :
  forall t,
    setting_tt <= sample_time X interval t n ->
    exists m,
      (forall k, (k < m)%nat -> sample_time X interval t k < setting_tt) /\
      setting_tt <= sample_time X interval t m.
Proof.
  induction n as [|n IH]; intros t Hn.
  - exists O. split; [intros k Hk; lia|exact Hn].
  - destruct (Qlt_le_dec t setting_tt) as [Hlt|Hge].
    + destruct (IH (next_time X interval t) Hn) as (m & Hbefore & Hreach).
      exists (S m). split; [|exact Hreach].
      intros [|k] Hk; [exact Hlt|]. apply Hbefore. lia.
    + exists O. split; [intros k Hk; lia|exact Hge].
Qed.

(** Under an arithmetic that rounds nothing the stepped times are
    [t + k * interval / 86400], and a positive interval reaches every set
    time. *)
Section ExactArithmetic.

Context {satellite : Type}.
Variable X : Extern satellite.
Hypothesis Hexact : exact_arithmetic X.

Lemma next_time_exact (interval t : Q) :
  next_time X interval t = t + 1 / 86400 * interval.
Proof.
  destruct Hexact as (Hadd & Hmul & Hdiv).
  unfold next_time, JULIAN_SEC. rewrite Hadd, Hmul, Hdiv. reflexivity.
Qed.

Lemma sample_time_closed (interval : Q) (k : nat) :
  forall t, sample_time X interval t k
            == t + inject_Z (Z.of_nat k) * (1 / 86400 * interval).
Proof.
  induction k as [|k IH]; intros t.
  - simpl. ring.
  - cbn [sample_time]. rewrite IH, next_time_exact.
    rewrite Nat2Z.inj_succ. unfold Z.succ. rewrite inject_Z_plus. ring.
Qed.

Lemma step_pos (interval : Q) : 0 < interval -> 0 < 1 / 86400 * interval.
Proof.
  intros H. apply Qmult_lt_0_compat; [reflexivity|exact H].
Qed.

Lemma sample_count_pos (rise_tt setting_tt interval : Q) :
  rise_tt < setting_tt -> 0 < interval ->
  (1 <= sample_count rise_tt setting_tt interval)%nat.
Proof.
  intros Hwin Hstep. unfold sample_count.
  pose proof (step_pos interval Hstep) as Hs.
  set (x := (setting_tt - rise_tt) / (1 / 86400 * interval)).
  assert (Hx : 0 < x).
  { unfold x. apply Qlt_shift_div_l; [exact Hs|]. lra. }
  pose proof (Qle_ceiling x) as Hc.
  assert (Hz : (0 < Qceiling x)%Z).
  { rewrite Zlt_Qlt. change (0 < inject_Z (Qceiling x)). lra. }
  lia.
Qed.

Lemma sample_count_before (rise_tt setting_tt interval : Q) (k : nat) :
  0 < interval ->
  (k < sample_count rise_tt setting_tt interval)%nat ->
  sample_time X interval rise_tt k < setting_tt.
Proof.
  intros Hstep Hk. unfold sample_count in Hk.
  pose proof (step_pos interval Hstep) as Hs.
  set (step := 1 / 86400 * interval) in *.
  set (x := (setting_tt - rise_tt) / step) in *.
  assert (Hxs : x * step == setting_tt - rise_tt).
  { unfold x. field. intros H0. lra. }
  pose proof (Qceiling_lt x) as Hc.
  assert (Hkz : (Z.of_nat k <= Qceiling x - 1)%Z) by lia.
  rewrite Zle_Qle in Hkz.
  assert (Hkx : inject_Z (Z.of_nat k) < x) by lra.
  rewrite sample_time_closed. fold step.
  assert (inject_Z (Z.of_nat k) * step < x * step).
  { apply Qmult_lt_compat_r; assumption. }
  lra.
Qed.

Lemma sample_count_reaches (rise_tt setting_tt interval : Q) :
  rise_tt < setting_tt -> 0 < interval ->
  setting_tt
  <= sample_time X interval rise_tt (sample_count rise_tt setting_tt interval).
Proof.
  intros Hwin Hstep.
  pose proof (sample_count_pos rise_tt setting_tt interval Hwin Hstep) as Hn.
  unfold sample_count in *.
  pose proof (step_pos interval Hstep) as Hs.
  set (step := 1 / 86400 * interval) in *.
  set (x := (setting_tt - rise_tt) / step) in *.
  assert (Hxs : x * step == setting_tt - rise_tt).
  { unfold x. field. intros H0. lra. }
  pose proof (Qle_ceiling x) as Hc.
  rewrite sample_time_closed. fold step.
  rewrite Z2Nat.id by lia.
  assert (x * step <= inject_Z (Qceiling x) * step).
  { apply Qmult_le_compat_r; lra. }
  lra.
Qed.

Lemma exact_reaches (interval rise_tt setting_tt : Q) :
  0 < interval -> reaches X interval rise_tt setting_tt.
Proof.
  intros Hstep. destruct (Qlt_le_dec rise_tt setting_tt) as [Hlt|Hge].
  - exists (sample_count rise_tt setting_tt interval).
    apply sample_count_reaches; assumption.
  - exists O. exact Hge.
Qed.

End ExactArithmetic.

Lemma demo_exact_arithmetic : exact_arithmetic Demo.extern.
Proof. repeat split. Qed.

Lemma set_last_text_length (l : list point) (s : string) :
  List.length (set_last_text l s) = List.length l.
Proof.
  induction l as [|p [|q l] IH]; simpl in *; [reflexivity|reflexivity|].
  rewrite IH. reflexivity.
Qed.

Lemma set_last_text_nth (l : list point) (s : string) :
  forall k p,
    nth_error l k = Some p ->
    exists p',
      nth_error (set_last_text l s) k = Some p' /\
      pt_r p' = pt_r p /\ pt_theta p' = pt_theta p /\
      pt_colour p' = pt_colour p /\ pt_size p' = pt_size p.
Proof.
  induction l as [|q l IH]; intros k p Hk.
  - destruct k; discriminate.
  - destruct l as [|q' l].
    + destruct k as [|k]; simpl in Hk.
      * inversion Hk; subst. simpl. eexists. split; [reflexivity|]. simpl. auto.
      * destruct k; discriminate.
    + destruct k as [|k]; simpl in Hk.
      * inversion Hk; subst. exists p. simpl. auto.
      * destruct (IH k p Hk) as (p' & Hn & Hrest).
        exists p'. split; [exact Hn|exact Hrest].
Qed.

Section PassLine.

Context {satellite : Type}.
Variable X : Extern satellite.
Variable self : MainApp satellite.
Variables (sat : string) (setting_tt interval : Q).
Variables (colour : string) (text_every_point : Z).
Variable obs : Q -> Angle * Angle * Q.
Hypothesis Hobs : forall t, get_alt_azimuth X self t sat = Ok (obs t).

Lemma points_from_length (m : nat) :
  forall t pn,
    List.length (points_from X colour text_every_point interval obs t pn m) = m.
Proof.
  induction m as [|m IH]; intros t pn; simpl; [reflexivity|].
  rewrite IH. reflexivity.
Qed.

Lemma points_from_nth (m : nat) :
  forall t pn k,
    (k < m)%nat ->
    nth_error (points_from X colour text_every_point interval obs t pn m) k
    = Some (sample_point X colour text_every_point
              (obs (sample_time X interval t k))
              (pn + Z.of_nat k)%Z (sample_time X interval t k)).
Proof.
  induction m as [|m IH]; intros t pn k Hk; [lia|].
  destruct k as [|k].
  - simpl. rewrite Z.add_0_r. reflexivity.
  - cbn [points_from nth_error sample_time]. rewrite IH by lia.
    replace (pn + 1 + Z.of_nat k)%Z with (pn + Z.of_nat (S k))%Z by lia.
    reflexivity.
Qed.

(** The loop, run from [calc_time = t] where [m] samples lie before the set
    time, appends exactly those and stops, given [m + 1] tests. *)
Lemma pass_line_loop_run (m : nat) :
  forall (fuel : nat) (acc : list point) (pn : Z) (t : Q) (calendar : option Q),
    (forall j, (j < m)%nat -> sample_time X interval t j < setting_tt) ->
    setting_tt <= sample_time X interval t m ->
    (m < fuel)%nat ->
    pass_line_loop X self fuel sat setting_tt interval colour text_every_point
      acc pn t calendar
    = Some (Ok (acc ++ points_from X colour text_every_point interval obs t pn m,
                last_calendar X interval calendar t m)).
Proof.
  induction m as [|m IH]; intros fuel acc pn t calendar Hbefore Hreach Hfuel;
    (destruct fuel as [|fuel]; [lia|]); cbn [pass_line_loop].
  - simpl in Hreach.
    assert (Hc : lt t setting_tt = false).
    { unfold lt. apply negb_false_iff. apply Qle_bool_iff. exact Hreach. }
    rewrite Hc. simpl. rewrite app_nil_r. reflexivity.
  - assert (Hc : lt t setting_tt = true).
    { unfold lt. apply negb_true_iff.
      destruct (Qle_bool setting_tt t) eqn:Hle; [|reflexivity].
      apply Qle_bool_iff in Hle. specialize (Hbefore O ltac:(lia)).
      simpl in Hbefore. lra. }
    rewrite Hc, Hobs.
    destruct (obs t) as [[alt az] velocity] eqn:Ho.
    fold (next_time X interval t). rewrite IH.
    + rewrite <- app_assoc. cbn [points_from app]. rewrite Ho.
      unfold sample_point. cbn [fst snd].
      destruct m; reflexivity.
    + intros j Hj. apply (Hbefore (S j)). lia.
    + exact Hreach.
    + lia.
Qed.

(** The loop whose stepped times all lie before the set time makes one
    round more for every test it is given. *)
Lemma pass_line_loop_goes_on (fuel : nat) :
  forall (acc : list point) (pn : Z) (t : Q) (calendar : option Q),
    (forall k, sample_time X interval t k < setting_tt) ->
    pass_line_loop X self fuel sat setting_tt interval colour text_every_point
      acc pn t calendar = None.
Proof.
  induction fuel as [|fuel IH]; intros acc pn t calendar Hall; [reflexivity|].
  cbn [pass_line_loop].
  assert (Hc : lt t setting_tt = true).
  { unfold lt. apply negb_true_iff.
    destruct (Qle_bool setting_tt t) eqn:Hle; [|reflexivity].
    apply Qle_bool_iff in Hle. specialize (Hall O). simpl in Hall. lra. }
  rewrite Hc, Hobs. destruct (obs t) as [[alt az] velocity].
  fold (next_time X interval t). apply IH.
  intros k. apply (Hall (S k)).
Qed.

End PassLine.

(** C2, as the code has it.  The loop samples at the times
    [t_0 = rise], [t_(k+1) = t_k + JULIAN_SEC * interval], the sum and the
    product as the float arithmetic of the program gives them, for as long
    as [t_k] lies before the set time.  For a rise time strictly before the
    set time and observations that raise nothing: when the stepped times
    reach the set time, at a first index [n], the call (given enough fuel)
    returns exactly [n >= 1] points, point [k] the observation at [t_k], a
    time strictly before the set time; the observation at the set time is
    no point of the line.  When the stepped times never reach the set time
    (a step that rounding swallows), the call returns for no fuel. *)
Theorem create_pass_line_samples {satellite : Type} (X : Extern satellite)
  (self : MainApp satellite) (sat : string) (rise_tt setting_tt interval : Q)
  (colour : string) (text_every_point : Z) (obs : Q -> Angle * Angle * Q)
  (Hobs : forall t, get_alt_azimuth X self t sat = Ok (obs t))
  (Hwin : rise_tt < setting_tt) :
  (forall n,
     (forall k, (k < n)%nat -> sample_time X interval rise_tt k < setting_tt) ->
     setting_tt <= sample_time X interval rise_tt n ->
     (1 <= n)%nat /\
     exists pass_line,
       (forall fuel, (n < fuel)%nat ->
          create_pass_line X self fuel sat rise_tt setting_tt interval colour
            text_every_point = Some (Ok pass_line)) /\
       List.length pass_line = n /\
       (forall k, (k < n)%nat ->
          exists p,
            nth_error pass_line k = Some p /\
            pt_r p
            = degrees (fst (fst (obs (sample_time X interval rise_tt k)))) /\
            pt_theta p
            = radians (snd (fst (obs (sample_time X interval rise_tt k)))) /\
            pt_colour p = colour /\ pt_size p = 4%Z /\
            sample_time X interval rise_tt k < setting_tt)) /\
  ((forall k, sample_time X interval rise_tt k < setting_tt) ->
   forall fuel,
     create_pass_line X self fuel sat rise_tt setting_tt interval colour
       text_every_point = None).
Proof.
  split.
  2:{ intros Hall fuel. unfold create_pass_line.
      rewrite (pass_line_loop_goes_on X self sat setting_tt interval colour
                 text_every_point obs Hobs fuel [] 0%Z rise_tt None Hall).
      reflexivity. }
  intros n Hbefore Hreach.
  assert (Hn : (1 <= n)%nat).
  { destruct n as [|n]; [|lia]. simpl in Hreach. lra. }
  split; [exact Hn|].
  set (pts := points_from X colour text_every_point interval obs rise_tt 0%Z n).
  assert (Hnth : forall k, (k < n)%nat ->
            exists p,
              nth_error pts k = Some p /\
              pt_r p
              = degrees (fst (fst (obs (sample_time X interval rise_tt k)))) /\
              pt_theta p
              = radians (snd (fst (obs (sample_time X interval rise_tt k)))) /\
              pt_colour p = colour /\ pt_size p = 4%Z /\
              sample_time X interval rise_tt k < setting_tt).
  { intros k Hk. eexists. split.
    - unfold pts. apply points_from_nth. exact Hk.
    - simpl. repeat split. apply Hbefore, Hk. }
  assert (Hlen : List.length pts = n) by apply points_from_length.
  assert (Hrun : forall fuel, (n < fuel)%nat ->
            pass_line_loop X self fuel sat setting_tt interval colour
              text_every_point [] 0%Z rise_tt None
            = Some (Ok (pts, last_calendar X interval None rise_tt n))).
  { intros fuel Hfuel.
    rewrite (pass_line_loop_run X self sat setting_tt interval colour
               text_every_point obs Hobs n fuel [] 0%Z rise_tt None
               Hbefore Hreach Hfuel).
    reflexivity. }
  destruct n as [|n']; [lia|].
  destruct (text_every_point =? 0)%Z eqn:Htext.
  - exists pts. split.
    { intros fuel Hfuel. unfold create_pass_line. rewrite (Hrun fuel Hfuel).
      rewrite Htext. reflexivity. }
    split; [exact Hlen|exact Hnth].
  - exists (set_last_text pts
              (calendar_text X (sample_time X interval rise_tt n'))).
    split.
    { intros fuel Hfuel. unfold create_pass_line. rewrite (Hrun fuel Hfuel).
      cbn [last_calendar]. destruct pts; [discriminate Hlen|].
      rewrite Htext. reflexivity. }
    split; [rewrite set_last_text_length; exact Hlen|].
    intros k Hk. destruct (Hnth k Hk) as (p & Hp & Hr & Hth & Hc & Hs & Ht).
    destruct (set_last_text_nth pts
                (calendar_text X (sample_time X interval rise_tt n')) k p Hp)
      as (p' & Hp' & Hr' & Hth' & Hc' & Hs').
    exists p'. split; [exact Hp'|]. repeat split; congruence || exact Ht.
Qed.

Lemma demo_get_alt_azimuth (t : Q) :
  get_alt_azimuth Demo.extern Demo.app t "ISS" = Ok (demo_obs t).
Proof. vm_compute. reflexivity. Qed.

Lemma binary64_get_alt_azimuth (t : Q) :
  get_alt_azimuth binary64 Demo.app t "ISS" = Ok (demo_obs t).
Proof. vm_compute. reflexivity. Qed.

(** In binary64 a pass from 0 to 90 s sampled every 30 s has four points:
    three steps of [JULIAN_SEC * 30] end just below [90 / 86400]. *)
Lemma create_pass_line_samples_witness :
  0 < after_90_s /\
  sample_time binary64 30 0 3 < after_90_s /\
  exists pass_line,
    create_pass_line binary64 Demo.app 5 "ISS" 0 after_90_s 30 "red" 4
      = Some (Ok pass_line) /\
    List.length pass_line = 4%nat.
Proof.
  assert (Hwin : 0 < after_90_s) by (vm_compute; reflexivity).
  assert (Hbefore : forall k, (k < 4)%nat ->
                              sample_time binary64 30 0 k < after_90_s).
  { intros k Hk.
    destruct k as [|[|[|[|k]]]]; [vm_compute; reflexivity ..|lia]. }
  assert (Hreach : after_90_s <= sample_time binary64 30 0 4)
    by (vm_compute; discriminate).
  split; [exact Hwin|]. split; [apply Hbefore; lia|].
  destruct (proj1 (create_pass_line_samples binary64 Demo.app "ISS" 0
                     after_90_s 30 "red" 4 demo_obs binary64_get_alt_azimuth
                     Hwin) 4%nat Hbefore Hreach)
    as (_ & pass_line & Hrun & Hlen & _).
  exists pass_line. split; [apply Hrun; lia|exact Hlen].
Defined.

(** The same pass has three points under an arithmetic that rounds nothing:
    the number of points is decided by the rounding. *)
Remark rounding_decides_sample_count :
  exists exact rounded,
    create_pass_line Demo.extern Demo.app 5 "ISS" 0 (90 # 86400) 30 "red" 4
      = Some (Ok exact) /\
    create_pass_line binary64 Demo.app 5 "ISS" 0 after_90_s 30 "red" 4
      = Some (Ok rounded) /\
    (90 # 86400) - (1 # 10 ^ 18) < after_90_s /\
    after_90_s < (90 # 86400) + (1 # 10 ^ 18) /\
    List.length exact = 3%nat /\ List.length rounded = 4%nat.
Proof.
  do 2 eexists. split; [vm_compute; reflexivity|].
  split; [vm_compute; reflexivity|].
  split; [vm_compute; reflexivity|].
  split; [vm_compute; reflexivity|]. split; reflexivity.
Qed.

(** Half a day after Julian date 2460000 a step of [2^-17] s is lost in
    binary64: the loop samples the same instant again and again. *)
Remark lost_step_never_returns :
  next_time binary64 (1 # 131072) noon_2460000 == noon_2460000 /\
  forall fuel,
    create_pass_line binary64 Demo.app fuel "ISS" noon_2460000
      (noon_2460000 + 1) (1 # 131072) "red" 4 = None.
Proof.
  set (t1 := next_time binary64 (1 # 131072) noon_2460000).
  assert (Hsame : t1 == noon_2460000) by (vm_compute; reflexivity).
  assert (Hnext : next_time binary64 (1 # 131072) t1 = t1)
    by (vm_compute; reflexivity).
  split; [exact Hsame|].
  assert (Hstay : forall k, sample_time binary64 (1 # 131072) t1 k = t1).
  { induction k as [|k IH]; [reflexivity|].
    rewrite sample_time_S, IH. exact Hnext. }
  intros fuel. unfold create_pass_line.
  rewrite (pass_line_loop_goes_on binary64 Demo.app "ISS" (noon_2460000 + 1)
             (1 # 131072) "red" 4 demo_obs binary64_get_alt_azimuth fuel
             [] 0%Z noon_2460000 None); [reflexivity|].
  intros [|k]; [reflexivity|].
  change (sample_time binary64 (1 # 131072) noon_2460000 (S k))
    with (sample_time binary64 (1 # 131072) t1 k).
  rewrite Hstay, Hsame. reflexivity.
Qed.

(** C2, as the claim has it, fails.  A pass from [0] to 100 s sampled every
    30 s gives the four points of 0 s, 30 s, 60 s and 90 s, each observed
    strictly before the set time: no point of the line is the observation
    at the set time (the demo altitude at time [t] is [10 + t] degrees). *)
Lemma create_pass_line_omits_set_time :
  exists pass_line,
    create_pass_line Demo.extern Demo.app 10 "ISS" 0 (100 # 86400) 30 "red" 4
      = Some (Ok pass_line) /\
    List.length pass_line = 4%nat /\
    Forall (fun p => pt_r p
                     < degrees (altaz_alt (Demo.observed O (100 # 86400))))
      pass_line /\
    ~ (exists p, In p pass_line /\
                 pt_r p == degrees (altaz_alt (Demo.observed O (100 # 86400)))).
Proof.
  eexists. split; [vm_compute; reflexivity|].
  split; [reflexivity|].
  assert (HF : forall l : list point,
             Forall (fun p => pt_r p
                     < degrees (altaz_alt (Demo.observed O (100 # 86400)))) l ->
             ~ (exists p, In p l /\
                  pt_r p == degrees (altaz_alt (Demo.observed O (100 # 86400))))).
  { intros l Hall (p & Hin & Heq).
    rewrite List.Forall_forall in Hall. specialize (Hall p Hin). lra. }
  match goal with |- Forall ?P ?l /\ _ =>
    assert (Hall : Forall P l)
      by (repeat constructor)
  end.
  split; [exact Hall|]. apply HF. exact Hall.
Qed.

(** ** The order of [transit_list_sorted_by_time] *)

Lemma string_ltb_false_leb (a b : string) :
  String.ltb b a = false -> String.leb a b = true.
Proof.
  unfold String.ltb, String.leb. rewrite (String.compare_antisym b a).
  destruct (String.compare a b); simpl; congruence.
Qed.

Lemma string_ltb_asym (a b : string) :
  String.ltb a b = true -> String.ltb b a = false.
Proof.
  unfold String.ltb. rewrite (String.compare_antisym a b).
  destruct (String.compare b a); simpl; congruence.
Qed.

Ltac by_cases_on_keys :=
  repeat match goal with
  | |- context [eq ?x ?y] =>
      let H := fresh "He" in
      destruct (eq x y) eqn:H;
      [apply eq_true_iff in H | apply eq_false_iff in H]; cbn [negb]
  | H : context [eq ?x ?y] |- _ =>
      let H' := fresh "He" in
      destruct (eq x y) eqn:H';
      [apply eq_true_iff in H' | apply eq_false_iff in H']; cbn [negb] in H
  end.

(** [not (b < a)] is [a <= b] in the order of the sort. *)
Lemma transit_lt_false (a b : transit) :
  transit_lt b a = false -> transit_le a b.
Proof.
  destruct a as [[[a0 a1] a2] a3], b as [[[b0 b1] b2] b3].
  unfold transit_lt, transit_le. intros H. by_cases_on_keys.
  - right. split; [lra|]. right. split; [lra|]. right. split; [lra|].
    apply string_ltb_false_leb. exact H.
  - apply lt_false_iff in H. right. split; [lra|]. right. split; [lra|].
    left. destruct (Qlt_le_dec a2 b2); [assumption|]. exfalso.
    apply He1. lra.
  - apply lt_false_iff in H. right. split; [lra|]. left.
    destruct (Qlt_le_dec a1 b1); [assumption|]. exfalso. apply He0. lra.
  - apply lt_false_iff in H. left.
    destruct (Qlt_le_dec a0 b0); [assumption|]. exfalso. apply He. lra.
Qed.

Lemma transit_lt_asym (a b : transit) :
  transit_lt a b = true -> transit_lt b a = false.
Proof.
  destruct a as [[[a0 a1] a2] a3], b as [[[b0 b1] b2] b3].
  unfold transit_lt. intros H. by_cases_on_keys;
    try (apply lt_true_iff in H); try (apply lt_false_iff);
    try lra;
    try (exfalso; match goal with Hn : ~ _ == _ |- _ => apply Hn; lra end).
  apply string_ltb_asym. exact H.
Qed.

Lemma transit_le_rise (a b : transit) :
  transit_le a b -> rise_of a <= rise_of b.
Proof.
  destruct a as [[[a0 a1] a2] a3], b as [[[b0 b1] b2] b3].
  unfold transit_le, rise_of. simpl. intros [H|[H _]]; lra.
Qed.

Lemma sort_insert_Permutation (x : transit) (l : list transit) :
  Permutation (x :: l) (sort_insert x l).
Proof.
  induction l as [|y l IH]; simpl; [apply Permutation_refl|].
  destruct (transit_lt y x).
  - eapply perm_trans; [apply perm_swap|]. apply perm_skip. exact IH.
  - apply Permutation_refl.
Qed.

Lemma list_sort_Permutation (l : list transit) :
  Permutation l (list_sort l).
Proof.
  induction l as [|x l IH]; simpl; [apply perm_nil|].
  eapply perm_trans; [apply perm_skip; exact IH|].
  apply sort_insert_Permutation.
Qed.

Lemma sort_insert_Sorted (x : transit) (l : list transit) :
  Sorted transit_le l -> Sorted transit_le (sort_insert x l).
Proof.
  induction l as [|y l IH]; simpl; intros Hs.
  - repeat constructor.
  - destruct (transit_lt y x) eqn:Hyx.
    + inversion Hs as [|? ? Hs' Hhd]; subst.
      constructor; [apply IH; exact Hs'|].
      destruct l as [|z l]; simpl.
      * constructor. apply transit_lt_false. apply transit_lt_asym. exact Hyx.
      * destruct (transit_lt z x).
        -- inversion Hhd; subst. constructor. assumption.
        -- constructor. apply transit_lt_false. apply transit_lt_asym.
           exact Hyx.
    + constructor; [exact Hs|]. constructor. apply transit_lt_false. exact Hyx.
Qed.

Lemma list_sort_Sorted (l : list transit) : Sorted transit_le (list_sort l).
Proof.
  induction l as [|x l IH]; simpl; [constructor|].
  apply sort_insert_Sorted. exact IH.
Qed.

Lemma Sorted_rise (l : list transit) :
  Sorted transit_le l ->
  StronglySorted (fun a b => rise_of a <= rise_of b) l.
Proof.
  intros Hs. apply Sorted_StronglySorted.
  - intros a b c Hab Hbc. eapply Qle_trans; eassumption.
  - induction Hs as [|a l Hs IH Hhd]; constructor; [exact IH|].
    destruct Hhd; constructor. apply transit_le_rise. assumption.
Qed.

(** C8, as the code has it.  The list one refresh returns is the collected
    entries rearranged, adjacent entries in the order of the sort: rise times
    do not decrease, and entries of equal rise time are in the order of
    their transit times, then of their set times, and only then of their
    satellite names. *)
Theorem transit_list_sorted_lexicographically {satellite : Type}
  (X : Extern satellite) (self : MainApp satellite) (now : Q) (N : Z)
  (filtered : list sat_data) (l : list transit)
  (Hl : transit_list_sorted_by_time X self now N filtered = Ok l) :
  exists collected,
    transit_list_loop X self now N filtered [] = Ok collected /\
    Permutation collected l /\
    Sorted transit_le l /\
    StronglySorted (fun a b => rise_of a <= rise_of b) l.
Proof.
  unfold transit_list_sorted_by_time in Hl.
  destruct (transit_list_loop X self now N filtered []) as [collected|e];
    simpl in Hl; [|discriminate].
  inversion Hl; subst l. exists collected.
  split; [reflexivity|]. split; [apply list_sort_Permutation|].
  split; [apply list_sort_Sorted|]. apply Sorted_rise. apply list_sort_Sorted.
Qed.

Lemma transit_list_sorted_lexicographically_witness :
  transit_list_sorted_by_time same_rise Demo.app 0 1 [Demo.ao7; Demo.iss]
    = Ok same_rise_sorted /\
  Sorted transit_le same_rise_sorted.
Proof.
  assert (Hl : transit_list_sorted_by_time same_rise Demo.app 0 1
                 [Demo.ao7; Demo.iss] = Ok same_rise_sorted)
    by (vm_compute; reflexivity).
  split; [exact Hl|].
  destruct (transit_list_sorted_lexicographically same_rise Demo.app 0 1
              [Demo.ao7; Demo.iss] same_rise_sorted Hl)
    as (collected & _ & _ & Hsorted & _).
  exact Hsorted.
Defined.

(** C8, as the claim has it, fails.  ISS and AO-7 rise at the same instant;
    the name AO-7 sorts before ISS, yet the entry of ISS comes first, its
    transit time being the earlier: the returned list is not in the order
    "rise time, ties by satellite name". *)
Lemma transit_list_tie_not_by_identifier :
  transit_list_sorted_by_time same_rise Demo.app 0 1 [Demo.ao7; Demo.iss]
    = Ok same_rise_sorted /\
  String.ltb "AO-7" "ISS" = true /\
  ~ Sorted by_rise_then_identifier same_rise_sorted.
Proof.
  split; [vm_compute; reflexivity|]. split; [reflexivity|].
  intros Hs. inversion Hs as [|? ? _ Hhd]; subst.
  inversion Hhd as [|? ? Hab]; subst.
  destruct Hab as [Hlt|[_ Hleb]].
  - vm_compute in Hlt. discriminate.
  - vm_compute in Hleb. discriminate.
Qed.

(** ** Failures inside a batch *)

(** C9, as the code has it.  A [ValueError] raised while a satellite is
    looked up, or by the event search of [get_next_passes], stays local:
    [get_next_passes] returns the empty event list,
    [transit_list_sorted_by_time] records [[0, 0, 0, sat]] for that
    satellite and goes on with the rest, [get_alt_azimuth] returns the zero
    altitude, azimuth and velocity, and the loop of [on_auto_update_timer]
    goes on with the rest. *)
Theorem ValueError_stays_local {satellite : Type} (X : Extern satellite)
  (self : MainApp satellite) (now : Q) (N : Z) (v : sat_data)
  (rest : list sat_data)
  (Hfail : lookup_satellite X self (Satellite v) = Raise ValueError \/
           exists sat,
             lookup_satellite X self (Satellite v) = Ok sat /\
             find_events X sat now (now + 1) = Raise ValueError) :
  get_next_passes X self now (Satellite v) N = Ok [] /\
  (forall acc,
     transit_list_loop X self now N (v :: rest) acc
     = transit_list_loop X self now N rest (acc ++ [(0, 0, 0, Satellite v)])) /\
  (lookup_satellite X self (Satellite v) = Raise ValueError ->
   (forall t, get_alt_azimuth X self t (Satellite v)
              = Ok (Angle_degrees_0, Angle_degrees_0, 0)) /\
   (forall selected mhz up_positions shown,
      up_positions_loop X self now selected mhz (v :: rest) up_positions shown
      = up_positions_loop X self now selected mhz rest up_positions shown)).
Proof.
  assert (Hget : get_next_passes X self now (Satellite v) N = Ok []).
  { unfold get_next_passes.
    destruct Hfail as [Hs|(sat & Hs & Hf)]; rewrite Hs; simpl;
      [|rewrite Hf]; reflexivity. }
  split; [exact Hget|]. split.
  - intros acc. cbn [transit_list_loop]. rewrite Hget. reflexivity.
  - intros Hs.
    assert (Hobs : forall t, get_alt_azimuth X self t (Satellite v)
                             = Ok (Angle_degrees_0, Angle_degrees_0, 0)).
    { intros t. unfold get_alt_azimuth. rewrite Hs. reflexivity. }
    split; [exact Hobs|].
    intros selected mhz up_positions shown.
    cbn [up_positions_loop]. rewrite Hobs. reflexivity.
Qed.

Lemma ValueError_stays_local_witness :
  lookup_satellite Demo.extern Demo.app "BAD" = Raise ValueError /\
  transit_list_sorted_by_time Demo.extern Demo.app 0 1 [Demo.bad; Demo.iss]
  = Ok [(0, 0, 0, "BAD"%string); (1 # 10, 2 # 10, 3 # 10, "ISS"%string)].
Proof.
  assert (Hs : lookup_satellite Demo.extern Demo.app (Satellite Demo.bad)
               = Raise ValueError) by (vm_compute; reflexivity).
  split; [exact Hs|].
  unfold transit_list_sorted_by_time.
  rewrite (proj1 (proj2 (ValueError_stays_local Demo.extern Demo.app 0 1
                           Demo.bad [Demo.iss] (or_introl Hs))) []).
  vm_compute. reflexivity.
Defined.

(** C9, as the claim has it, fails.  A failure of the transform for AO-7
    is outside the [try] of [get_alt_azimuth]: no zero observation is
    returned, and the loop of [on_auto_update_timer] ends there, ISS never
    reached.  A failure of the event search for ISS that is no
    [ValueError] leaves [get_next_passes] and ends
    [transit_list_sorted_by_time], AO-7 never reached. *)
Lemma transform_failure_aborts_batch :
  get_alt_azimuth failing Demo.app 0 "AO-7" = Raise ValueError /\
  up_positions_loop failing Demo.app 0 "ISS" (Ok (1459 # 10))
    [Demo.ao7; Demo.iss] [] None = Raise ValueError /\
  get_next_passes failing Demo.app 0 "ISS" 1 = Raise ExternalError /\
  transit_list_sorted_by_time failing Demo.app 0 1 [Demo.iss; Demo.ao7]
  = Raise ExternalError.
Proof. repeat split; vm_compute; reflexivity. Qed.

(** ** The ranges of [Graph] and [Polar] *)

Lemma truediv_total (a b : Q) : ~ b == 0 -> truediv a b = Ok (a / b).
Proof.
  intros Hb. unfold truediv.
  destruct (eq b 0) eqn:He; [|reflexivity].
  apply eq_true_iff in He. contradiction.
Qed.

Lemma truediv_zero (a b : Q) : b == 0 -> truediv a b = Raise ZeroDivisionError.
Proof.
  intros Hb. unfold truediv. apply eq_true_iff in Hb. rewrite Hb. reflexivity.
Qed.

(** The x range of a constructed instance is never empty. *)
Lemma Graph_init_x_range (xmin0 xmax0 ymin0 ymax0 : Q) (xg yg : Z) (sx sy : Q) :
  let g := Graph_init xmin0 xmax0 ymin0 ymax0 xg yg sx sy in
  ~ xmax g - xmin g == 0 /\
  (xmax0 - xmin0 == 0 -> xmin g = 0 /\ xmax g = 1) /\
  (1 <= xgrids g)%Z /\ (1 <= ygrids g)%Z.
Proof.
  unfold Graph_init.
  assert (Hxg : (1 <= (if (xg <=? 0)%Z then 1 else xg))%Z)
    by (destruct (xg <=? 0)%Z eqn:?; lia).
  assert (Hyg : (1 <= (if (yg <=? 0)%Z then 1 else yg))%Z)
    by (destruct (yg <=? 0)%Z eqn:?; lia).
  destruct (eq (xmax0 - xmin0) 0) eqn:Hx;
    [apply eq_true_iff in Hx | apply eq_false_iff in Hx];
    (destruct (eq (ymax0 - ymin0) 0); [destruct (gt ymax0 0)|]);
    cbn [xmax xmin xgrids ygrids];
    (split; [|split; [|split; assumption]]);
    first [ intros H0; lra
          | intros _; split; reflexivity
          | exact Hx
          | intros H0; contradiction ].
Qed.

Lemma Polar_init_eq (r_min r_max theta_min theta_max : Q) (rc ts : Z)
  (sx sy : Q) :
  Polar_init r_min r_max theta_min theta_max rc ts sx sy
  = Graph_init r_min r_max theta_min theta_max rc ts sx sy.
Proof. reflexivity. Qed.

(** [tx] and [pRad] return on every constructed instance. *)
Lemma tx_pRad_total (xmin0 xmax0 ymin0 ymax0 : Q) (xg yg : Z) (sx sy : Q)
  (x : Q) :
  let g := Graph_init xmin0 xmax0 ymin0 ymax0 xg yg sx sy in
  (exists xt, tx g x = Ok xt) /\ (exists rad, pRad g x = Ok rad).
Proof.
  intros g.
  destruct (Graph_init_x_range xmin0 xmax0 ymin0 ymax0 xg yg sx sy)
    as (Hx & _).
  fold g in Hx. unfold tx, pRad.
  split; rewrite truediv_total by exact Hx; simpl; eexists; reflexivity.
Qed.

(** [ty] returns on a constructed instance unless both [ymin] and [ymax]
    were given as zero; then it divides by zero. *)
Lemma ty_total_iff (xmin0 xmax0 ymin0 ymax0 : Q) (xg yg : Z) (sx sy : Q)
  (y : Q) :
  let g := Graph_init xmin0 xmax0 ymin0 ymax0 xg yg sx sy in
  (~ (ymin0 == 0 /\ ymax0 == 0) -> exists yyt, ty g y = Ok yyt) /\
  (ymin0 == 0 /\ ymax0 == 0 -> ty g y = Raise ZeroDivisionError).
Proof.
  intros g.
  assert (Hy : (ymin0 == 0 /\ ymax0 == 0) <-> ymax g - ymin g == 0).
  { unfold g, Graph_init.
    destruct (eq (xmax0 - xmin0) 0);
      (destruct (eq (ymax0 - ymin0) 0) eqn:Hd;
       [apply eq_true_iff in Hd | apply eq_false_iff in Hd]);
      try (destruct (gt ymax0 0) eqn:Hg;
           [apply lt_true_iff in Hg | apply lt_false_iff in Hg]);
      cbn [ymax ymin]; split; intros; try split; try lra;
      try (exfalso; apply Hd; lra). }
  unfold ty. split.
  - intros Hn. rewrite truediv_total by (rewrite <- Hy; exact Hn).
    simpl. eexists. reflexivity.
  - intros Hz. rewrite truediv_zero by (rewrite <- Hy; exact Hz). reflexivity.
Qed.

(** C10 at its failing input: [Graph(label, ymin=0, ymax=0)] is constructed
    with [ymax - ymin = 0], and [ty] on it divides by zero.  The same holds
    for [Polar(label, theta_min=0, theta_max=0)]. *)
Theorem ty_divides_by_zero :
  ymax (Graph_init 0 1000 0 0 10 10 500 500)
  - ymin (Graph_init 0 1000 0 0 10 10 500 500) == 0 /\
  ty (Graph_init 0 1000 0 0 10 10 500 500) 5 = Raise ZeroDivisionError /\
  ty (Polar_init 0 90 0 0 6 12 500 500) 5 = Raise ZeroDivisionError.
Proof. repeat split. Qed.

(** ** The texts of a graph *)

Lemma text_item_eq_refl (a : text_item) : text_item_eq a a = true.
Proof.
  unfold text_item_eq.
  rewrite !String.eqb_refl, Bool.eqb_reflx.
  assert (He : forall q, eq q q = true) by (intros q; apply eq_true_iff; reflexivity).
  rewrite !He. reflexivity.
Qed.

Lemma text_item_eq_fixed (a b : text_item) :
  text_item_eq a b = true -> ti_fixed a = ti_fixed b.
Proof.
  unfold text_item_eq. rewrite !andb_true_iff.
  intros [_ H]. apply Bool.eqb_prop. exact H.
Qed.

Lemma list_remove_skip (x : text_item) (kept rest : list text_item) :
  Forall (differs x) kept ->
  list_remove x (kept ++ x :: rest) = Ok (kept ++ rest).
Proof.
  induction 1 as [|y kept Hy _ IH]; simpl.
  - rewrite text_item_eq_refl. reflexivity.
  - unfold differs in Hy. rewrite Hy, IH. reflexivity.
Qed.

(** The loop of [clear_texts], started on a list whose processed part
    [kept] holds fixed items only, keeps the fixed items of the rest. *)
Lemma clear_loop_filter (copy : list text_item) :
  forall kept,
    Forall (fun t => ti_fixed t = true) kept ->
    clear_loop copy (kept ++ copy) = Ok (kept ++ List.filter ti_fixed copy).
Proof.
  induction copy as [|t copy IH]; intros kept Hkept; simpl.
  - reflexivity.
  - destruct (ti_fixed t) eqn:Ht; simpl.
    + replace (kept ++ t :: copy) with ((kept ++ [t]) ++ copy)
        by (rewrite <- app_assoc; reflexivity).
      rewrite IH.
      * rewrite <- app_assoc. reflexivity.
      * apply Forall_app. split; [exact Hkept|]. constructor; [exact Ht|constructor].
    + rewrite list_remove_skip.
      * simpl. apply IH. exact Hkept.
      * eapply List.Forall_impl; [|exact Hkept].
        intros y Hy. unfold differs.
        destruct (text_item_eq y t) eqn:He; [|reflexivity].
        apply text_item_eq_fixed in He. congruence.
Qed.

(** X1. [clear_texts] and [clear_polar_texts] raise nothing and leave
    exactly the items added with [fixed] set, in the order they were
    added. *)
Theorem clear_texts_keeps_fixed (self : GraphTexts) :
  clear_texts self
  = Ok {| attrs := attrs self;
          texts := List.filter ti_fixed (texts self);
          polarTexts := polarTexts self |} /\
  clear_polar_texts self
  = Ok {| attrs := attrs self;
          texts := texts self;
          polarTexts := List.filter ti_fixed (polarTexts self) |}.
Proof.
  unfold clear_texts, clear_polar_texts.
  pose proof (clear_loop_filter (texts self) [] (List.Forall_nil _)) as Ht.
  pose proof (clear_loop_filter (polarTexts self) [] (List.Forall_nil _)) as Hp.
  simpl in Ht, Hp. rewrite Ht, Hp.
  split; reflexivity.
Qed.

(** [l.index(x)] followed by [del l[inx]]: the first item equal to [x]
    goes, or [ValueError] is raised when there is none. *)
Lemma list_index_del (x : text_item) (l : list text_item) :
  (Forall (differs x) l /\ list_index x l = Raise ValueError) \/
  (exists l1 e l2 inx,
      l = l1 ++ e :: l2 /\ Forall (differs x) l1 /\ text_item_eq e x = true /\
      list_index x l = Ok inx /\ list_del l inx = Ok (l1 ++ l2)).
Proof.
  induction l as [|y l IH]; simpl.
  - left. split; [constructor|reflexivity].
  - destruct (text_item_eq y x) eqn:Hy.
    + right. exists [], y, l, O. simpl. repeat split; auto.
    + destruct IH as [[Hall Hidx]|(l1 & e & l2 & inx & -> & Hall & He & Hidx & Hdel)].
      * left. rewrite Hidx. split; [constructor; assumption|reflexivity].
      * right. exists (y :: l1), e, l2, (S inx). rewrite Hidx. simpl.
        rewrite Hdel. simpl. repeat split; auto.
Qed.

(** X2. [remove_text] removes the first text equal to the one given and
    nothing else, and raises [ValueError] exactly when no text is equal to
    it. *)
Theorem remove_text_first_match (self : GraphTexts) (text : string) (x y : Q)
  (colour : string) (fixed : bool) :
  (Forall (differs (item text x y colour fixed)) (texts self) /\
   remove_text self text x y colour fixed = Raise ValueError) \/
  (exists l1 e l2,
      texts self = l1 ++ e :: l2 /\
      Forall (differs (item text x y colour fixed)) l1 /\
      text_item_eq e (item text x y colour fixed) = true /\
      remove_text self text x y colour fixed
      = Ok {| attrs := attrs self; texts := l1 ++ l2;
              polarTexts := polarTexts self |}).
Proof.
  unfold remove_text. fold (item text x y colour fixed).
  destruct (list_index_del (item text x y colour fixed) (texts self))
    as [[Hall Hidx]|(l1 & e & l2 & inx & Heq & Hall & He & Hidx & Hdel)].
  - left. rewrite Hidx. split; [exact Hall|reflexivity].
  - right. exists l1, e, l2. rewrite Hidx. simpl. rewrite Hdel. simpl. auto.
Qed.

Lemma index_del_appended (x : text_item) (l : list text_item) :
  Forall (differs x) l ->
  exists inx,
    list_index x (l ++ [x]) = Ok inx /\ list_del (l ++ [x]) inx = Ok l.
Proof.
  induction 1 as [|y l Hy _ (inx & Hidx & Hdel)]; simpl.
  - rewrite text_item_eq_refl. exists O. auto.
  - unfold differs in Hy. rewrite Hy, Hidx. exists (S inx). simpl.
    rewrite Hdel. auto.
Qed.

(** X3. A text that equals none of the texts of the graph, once added, is
    removed again by [remove_text] with the same arguments: the graph is as
    before.  The same holds for [add_polar_text] and [remove_polar_text]. *)
Theorem remove_text_undoes_add_text (self : GraphTexts) (text : string)
  (x y : Q) (colour : string) (fixed : bool)
  (Hnew : Forall (differs (item text x y colour fixed)) (texts self))
  (Hnewp : Forall (differs (item text x y colour fixed)) (polarTexts self)) :
  remove_text (add_text self text x y colour fixed) text x y colour fixed
  = Ok self /\
  remove_polar_text (add_polar_text self text x y colour fixed)
    text x y colour fixed = Ok self.
Proof.
  destruct self as [g ts ps]. simpl in *.
  destruct (index_del_appended _ _ Hnew) as (inx & Hidx & Hdel).
  destruct (index_del_appended _ _ Hnewp) as (inxp & Hidxp & Hdelp).
  unfold remove_text, remove_polar_text, add_text, add_polar_text. simpl.
  fold (item text x y colour fixed).
  rewrite Hidx, Hidxp. simpl. rewrite Hdel, Hdelp. split; reflexivity.
Qed.

Lemma remove_text_undoes_add_text_witness :
  remove_text
    (add_text (add_text (new_graph (Graph_init 0 10 0 10 5 5 500 500))
                 "axis" 1 1 "blue" true)
       "peak" 5 9 "red" false)
    "peak" 5 9 "red" false
  = Ok (add_text (new_graph (Graph_init 0 10 0 10 5 5 500 500))
          "axis" 1 1 "blue" true).
Proof.
  apply (remove_text_undoes_add_text
           (add_text (new_graph (Graph_init 0 10 0 10 5 5 500 500))
              "axis" 1 1 "blue" true)
           "peak" 5 9 "red" false).
  - repeat constructor.
  - constructor.
Defined.

(** ** The transforms of [Graph] and [Polar] *)

Lemma tx_value (g : Graph) (x : Q) :
  ~ xmax g - xmin g == 0 ->
  tx g x = Ok (image_size_x g / (xmax g - xmin g) * (x - xmin g)).
Proof.
  intros H. unfold tx. rewrite truediv_total by exact H. reflexivity.
Qed.

Lemma ty_value (g : Graph) (y : Q) :
  ~ ymax g - ymin g == 0 ->
  ty g y = Ok (image_size_y g
               - image_size_y g / (ymax g - ymin g) * (y - ymin g)).
Proof.
  intros H. unfold ty. rewrite truediv_total by exact H. reflexivity.
Qed.

Lemma pRad_value (g : Graph) (r : Q) :
  ~ xmax g - xmin g == 0 ->
  pRad g r = Ok (Qmin (image_size_x g) (image_size_y g) / 2
                 * ((xmax g - r) / (xmax g - xmin g))).
Proof.
  intros H. unfold pRad. rewrite truediv_total by exact H. reflexivity.
Qed.

(** X4. On a graph whose ranges are not empty, [add_text_by_proportion]
    appends one text, and [tx] and [ty] put it at the proportion
    [x_proportion] of the image width from the left and [y_proportion] of
    the image height from the bottom. *)
Theorem add_text_by_proportion_position (self : GraphTexts) (text : string)
  (x_proportion y_proportion : Q) (colour : string) (fixed : bool)
  (Hx : ~ xmax (attrs self) - xmin (attrs self) == 0)
  (Hy : ~ ymax (attrs self) - ymin (attrs self) == 0) :
  exists t,
    texts (add_text_by_proportion self text x_proportion y_proportion
             colour fixed) = texts self ++ [t] /\
    ti_text t = text /\ ti_colour t = colour /\ ti_fixed t = fixed /\
    returns (tx (attrs self) (ti_x t))
      (image_size_x (attrs self) * x_proportion) /\
    returns (ty (attrs self) (ti_y t))
      (image_size_y (attrs self)
       - image_size_y (attrs self) * y_proportion).
Proof.
  eexists. split; [reflexivity|]. simpl.
  split; [reflexivity|]. split; [reflexivity|]. split; [reflexivity|].
  split.
  - rewrite tx_value by exact Hx. eexists. split; [reflexivity|].
    field. exact Hx.
  - rewrite ty_value by exact Hy. eexists. split; [reflexivity|].
    field. exact Hy.
Qed.

Lemma add_text_by_proportion_position_witness :
  exists t,
    texts (add_text_by_proportion
             (new_graph (Graph_init 0 10 (-5) 5 5 5 500 400))
             "mid" (1 # 2) (1 # 4) "black" false) = [t] /\
    returns (tx (Graph_init 0 10 (-5) 5 5 5 500 400) (ti_x t)) 250 /\
    returns (ty (Graph_init 0 10 (-5) 5 5 5 500 400) (ti_y t)) 300.
Proof.
  assert (Hx : ~ xmax (Graph_init 0 10 (-5) 5 5 5 500 400)
                 - xmin (Graph_init 0 10 (-5) 5 5 5 500 400) == 0)
    by (intros H; vm_compute in H; discriminate).
  assert (Hy : ~ ymax (Graph_init 0 10 (-5) 5 5 5 500 400)
                 - ymin (Graph_init 0 10 (-5) 5 5 5 500 400) == 0)
    by (intros H; vm_compute in H; discriminate).
  destruct (add_text_by_proportion_position
              (new_graph (Graph_init 0 10 (-5) 5 5 5 500 400))
              "mid" (1 # 2) (1 # 4) "black" false Hx Hy)
    as (t & Ht & _ & _ & _ & Htx & Hty).
  exists t. split; [exact Ht|]. split.
  - destruct Htx as (v & Hv & Hq). exists v. split; [exact Hv|].
    rewrite Hq. reflexivity.
  - destruct Hty as (v & Hv & Hq). exists v. split; [exact Hv|].
    rewrite Hq. reflexivity.
Defined.

Lemma scale_pos (size lo hi : Q) :
  lo < hi -> 0 < size ->
  0 < size / (hi - lo) /\ size / (hi - lo) * (hi - lo) == size.
Proof.
  intros Hr Hs. split.
  - apply Qlt_shift_div_l; lra.
  - field. intros H0. lra.
Qed.

(** X5. On a graph with [xmin < xmax], [ymin < ymax] and an image of
    positive size, [tx] and [ty] map the corners of the ranges to the
    corners of the image ([ty] upside down), a point inside the ranges to a
    pixel position inside the image, and keep the order of x values and
    reverse that of y values. *)
Theorem tx_ty_inside_image (g : Graph) (x y : Q)
  (Hx : xmin g < xmax g) (Hy : ymin g < ymax g)
  (Hsx : 0 < image_size_x g) (Hsy : 0 < image_size_y g) :
  returns (tx g (xmin g)) 0 /\
  returns (tx g (xmax g)) (image_size_x g) /\
  returns (ty g (ymin g)) (image_size_y g) /\
  returns (ty g (ymax g)) 0 /\
  (xmin g <= x <= xmax g ->
   exists xt, tx g x = Ok xt /\ 0 <= xt <= image_size_x g) /\
  (ymin g <= y <= ymax g ->
   exists yt, ty g y = Ok yt /\ 0 <= yt <= image_size_y g) /\
  (forall x', x < x' ->
     exists a b, tx g x = Ok a /\ tx g x' = Ok b /\ a < b) /\
  (forall y', y < y' ->
     exists a b, ty g y = Ok a /\ ty g y' = Ok b /\ b < a).
Proof.
  assert (Hnx : ~ xmax g - xmin g == 0) by (intros H0; lra).
  assert (Hny : ~ ymax g - ymin g == 0) by (intros H0; lra).
  destruct (scale_pos _ _ _ Hx Hsx) as [Hkx Hkxd].
  destruct (scale_pos _ _ _ Hy Hsy) as [Hky Hkyd].
  unfold returns. rewrite !tx_value by exact Hnx. rewrite !ty_value by exact Hny.
  set (kx := image_size_x g / (xmax g - xmin g)) in *.
  set (ky := image_size_y g / (ymax g - ymin g)) in *.
  repeat split.
  - eexists. split; [reflexivity|]. ring.
  - eexists. split; [reflexivity|]. exact Hkxd.
  - eexists. split; [reflexivity|]. ring.
  - eexists. split; [reflexivity|]. rewrite Hkyd. ring.
  - intros [Hlo Hhi]. eexists. split; [reflexivity|]. split; nra.
  - intros [Hlo Hhi]. eexists. split; [reflexivity|]. split; nra.
  - intros x' Hlt. rewrite tx_value by exact Hnx. fold kx.
    do 2 eexists. split; [reflexivity|]. split; [reflexivity|]. nra.
  - intros y' Hlt. rewrite ty_value by exact Hny. fold ky.
    do 2 eexists. split; [reflexivity|]. split; [reflexivity|]. nra.
Qed.

Lemma tx_ty_inside_image_witness :
  returns (tx (Graph_init 0 10 (-5) 5 5 5 500 400) 10) 500 /\
  returns (ty (Graph_init 0 10 (-5) 5 5 5 500 400) 5) 0.
Proof.
  pose proof (tx_ty_inside_image (Graph_init 0 10 (-5) 5 5 5 500 400) 1 1
                eq_refl eq_refl eq_refl eq_refl) as (_ & Hx & _ & Hy & _).
  split; [exact Hx | exact Hy].
Defined.

(** X6. On a polar graph with [r_min < r_max] and an image of positive size,
    [pRad] puts [r_max] at the centre and [r_min] on the outer circle, every
    [r] between them between the two, and a larger [r] nearer the centre. *)
Theorem pRad_inside_circle (g : Graph) (r : Q)
  (Hx : xmin g < xmax g)
  (Hsx : 0 < image_size_x g) (Hsy : 0 < image_size_y g) :
  let radius := Qmin (image_size_x g) (image_size_y g) / 2 in
  0 < radius /\
  returns (pRad g (xmax g)) 0 /\
  returns (pRad g (xmin g)) radius /\
  (xmin g <= r <= xmax g ->
   exists rad, pRad g r = Ok rad /\ 0 <= rad <= radius) /\
  (forall r', r < r' ->
     exists a b, pRad g r = Ok a /\ pRad g r' = Ok b /\ b < a).
Proof.
  intros radius.
  assert (Hnx : ~ xmax g - xmin g == 0) by (intros H0; lra).
  assert (Hrad : 0 < radius).
  { unfold radius.
    destruct (Q.min_spec (image_size_x g) (image_size_y g)) as [[_ ->]|[_ ->]];
      apply Qlt_shift_div_l; lra. }
  assert (Hd : forall a, a / (xmax g - xmin g) * (xmax g - xmin g) == a).
  { intros a. field. exact Hnx. }
  unfold returns. rewrite !pRad_value by exact Hnx. fold radius.
  split; [exact Hrad|].
  assert (Hq : forall a b, a < b ->
                           a / (xmax g - xmin g) < b / (xmax g - xmin g)).
  { intros a b Hab. pose proof (Hd a) as Ha. pose proof (Hd b) as Hb.
    set (qa := a / (xmax g - xmin g)) in *.
    set (qb := b / (xmax g - xmin g)) in *. nra. }
  assert (Hq0 : 0 / (xmax g - xmin g) == 0) by (field; exact Hnx).
  assert (Hq1 : (xmax g - xmin g) / (xmax g - xmin g) == 1)
    by (field; exact Hnx).
  split; [|split; [|split]].
  - eexists. split; [reflexivity|].
    assert (Hz : xmax g - xmax g == 0) by ring. rewrite Hz, Hq0. ring.
  - eexists. split; [reflexivity|]. rewrite Hq1. ring.
  - intros [Hlo Hhi]. eexists. split; [reflexivity|]. split.
    + destruct (Qlt_le_dec r (xmax g)) as [Hlt|Hge].
      * pose proof (Hq 0 (xmax g - r) ltac:(lra)) as Hp. rewrite Hq0 in Hp.
        set (q := (xmax g - r) / (xmax g - xmin g)) in *. nra.
      * assert (Hr : xmax g - r == 0) by lra. rewrite Hr, Hq0. lra.
    + destruct (Qlt_le_dec (xmin g) r) as [Hlt|Hge].
      * pose proof (Hq (xmax g - r) (xmax g - xmin g) ltac:(lra)) as Hp.
        rewrite Hq1 in Hp.
        set (q := (xmax g - r) / (xmax g - xmin g)) in *. nra.
      * assert (Hr : xmax g - r == xmax g - xmin g) by lra.
        rewrite Hr, Hq1. lra.
  - intros r' Hlt. rewrite pRad_value by exact Hnx. fold radius.
    do 2 eexists. split; [reflexivity|]. split; [reflexivity|].
    pose proof (Hq (xmax g - r') (xmax g - r) ltac:(lra)) as Hp.
    set (qa := (xmax g - r') / (xmax g - xmin g)) in *.
    set (qb := (xmax g - r) / (xmax g - xmin g)) in *. nra.
Qed.

Lemma pRad_inside_circle_witness :
  returns (pRad (Polar_init 0 90 0 360 6 12 500 400) 90) 0 /\
  returns (pRad (Polar_init 0 90 0 360 6 12 500 400) 0) 200.
Proof.
  pose proof (pRad_inside_circle (Polar_init 0 90 0 360 6 12 500 400) 45
                eq_refl eq_refl eq_refl) as (_ & Hc & Hr & _).
  split; [exact Hc|].
  destruct Hr as (v & Hv & Hq). exists v. split; [exact Hv|].
  rewrite Hq. reflexivity.
Defined.

(** X7. On a polar graph whose radial range is not empty, [pr] and [pt] put
    the point [(r, theta)] at the distance [pRad r] from the centre of the
    image, for a [theta] at which [sin] and [cos] square to one; [r_max] is
    put at the centre whatever [theta] is, and a [theta] of sine 0 and
    cosine 1 straight above the centre. *)
Theorem pr_pt_on_circle (sin cos : Q -> Q) (g : Graph) (r theta : Q)
  (Hx : ~ xmax g - xmin g == 0)
  (Htrig : sin theta * sin theta + cos theta * cos theta == 1) :
  let centre := Qmin (image_size_x g) (image_size_y g) / 2 in
  (exists rad x y,
     pRad g r = Ok rad /\ pr sin g r theta = Ok x /\ pt cos g r theta = Ok y /\
     (x - centre) * (x - centre) + (y - centre) * (y - centre) == rad * rad /\
     (sin theta == 0 -> cos theta == 1 -> x == centre /\ y == centre - rad)) /\
  (forall theta',
     returns (pr sin g (xmax g) theta') centre /\
     returns (pt cos g (xmax g) theta') centre).
Proof.
  intros centre. unfold pr, pt, returns. rewrite !pRad_value by exact Hx.
  fold centre. simpl. split.
  - do 3 eexists. split; [reflexivity|]. split; [reflexivity|].
    split; [reflexivity|]. split; [|intros Hs Hc; split].
    + set (rad := centre * ((xmax g - r) / (xmax g - xmin g))).
      assert (He : (centre + rad * sin theta - centre)
                   * (centre + rad * sin theta - centre)
                   + (centre - rad * cos theta - centre)
                     * (centre - rad * cos theta - centre)
                   == rad * rad
                      * (sin theta * sin theta + cos theta * cos theta))
        by ring.
      rewrite He, Htrig. ring.
    + rewrite Hs. ring.
    + rewrite Hc. ring.
  - intros theta'.
    assert (Hz : (xmax g - xmax g) / (xmax g - xmin g) == 0)
      by (field; exact Hx).
    split; eexists; (split; [reflexivity|]); rewrite Hz; ring.
Qed.

Lemma pr_pt_on_circle_witness :
  returns (pr (fun _ => 3 # 5) (Polar_init 0 90 0 360 6 12 500 400) 45 1)
    (200 + 100 * (3 # 5)) /\
  returns (pt (fun _ => 4 # 5) (Polar_init 0 90 0 360 6 12 500 400) 90 1) 200.
Proof.
  assert (Hx : ~ xmax (Polar_init 0 90 0 360 6 12 500 400)
                 - xmin (Polar_init 0 90 0 360 6 12 500 400) == 0)
    by (intros H; vm_compute in H; discriminate).
  pose proof (pr_pt_on_circle (fun _ => 3 # 5) (fun _ => 4 # 5)
                (Polar_init 0 90 0 360 6 12 500 400) 45 1 Hx eq_refl)
    as [_ Hc].
  split.
  - eexists. split; [vm_compute; reflexivity|]. reflexivity.
  - destruct (Hc 1) as [_ Hpt]. destruct Hpt as (v & Hv & Hq).
    exists v. split; [exact Hv|]. rewrite Hq. reflexivity.
Defined.

(** ** The modes of the combo box *)

Lemma str_in_In (x : string) (l : list string) : str_in x l = true <-> In x l.
Proof.
  induction l as [|y l IH]; simpl.
  - split; [discriminate|contradiction].
  - rewrite orb_true_iff, IH, String.eqb_eq. tauto.
Qed.

Lemma mode_list_loop_In (boxes : check_boxes) (values : list sat_dict) :
  forall mode_list m,
    In m (mode_list_loop boxes values mode_list) <->
    In m mode_list \/ exists s, In s values /\ offers boxes m s.
Proof.
  induction values as [|s values IH]; intros mode_list m; simpl.
  - split; [auto|]. intros [H|(s & [] & _)]. exact H.
  - unfold offers in *.
    destruct (any_checked boxes s) eqn:Hc;
      [destruct (d_Modes s) as [|m0 ms] eqn:Hm; simpl|]; rewrite IH.
    + split.
      * intros [H|(s' & Hs' & Ho)]; [auto|]. right. exists s'. auto.
      * intros [H|(s' & [<-|Hs'] & Hc' & Hin)]; [auto| |].
        -- rewrite Hm in Hin. contradiction.
        -- right. exists s'. auto.
    + rewrite in_app_iff. split.
      * intros [[H|H]|(s' & Hs' & Ho)]; [auto| |].
        -- right. exists s. rewrite Hm. auto.
        -- right. exists s'. auto.
      * intros [H|(s' & [<-|Hs'] & Hc' & Hin)]; [auto| |].
        -- rewrite Hm in Hin. auto.
        -- right. exists s'. auto.
    + split.
      * intros [H|(s' & Hs' & Ho)]; [auto|]. right. exists s'. auto.
      * intros [H|(s' & [<-|Hs'] & Hc' & Hin)]; [auto| |].
        -- congruence.
        -- right. exists s'. auto.
Qed.

Lemma list_set_In (l : list string) (x : string) :
  In x (list_set l) <-> In x l.
Proof.
  induction l as [|y l IH]; simpl; [tauto|].
  destruct (str_in y l) eqn:Hy; simpl; rewrite IH; [|tauto].
  apply str_in_In in Hy. split; [auto|]. intros [<-|H]; assumption.
Qed.

Lemma list_set_NoDup (l : list string) : List.NoDup (list_set l).
Proof.
  induction l as [|y l IH]; simpl; [constructor|].
  destruct (str_in y l) eqn:Hy; [exact IH|].
  constructor; [|exact IH].
  rewrite list_set_In. intros Hin. apply str_in_In in Hin. congruence.
Qed.

Lemma string_lt_trans (a b c : string) :
  string_lt a b -> string_lt b c -> string_lt a c.
Proof.
  unfold string_lt, String.ltb. intros Hab Hbc.
  destruct (String.compare a b) eqn:H1; try discriminate.
  destruct (String.compare b c) eqn:H2; try discriminate.
  apply OrderedTypeEx.String_as_OT.cmp_lt in H1, H2.
  pose proof (OrderedTypeEx.String_as_OT.lt_trans _ _ _ H1 H2) as H3.
  apply OrderedTypeEx.String_as_OT.cmp_lt in H3.
  unfold OrderedTypeEx.String_as_OT.cmp in H3. rewrite H3. reflexivity.
Qed.

Lemma string_lt_irrefl (a : string) : ~ string_lt a a.
Proof.
  unfold string_lt, String.ltb.
  assert (H : String.compare a a = Eq)
    by (apply OrderedTypeEx.String_as_OT.cmp_eq; reflexivity).
  rewrite H. discriminate.
Qed.

(** Of two different strings one is below the other. *)
Lemma string_lt_total (a b : string) :
  a <> b -> String.ltb b a = false -> string_lt a b.
Proof.
  unfold string_lt, String.ltb. intros Hne H.
  rewrite (String.compare_antisym b a) in H.
  destruct (String.compare a b) eqn:Hc; simpl in H; try discriminate.
  - apply String.compare_eq_iff in Hc. contradiction.
  - reflexivity.
Qed.

Lemma sort_insert_string_In (x y : string) (l : list string) :
  In y (sort_insert_string x l) <-> y = x \/ In y l.
Proof.
  induction l as [|z l IH]; simpl.
  - split; [intros [H|[]]; auto | intros [H|[]]; auto].
  - destruct (String.ltb z x); simpl; [rewrite IH|]; intuition auto.
Qed.

Lemma sort_strings_In (y : string) (l : list string) :
  In y (sort_strings l) <-> In y l.
Proof.
  induction l as [|x l IH]; simpl; [tauto|].
  rewrite sort_insert_string_In, IH. intuition auto.
Qed.

Lemma sort_insert_string_sorted (x : string) (l : list string) :
  ~ In x l ->
  StronglySorted string_lt l ->
  StronglySorted string_lt (sort_insert_string x l).
Proof.
  induction l as [|z l IH]; simpl; intros Hnin Hs.
  - repeat constructor.
  - inversion Hs as [|? ? Hs' Hall]; subst.
    destruct (String.ltb z x) eqn:Hzx.
    + constructor.
      * apply IH; [tauto|exact Hs'].
      * rewrite List.Forall_forall in *. intros y Hy.
        apply sort_insert_string_In in Hy as [->|Hy]; [exact Hzx|auto].
    + assert (Hxz : string_lt x z).
      { apply string_lt_total; [|exact Hzx]. intros ->. apply Hnin. auto. }
      constructor; [exact Hs|].
      constructor; [exact Hxz|].
      rewrite List.Forall_forall in *. intros y Hy.
      eapply string_lt_trans; [exact Hxz|auto].
Qed.

Lemma sort_strings_sorted (l : list string) :
  List.NoDup l -> StronglySorted string_lt (sort_strings l).
Proof.
  induction 1 as [|x l Hx Hnd IH]; simpl; [constructor|].
  apply sort_insert_string_sorted; [|exact IH].
  rewrite sort_strings_In. exact Hx.
Qed.

(** Two strictly ascending lists with the same strings are the same list. *)
Lemma strictly_sorted_unique (l1 : list string) :
  forall l2,
    StronglySorted string_lt l1 -> StronglySorted string_lt l2 ->
    (forall x, In x l1 <-> In x l2) -> l1 = l2.
Proof.
  induction l1 as [|a l1 IH]; intros l2 H1 H2 Hin.
  - destruct l2 as [|b l2]; [reflexivity|].
    exfalso. apply (Hin b). left. reflexivity.
  - destruct l2 as [|b l2].
    { exfalso. apply (Hin a). left. reflexivity. }
    inversion H1 as [|? ? H1' Ha]; subst.
    inversion H2 as [|? ? H2' Hb]; subst.
    rewrite List.Forall_forall in Ha, Hb.
    assert (Hab : a = b).
    { destruct (proj1 (Hin a) (or_introl eq_refl)) as [Hba|Hal2]; [auto|].
      destruct (proj2 (Hin b) (or_introl eq_refl)) as [Hab|Hbl1]; [auto|].
      exfalso. apply (string_lt_irrefl a).
      eapply string_lt_trans; [apply Ha; exact Hbl1|apply Hb; exact Hal2]. }
    subst b. f_equal. apply IH; [exact H1'|exact H2'|].
    intros x. split; intros Hx.
    + destruct (proj1 (Hin x) (or_intror Hx)) as [<-|H]; [|exact H].
      exfalso. apply (string_lt_irrefl a). apply Ha. exact Hx.
    + destruct (proj2 (Hin x) (or_intror Hx)) as [<-|H]; [|exact H].
      exfalso. apply (string_lt_irrefl a). apply Hb. exact Hx.
Qed.

(** The sorted list does not depend on the order the set is walked in. *)
Lemma sort_strings_unique (l l' : list string) :
  List.NoDup l -> Permutation l l' -> sort_strings l = sort_strings l'.
Proof.
  intros Hnd Hp. apply strictly_sorted_unique.
  - apply sort_strings_sorted. exact Hnd.
  - apply sort_strings_sorted. eapply Permutation_NoDup; eassumption.
  - intros x. rewrite !sort_strings_In.
    split; apply Permutation_in; [exact Hp|apply Permutation_sym; exact Hp].
Qed.

Lemma satellites_filtered_In (boxes : check_boxes) (mode : string)
  (values : list sat_dict) (dont_filter : bool) (s : sat_dict) :
  In s (satellites_filtered_by_check_boxes boxes mode values dont_filter) <->
  In s values /\
  (any_checked boxes s || dont_filter) = true /\
  (String.eqb mode "Any" || str_in mode (d_Modes s)) = true.
Proof.
  induction values as [|v values IH]; simpl; [tauto|].
  destruct ((any_checked boxes v || dont_filter)
            && (String.eqb mode "Any" || str_in mode (d_Modes v))) eqn:Hv;
    simpl; rewrite IH.
  - apply andb_true_iff in Hv. split; [|tauto].
    intros [<-|H]; tauto.
  - apply andb_false_iff in Hv. split; [tauto|].
    intros ([<-|H] & H1 & H2); [|tauto].
    destruct Hv; congruence.
Qed.

(** X8. The mode combo box is filled with 'Any' followed by the modes of the
    satellites that have a non-empty list under a ticked check box, each
    mode once, in strictly ascending order; and every mode so offered, once
    chosen, makes [satellites_filtered_by_check_boxes] yield at least one
    satellite. *)
Theorem mode_combo_offers_selectable_modes (boxes : check_boxes)
  (values : list sat_dict) :
  exists modes,
    fill_combo_box_with_list_of_modes boxes values = "Any"%string :: modes /\
    StronglySorted string_lt modes /\
    (forall m, In m modes <-> exists s, In s values /\ offers boxes m s) /\
    (forall m, In m modes ->
       exists s, In s (satellites_filtered_by_check_boxes boxes m values false)
                 /\ offers boxes m s).
Proof.
  eexists. split; [reflexivity|].
  assert (Hin : forall m,
             In m (sort_strings (list_set (mode_list_loop boxes values [])))
             <-> exists s, In s values /\ offers boxes m s).
  { intros m. rewrite sort_strings_In, list_set_In, mode_list_loop_In.
    simpl. tauto. }
  split; [apply sort_strings_sorted, list_set_NoDup|].
  split; [exact Hin|].
  intros m Hm. apply Hin in Hm as (s & Hs & Hc & Hmode).
  exists s. split; [|split; assumption].
  apply satellites_filtered_In. split; [exact Hs|].
  rewrite Hc. split; [reflexivity|].
  apply orb_true_iff. right. apply str_in_In. exact Hmode.
Qed.

(** ** The frequencies of the selected satellite *)

Section Frequencies.

Variable py_float : string -> result Q.
Hypothesis Hfloat : forall L e, py_float L = Raise e -> e = ValueError.

Lemma list_value_loop_spec (k : string) (inf : list string) :
  String.eqb k "modes" = false ->
  forall info frequencies,
    exists info',
      list_value_loop py_float k inf info frequencies
      = Ok (info', frequencies ++ List.filter (accepted py_float) inf).
Proof.
  intros Hk. induction inf as [|L inf IH]; intros info frequencies; simpl.
  - exists info. rewrite app_nil_r. reflexivity.
  - rewrite Hk. simpl. unfold accepted.
    destruct (py_float L) as [q|e] eqn:HL.
    + destruct (IH (info ++ L ++ "-")%string (frequencies ++ [L])) as [info' ->].
      exists info'. rewrite <- app_assoc. reflexivity.
    + apply Hfloat in HL. subst e. apply IH.
Qed.

Lemma items_loop_spec (its : list (string * dict_value)) :
  Forall (fun kv => String.eqb (fst kv) "modes" = false) its ->
  forall info frequencies,
    exists info',
      items_loop py_float its info frequencies
      = Ok (info',
            frequencies
            ++ List.filter (accepted py_float) (List.flat_map list_of_value its)).
Proof.
  induction 1 as [|[k v] its Hk _ IH]; intros info frequencies; simpl.
  - exists info. rewrite app_nil_r. reflexivity.
  - destruct v as [inf|inf]; unfold list_of_value at 1; simpl.
    + destruct (String.eqb inf ""); apply IH.
    + destruct inf as [|L inf]; simpl; [apply IH|].
      destruct (list_value_loop_spec k (L :: inf) Hk (info ++ k ++ ": ")%string
                  frequencies) as [info1 H1].
      simpl in H1. rewrite H1. simpl.
      destruct (IH (rstrip_char "-" info1 ++ " ")%string
                  (frequencies
                   ++ (if accepted py_float L
                       then L :: List.filter (accepted py_float) inf
                       else List.filter (accepted py_float) inf)))
        as [info' ->].
      exists info'. rewrite List.filter_app.
      destruct (accepted py_float L); rewrite <- app_assoc; reflexivity.
Qed.

Lemma items_entries (s : sat_dict) :
  List.flat_map list_of_value (items s) = list_entries s.
Proof.
  unfold items, list_entries, list_of_value. simpl.
  rewrite !app_nil_r. reflexivity.
Qed.

Lemma selected_loop_spec (selected : string) (values : list sat_dict) :
  forall info frequencies,
    exists info',
      selected_loop py_float selected values info frequencies
      = Ok (info',
            frequencies
            ++ List.filter (accepted py_float)
                 (List.flat_map list_entries
                    (List.filter
                       (fun s => String.eqb (d_Satellite s) selected) values))).
Proof.
  induction values as [|s values IH]; intros info frequencies;
    cbn [selected_loop List.filter].
  - exists info. simpl. rewrite app_nil_r. reflexivity.
  - destruct (String.eqb (d_Satellite s) selected); [|apply IH].
    destruct (items_loop_spec (items s)
                ltac:(repeat constructor) info frequencies) as [info1 H1].
    rewrite H1. cbn [bind fst snd List.flat_map]. rewrite items_entries.
    destruct (IH info1
                (frequencies ++ List.filter (accepted py_float) (list_entries s)))
      as [info' ->].
    exists info'. rewrite List.filter_app, app_assoc. reflexivity.
Qed.

End Frequencies.

(** X9. [selected_satellite_info] raises nothing; the frequencies it offers
    are, in order, the entries of the six lists of the selected satellite
    that [float] accepts, the entries of 'Modes' among them (the key is not
    'modes'): so every frequency offered converts with [float]. *)
Theorem selected_frequencies_convert (py_float : string -> result Q)
  (selected : string) (values : list sat_dict)
  (Hfloat : forall L e, py_float L = Raise e -> e = ValueError) :
  exists info frequencies,
    selected_satellite_info py_float selected values = Ok (info, frequencies) /\
    frequencies
    = List.filter (accepted py_float)
        (List.flat_map list_entries
           (List.filter (fun s => String.eqb (d_Satellite s) selected) values)) /\
    Forall (fun L => exists q, py_float L = Ok q) frequencies.
Proof.
  destruct (selected_loop_spec py_float Hfloat selected values ""%string [])
    as [info H].
  exists info. eexists. split; [exact H|]. split; [reflexivity|].
  simpl. apply List.Forall_forall. intros L HL.
  apply List.filter_In in HL as [_ HL]. unfold accepted in HL.
  destruct (py_float L) as [q|e]; [eauto|discriminate].
Qed.

Lemma demo_float_raises (L : string) (e : exn) :
  demo_float L = Raise e -> e = ValueError.
Proof.
  unfold demo_float. intros H.
  repeat match type of H with
         | (if ?b then _ else _) = _ => destruct b
         end; congruence.
Qed.

Lemma selected_frequencies_convert_witness :
  exists info,
    selected_satellite_info demo_float "AO-7" [ao7_dict]
    = Ok (info, ["145.850"; "145.950"; "29.400"; "29.500"; "29.502"; "1200"]%string).
Proof.
  destruct (selected_frequencies_convert demo_float "AO-7" [ao7_dict]
              demo_float_raises) as (info & frequencies & H & Hf & _).
  exists info. rewrite H, Hf. reflexivity.
Defined.

(** ** The lines of the upcoming passes *)

Lemma upcoming_loop_spec {satellite : Type} (X : Extern satellite)
  (self : MainApp satellite) (now : nat -> Q) (transit_list : list transit) :
  forall round acc lines,
    upcoming_loop X self now round transit_list acc = Ok lines ->
    exists added,
      lines = acc ++ added /\
      Forall2 (line_in now)
        (List.filter (sets_soon_in now) (rounds round transit_list)) added.
Proof.
  induction transit_list as [|[[[t0 t1] t2] t3] rest IH];
    intros round acc lines H;
    cbn [upcoming_loop rounds List.filter sets_soon_in sets_soon fst snd] in *.
  - inversion H; subst. exists []. rewrite app_nil_r.
    split; [reflexivity|constructor].
  - destruct (if negb (eq t1 0)
              then get_alt_azimuth X self t1 t3
              else get_alt_azimuth X self (now round) t3) as [observed|e];
      simpl in H; [|discriminate].
    destruct (lt ((t2 - now round) * 24) hours_to_show).
    + apply IH in H as (added & -> & Hall).
      eexists. split; [rewrite <- app_assoc; reflexivity|].
      constructor; [|exact Hall].
      exists (degrees (fst (fst observed))). reflexivity.
    + apply IH in H. exact H.
Qed.

Lemma draw_upcoming_passes_spec {satellite : Type} (X : Extern satellite)
  (self : MainApp satellite) (now_passes : Q) (now : nat -> Q) (N : Z)
  (filtered : list sat_data) (lines : list (list graph_point)) :
  draw_upcoming_passes X self now_passes now N filtered = Ok lines ->
  exists transit_list,
    transit_list_sorted_by_time X self now_passes N filtered = Ok transit_list /\
    Forall2 (line_in now)
      (List.filter (sets_soon_in now) (rounds 0 transit_list)) lines.
Proof.
  intros H. unfold draw_upcoming_passes in H.
  destruct (transit_list_sorted_by_time X self now_passes N filtered)
    as [transit_list|e]; simpl in H; [|discriminate].
  exists transit_list. split; [reflexivity|].
  apply upcoming_loop_spec in H as (added & -> & Hall). exact Hall.
Qed.

(** X10. When [draw_upcoming_passes] raises nothing, the lines it hands to
    the graph are, in the order of the sorted transit list, one line for
    each entry that sets less than 3 hours ([hours_to_show]) after the
    reading of the clock in the round of the loop that meets it, and none
    for the others; each is a level line of two points that ends left of
    the 3 hour mark. *)
Theorem draw_upcoming_passes_lines {satellite : Type} (X : Extern satellite)
  (self : MainApp satellite) (now_passes : Q) (now : nat -> Q) (N : Z)
  (filtered : list sat_data) (lines : list (list graph_point))
  (H : draw_upcoming_passes X self now_passes now N filtered = Ok lines) :
  exists transit_list,
    transit_list_sorted_by_time X self now_passes N filtered = Ok transit_list /\
    Forall2 (line_in now)
      (List.filter (sets_soon_in now) (rounds 0 transit_list)) lines /\
    Forall (fun line =>
              exists p q, line = [p; q] /\ gp_y p = gp_y q /\
                          gp_x q < hours_to_show) lines.
Proof.
  destruct (draw_upcoming_passes_spec X self now_passes now N filtered lines H)
    as (transit_list & Htl & Hall).
  exists transit_list. split; [exact Htl|]. split; [exact Hall|].
  assert (Hsoon : Forall (fun e => sets_soon_in now e = true)
                    (List.filter (sets_soon_in now) (rounds 0 transit_list))).
  { apply List.Forall_forall. intros t Ht. apply List.filter_In in Ht. tauto. }
  clear H. revert Hsoon.
  induction Hall as [|[k [[[t0 t1] t2] t3]] line ts ls Hline _ IH];
    intros Hsoon; constructor.
  - inversion Hsoon as [|? ? Ht _]; subst. destruct Hline as (alt & ->).
    do 2 eexists. split; [reflexivity|]. split; [reflexivity|].
    simpl. apply lt_true_iff. exact Ht.
  - apply IH. inversion Hsoon as [|? ? _ Hrest]; subst. exact Hrest.
Qed.

Lemma draw_upcoming_passes_lines_witness :
  exists lines,
    draw_upcoming_passes Demo.extern Demo.app 0 (ticking (2 # 10)) 2
      [Demo.iss; Demo.ao7] = Ok lines /\
    List.length lines = 2%nat /\
    Forall (fun line =>
              exists p q, line = [p; q] /\ gp_y p = gp_y q /\
                          gp_x q < hours_to_show) lines.
Proof.
  eexists.
  assert (H : draw_upcoming_passes Demo.extern Demo.app 0 (ticking (2 # 10)) 2
                [Demo.iss; Demo.ao7] = Ok _) by (vm_compute; reflexivity).
  split; [exact H|]. split; [reflexivity|].
  destruct (draw_upcoming_passes_lines Demo.extern Demo.app 0
              (ticking (2 # 10)) 2 [Demo.iss; Demo.ao7] _ H)
    as (tl & _ & _ & Hlines).
  exact Hlines.
Defined.

Lemma pass_info_loop_incl (sat : string) (pass_list : list pass_event) :
  forall pass_info acc t,
    In t acc -> In t (pass_info_loop sat pass_list pass_info acc).
Proof.
  induction pass_list as [|[ti name] rest IH]; intros [[r tr] st] acc t Hin;
    simpl; [exact Hin|].
  destruct (String.eqb name "rise"); [apply IH; exact Hin|].
  destruct (String.eqb name "transit"); [apply IH; exact Hin|].
  destruct (String.eqb name "set"); apply IH; [|exact Hin].
  apply in_or_app. left. exact Hin.
Qed.

Lemma transit_list_loop_incl {satellite : Type} (X : Extern satellite)
  (self : MainApp satellite) (now : Q) (N : Z) (filtered : list sat_data) :
  forall acc tl t,
    transit_list_loop X self now N filtered acc = Ok tl ->
    In t acc -> In t tl.
Proof.
  induction filtered as [|v rest IH]; intros acc tl t H Hin; simpl in H.
  - inversion H; subst. exact Hin.
  - destruct (get_next_passes X self now (Satellite v) N) as [pass_list|e];
      simpl in H; [|discriminate].
    eapply IH; [exact H|].
    destruct pass_list as [|ev pl].
    + apply in_or_app. left. simpl. exact Hin.
    + apply pass_info_loop_incl. exact Hin.
Qed.

(** A satellite without events is entered as [[0, 0, 0, sat]]. *)
Lemma transit_list_loop_no_pass {satellite : Type} (X : Extern satellite)
  (self : MainApp satellite) (now : Q) (N : Z) (filtered : list sat_data)
  (v : sat_data) :
  In v filtered ->
  get_next_passes X self now (Satellite v) N = Ok [] ->
  forall acc tl,
    transit_list_loop X self now N filtered acc = Ok tl ->
    In (0, 0, 0, Satellite v) tl.
Proof.
  intros Hv Hnone.
  induction filtered as [|w rest IH]; intros acc tl H; [contradiction|].
  simpl in H. destruct Hv as [->|Hv].
  - rewrite Hnone in H. simpl in H.
    eapply transit_list_loop_incl; [exact H|].
    apply in_or_app. right. left. reflexivity.
  - destruct (get_next_passes X self now (Satellite w) N) as [pass_list|e];
      simpl in H; [|discriminate].
    eapply IH; [exact Hv|exact H].
Qed.

Lemma Forall2_In_l {A B : Type} (R : A -> B -> Prop) (l : list A)
  (l' : list B) (a : A) :
  Forall2 R l l' -> In a l -> exists b, In b l' /\ R a b.
Proof.
  induction 1 as [|x y l l' Hxy _ IH]; intros Hin; [contradiction|].
  destruct Hin as [->|Hin].
  - exists y. split; [left; reflexivity|exact Hxy].
  - destruct (IH Hin) as (b & Hb & HR). exists b. split; [right; exact Hb|exact HR].
Qed.

Lemma rounds_In (transit_list : list transit) (t : transit) :
  forall round,
    In t transit_list -> exists k, In (k, t) (rounds round transit_list).
Proof.
  induction transit_list as [|t' rest IH]; intros round Hin; [destruct Hin|].
  cbn [rounds]. destruct Hin as [->|Hin].
  - exists round. left. reflexivity.
  - destruct (IH (S round) Hin) as (k & Hk). exists k. right. exact Hk.
Qed.

(** X11. A satellite for which [get_next_passes] returns no event (none
    found, none asked for, or a [ValueError] caught) is still drawn by
    [draw_upcoming_passes]: its entry [[0, 0, 0, sat]] has the set time 0,
    which lies before every reading of the clock, so it gets a line, from
    hour 0 to hour [-24 * now] for the reading [now] of its round of the
    loop, labelled with its name. *)
Theorem draw_upcoming_passes_draws_no_pass {satellite : Type}
  (X : Extern satellite) (self : MainApp satellite) (now_passes : Q)
  (now : nat -> Q) (N : Z) (filtered : list sat_data) (v : sat_data)
  (lines : list (list graph_point))
  (Hv : In v filtered)
  (Hnone : get_next_passes X self now_passes (Satellite v) N = Ok [])
  (Hnow : forall round, 0 <= now round)
  (H : draw_upcoming_passes X self now_passes now N filtered = Ok lines) :
  exists round p q,
    In [p; q] lines /\
    gp_x p == 0 /\ gp_x q == - (24 * now round) /\ gp_y p = gp_y q /\
    gp_text q = Some (String " "%char (Satellite v)).
Proof.
  destruct (draw_upcoming_passes_spec X self now_passes now N filtered lines H)
    as (tl & Htl & Hlines).
  assert (Hin : In (0, 0, 0, Satellite v) tl).
  { unfold transit_list_sorted_by_time in Htl.
    destruct (transit_list_loop X self now_passes N filtered []) as [c|e] eqn:Hc;
      simpl in Htl; [|discriminate].
    inversion Htl; subst tl.
    eapply Permutation_in; [apply list_sort_Permutation|].
    eapply transit_list_loop_no_pass; eassumption. }
  destruct (rounds_In tl _ O Hin) as (round & Hround).
  assert (Hsoon : In (round, (0, 0, 0, Satellite v))
                    (List.filter (sets_soon_in now) (rounds 0 tl))).
  { apply List.filter_In. split; [exact Hround|].
    unfold sets_soon_in, sets_soon. cbn [fst snd]. apply lt_true_iff.
    unfold hours_to_show. specialize (Hnow round). lra. }
  destruct (Forall2_In_l _ _ _ _ Hlines Hsoon) as (line & Hline & (alt & Heq)).
  cbn [fst snd] in Heq. subst line.
  exists round. do 2 eexists. split; [exact Hline|]. simpl.
  split; [ring|]. split; [ring|]. split; reflexivity.
Qed.

Lemma draw_upcoming_passes_draws_no_pass_witness :
  exists lines round p q,
    draw_upcoming_passes Demo.extern Demo.app 0 (ticking 2460000) 1
      [Demo.bad; Demo.iss] = Ok lines /\
    In [p; q] lines /\ gp_x q == - (24 * ticking 2460000 round).
Proof.
  assert (Hnone : get_next_passes Demo.extern Demo.app 0 (Satellite Demo.bad) 1
                  = Ok []) by (vm_compute; reflexivity).
  assert (H : draw_upcoming_passes Demo.extern Demo.app 0 (ticking 2460000) 1
                [Demo.bad; Demo.iss] = Ok _) by (vm_compute; reflexivity).
  assert (Hnow : forall round, 0 <= ticking 2460000 round).
  { intros round. unfold ticking.
    assert (0 <= inject_Z (Z.of_nat round) / 86400); [|lra].
    apply Qle_shift_div_l; [reflexivity|].
    change (0 * 86400) with (inject_Z 0). rewrite <- Zle_Qle. lia. }
  destruct (draw_upcoming_passes_draws_no_pass Demo.extern Demo.app 0
              (ticking 2460000) 1 [Demo.bad; Demo.iss] Demo.bad _
              (or_introl eq_refl) Hnone Hnow H)
    as (round & p & q & Hin & _ & Hq & _).
  do 4 eexists. split; [exact H|]. split; [exact Hin|exact Hq].
Defined.

(** ** The polar lines of the next passes *)

Lemma set_last_text_Forall (P : point -> Prop) (text : string) :
  (forall p, P p ->
     P {| pt_r := pt_r p; pt_theta := pt_theta p; pt_colour := pt_colour p;
          pt_size := pt_size p; pt_text := text |}) ->
  forall l, Forall P l -> Forall P (set_last_text l text).
Proof.
  intros HP l. induction 1 as [|p l Hp Hl IH]; [constructor|].
  destruct l as [|q l]; simpl.
  - constructor; [apply HP; exact Hp|constructor].
  - constructor; [exact Hp|exact IH].
Qed.

Lemma points_from_colour {satellite : Type} (X : Extern satellite)
  (colour : string) (tep : Z) (interval : Q) (obs : Q -> Angle * Angle * Q)
  (m : nat) :
  forall t pn,
    Forall (fun p => pt_colour p = colour)
      (points_from X colour tep interval obs t pn m).
Proof.
  induction m as [|m IH]; intros t pn; simpl; constructor;
    [reflexivity|apply IH].
Qed.

(** A call of [create_pass_line] whose stepped times reach the set time
    returns, given enough fuel: some [n] points, all of the colour asked
    for. *)
Lemma create_pass_line_returns {satellite : Type} (X : Extern satellite)
  (self : MainApp satellite) (sat : string) (rise_tt setting_tt interval : Q)
  (colour : string) (tep : Z) (obs : Q -> Angle * Angle * Q) :
  (forall t, get_alt_azimuth X self t sat = Ok (obs t)) ->
  reaches X interval rise_tt setting_tt ->
  exists n pass_line,
    (forall fuel, (n < fuel)%nat ->
       create_pass_line X self fuel sat rise_tt setting_tt interval colour tep
       = Some (Ok pass_line)) /\
    Forall (fun p => pt_colour p = colour) pass_line.
Proof.
  intros Hobs [n0 Hn0].
  destruct (first_reach X interval setting_tt n0 rise_tt Hn0)
    as (n & Hbefore & Hreach).
  set (pts := points_from X colour tep interval obs rise_tt 0%Z n).
  assert (Hcol : Forall (fun p => pt_colour p = colour) pts)
    by apply points_from_colour.
  assert (Hrun : forall fuel, (n < fuel)%nat ->
            pass_line_loop X self fuel sat setting_tt interval colour tep
              [] 0%Z rise_tt None
            = Some (Ok (pts, last_calendar X interval None rise_tt n))).
  { intros fuel Hfuel.
    rewrite (pass_line_loop_run X self sat setting_tt interval colour tep obs
               Hobs n fuel [] 0%Z rise_tt None Hbefore Hreach Hfuel).
    reflexivity. }
  exists n.
  destruct (negb (tep =? 0)%Z && nonempty pts) eqn:Htext.
  - destruct n as [|n'].
    { simpl in Htext. rewrite andb_false_r in Htext. discriminate. }
    exists (set_last_text pts
              (calendar_text X (sample_time X interval rise_tt n'))).
    split.
    + intros fuel Hfuel. unfold create_pass_line. rewrite (Hrun fuel Hfuel).
      rewrite Htext. reflexivity.
    + apply set_last_text_Forall; [|exact Hcol]. intros p Hp. exact Hp.
  - exists pts. split; [|exact Hcol].
    intros fuel Hfuel. unfold create_pass_line. rewrite (Hrun fuel Hfuel).
    rewrite Htext. reflexivity.
Qed.

Lemma colour_of_pass_returns (k : Z) : exists c, colour_of_pass k = Ok c.
Proof.
  unfold colour_of_pass. simpl List.length.
  pose proof (Z.mod_pos_bound k 6 ltac:(lia)) as Hb.
  change (Z.of_nat 6) with 6%Z.
  assert (Hk : (k mod 6 = 0 \/ k mod 6 = 1 \/ k mod 6 = 2 \/ k mod 6 = 3
               \/ k mod 6 = 4 \/ k mod 6 = 5)%Z) by lia.
  destruct Hk as [-> | [-> | [-> | [-> | [-> | ->]]]]];
    eexists; reflexivity.
Qed.

Section NextPasses.

Context {satellite : Type}.
Variable X : Extern satellite.
Variable self : MainApp satellite.
Variable name : string.
Variable obs : Q -> Angle * Angle * Q.
Hypothesis Hobs : forall t, get_alt_azimuth X self t name = Ok (obs t).

(** The rise times and the set times between which the sampling has to
    get through. *)
Variables rises sets : list Q.
Hypothesis Hsteps :
  forall rise_tt setting_tt,
    In rise_tt rises -> In setting_tt sets -> reaches X 30 rise_tt setting_tt.

Lemma passes_loop_runs (pass_list : list pass_event) :
  forall (rise_ts : option Q) (p : Z) (lines polar : list (list point)),
    (0 <= p)%Z ->
    rise_before_set (match rise_ts with Some _ => true | None => false end)
      pass_list = true ->
    (forall rise, rise_ts = Some rise -> In rise rises) ->
    Forall (fun e => In (fst e) rises /\ (snd e = "set"%string -> In (fst e) sets))
      pass_list ->
    exists fuel0 polar',
      (forall fuel, (fuel0 <= fuel)%nat ->
         passes_loop X self fuel name pass_list rise_ts p lines polar
         = Some (Ok (lines ++ (if (p =? 0)%Z then List.firstn 1 polar' else []),
                     polar ++ polar'))) /\
      List.length polar' = count_set pass_list /\
      (forall k line,
         nth_error polar' k = Some line ->
         exists c, colour_of_pass (p + Z.of_nat k) = Ok c /\
                   Forall (fun pnt => pt_colour pnt = c) line).
Proof.
  induction pass_list as [|[ti event_name] rest IH];
    intros rise_ts p lines polar Hp Hrise Hin Hall.
  - exists O, []. simpl. repeat split.
    + intros fuel _. destruct (p =? 0)%Z; rewrite !app_nil_r; reflexivity.
    + intros [|k] line Hk; discriminate.
  - inversion Hall as [|? ? [Hti Hset] Hrest]; subst. cbn [fst snd] in Hti, Hset.
    cbn [passes_loop rise_before_set count_set] in *. unfold is_set. simpl snd.
    destruct (String.eqb event_name "rise") eqn:Hr.
    { assert (Hs : String.eqb event_name "set" = false).
      { apply String.eqb_eq in Hr. subst. reflexivity. }
      rewrite Hs. apply (IH (Some ti) p lines polar Hp Hrise); [|exact Hrest].
      intros rise Hsome. injection Hsome as <-. exact Hti. }
    destruct (String.eqb event_name "set") eqn:Hs.
    2:{ apply (IH rise_ts p lines polar Hp Hrise Hin Hrest). }
    destruct rise_ts as [rise|]; [|discriminate].
    simpl in Hrise. apply String.eqb_eq in Hs.
    destruct (colour_of_pass_returns p) as [c Hc].
    destruct (create_pass_line_returns X self name rise ti 30 c 4 obs Hobs
                (Hsteps rise ti (Hin rise eq_refl) (Hset Hs)))
      as (n & line & Hline & Hcol).
    unfold colour_of_pass in Hc.
    destruct (Z.eqb_spec p 0) as [->|Hp0].
    + (* the first pass: two calls with the colour of index 0 *)
      change (0 mod Z.of_nat (List.length plot_colours))%Z with 0%Z in *.
      destruct (IH (Some rise) (0 + 1)%Z (lines ++ [line]) (polar ++ [line])
                  ltac:(lia) Hrise Hin Hrest)
        as (fuel0 & polar' & Hrun & Hlen & Hcols).
      exists (Nat.max (S n) fuel0), (line :: polar').
      split; [|split].
      * intros fuel Hfuel. rewrite Hc.
        rewrite (Hline fuel ltac:(lia)). rewrite (Hrun fuel ltac:(lia)).
        simpl. rewrite <- !app_assoc. rewrite app_nil_r. reflexivity.
      * simpl. rewrite Hlen. reflexivity.
      * intros [|k] line' Hk; simpl in Hk.
        -- inversion Hk; subst line'. exists c. split; [exact Hc|exact Hcol].
        -- destruct (Hcols k line' Hk) as (c' & Hc' & Hcol').
           exists c'. split; [|exact Hcol'].
           replace (0 + Z.of_nat (S k))%Z with (0 + 1 + Z.of_nat k)%Z by lia.
           exact Hc'.
    + destruct (IH (Some rise) (p + 1)%Z lines (polar ++ [line])
                  ltac:(lia) Hrise Hin Hrest)
        as (fuel0 & polar' & Hrun & Hlen & Hcols).
      exists (Nat.max (S n) fuel0), (line :: polar').
      split; [|split].
      * intros fuel Hfuel. rewrite Hc.
        rewrite (Hline fuel ltac:(lia)). rewrite (Hrun fuel ltac:(lia)).
        destruct (Z.eqb_spec (p + 1) 0) as [Hz|_]; [lia|].
        rewrite <- !app_assoc. reflexivity.
      * simpl. rewrite Hlen. reflexivity.
      * intros [|k] line' Hk; simpl in Hk.
        -- inversion Hk; subst line'. exists c. split; [|exact Hcol].
           unfold colour_of_pass. rewrite Z.add_0_r. exact Hc.
        -- destruct (Hcols k line' Hk) as (c' & Hc' & Hcol').
           exists c'. split; [|exact Hcol'].
           replace (p + Z.of_nat (S k))%Z with (p + 1 + Z.of_nat k)%Z by lia.
           exact Hc'.
Qed.

End NextPasses.

Lemma rise_before_set_bound (pass_list : list pass_event) :
  rise_before_set true pass_list = true.
Proof.
  induction pass_list as [|[ti event_name] rest IH]; simpl; [reflexivity|].
  destruct (String.eqb event_name "rise"); [exact IH|].
  destruct (String.eqb event_name "set"); exact IH.
Qed.

Lemma pass_list_to_draw_rise_first (now : Q) (pass_list drawn : list pass_event) :
  pass_list_to_draw now pass_list = Some drawn ->
  rise_before_set false drawn = true /\ count_set drawn = count_set pass_list /\
  Forall (fun e => In (fst e) (now :: List.map fst pass_list) /\
                   (snd e = "set"%string -> In (fst e) (List.map fst pass_list)))
    drawn.
Proof.
  assert (Hall : Forall (fun e => In (fst e) (now :: List.map fst pass_list) /\
                   (snd e = "set"%string -> In (fst e) (List.map fst pass_list)))
                   pass_list).
  { apply List.Forall_forall. intros e He.
    split; [right|intros _]; apply in_map, He. }
  destruct pass_list as [|[ti event_name] rest]; simpl; [discriminate|].
  destruct (String.eqb event_name "rise") eqn:Hr; simpl; intros H;
    inversion H; subst drawn; simpl; rewrite ?Hr.
  - split; [apply rise_before_set_bound|]. split; [reflexivity|exact Hall].
  - split; [|split; [reflexivity|]].
    + destruct (String.eqb event_name "set"); apply rise_before_set_bound.
    + constructor; [|exact Hall]. split; [left; reflexivity|discriminate].
Qed.

(** X12. With observations that raise nothing, a sampling that gets from
    every rise time of the list (and from now) to every set time of the
    list, and enough fuel, [draw_next_passes_for_selected_satellite]
    returns without drawing when the pass list is empty; otherwise it hands
    the next-passes graph one polar line for each 'set' event of the pass
    list, line [k] in the colour [plot_colours[k % 6]], and the current-pass
    graph the first of these lines alone.  It never meets an unbound
    [rise_ts]. *)
Theorem draw_next_passes_one_line_per_pass {satellite : Type}
  (X : Extern satellite) (self : MainApp satellite) (now_passes now : Q)
  (name : string) (N : Z) (obs : Q -> Angle * Angle * Q)
  (pass_list : list pass_event)
  (Hobs : forall t, get_alt_azimuth X self t name = Ok (obs t))
  (Hp : get_next_passes X self now_passes name N = Ok pass_list)
  (Hsteps : forall rise_tt setting_tt,
      In rise_tt (now :: List.map fst pass_list) ->
      In setting_tt (List.map fst pass_list) ->
      reaches X 30 rise_tt setting_tt) :
  (pass_list = [] ->
   forall fuel,
     draw_next_passes_for_selected_satellite X self fuel now_passes now name N
     = Some (Ok None)) /\
  (pass_list <> [] ->
   exists fuel0 polar,
     (forall fuel, (fuel0 <= fuel)%nat ->
        draw_next_passes_for_selected_satellite X self fuel now_passes now
          name N
        = Some (Ok (Some (List.firstn 1 polar, polar)))) /\
     List.length polar = count_set pass_list /\
     (forall k line,
        nth_error polar k = Some line ->
        exists c, colour_of_pass (Z.of_nat k) = Ok c /\
                  Forall (fun pnt => pt_colour pnt = c) line)).
Proof.
  unfold draw_next_passes_for_selected_satellite. rewrite Hp. split.
  - intros -> fuel. reflexivity.
  - intros Hne.
    destruct (pass_list_to_draw now pass_list) as [drawn|] eqn:Hd.
    2:{ destruct pass_list as [|[ti event_name] rest]; [congruence|].
        simpl in Hd. destruct (negb (String.eqb event_name "rise"));
          discriminate. }
    destruct (pass_list_to_draw_rise_first now pass_list drawn Hd)
      as (Hrise & Hcount & Htimes).
    destruct (passes_loop_runs X self name obs Hobs
                (now :: List.map fst pass_list) (List.map fst pass_list)
                Hsteps drawn None 0%Z [] [] ltac:(lia) Hrise
                ltac:(discriminate) Htimes)
      as (fuel0 & polar & Hrun & Hlen & Hcols).
    exists fuel0, polar. split; [|split].
    + intros fuel Hfuel. rewrite (Hrun fuel Hfuel). reflexivity.
    + rewrite Hlen. exact Hcount.
    + intros k line Hk. apply (Hcols k line Hk).
Qed.

Lemma draw_next_passes_one_line_per_pass_witness :
  exists fuel0 polar,
    (forall fuel, (fuel0 <= fuel)%nat ->
       draw_next_passes_for_selected_satellite Demo.extern Demo.app fuel
         0 0 "ISS" 2
       = Some (Ok (Some (List.firstn 1 polar, polar)))) /\
    List.length polar = 2%nat.
Proof.
  assert (Hp : get_next_passes Demo.extern Demo.app 0 "ISS" 2 = Ok _)
    by (vm_compute; reflexivity).
  assert (Hsteps : forall rise_tt setting_tt : Q,
             reaches Demo.extern 30 rise_tt setting_tt).
  { intros rise_tt setting_tt.
    apply (exact_reaches Demo.extern demo_exact_arithmetic). reflexivity. }
  destruct (proj2 (draw_next_passes_one_line_per_pass Demo.extern Demo.app 0 0
                     "ISS" 2 demo_obs _ demo_get_alt_azimuth Hp
                     (fun r s _ _ => Hsteps r s))
              ltac:(discriminate))
    as (fuel0 & polar & Hrun & Hlen & _).
  exists fuel0, polar. split; [exact Hrun|exact Hlen].
Defined.

(** In binary64 the sampling of the first pass of [Demo], every 30 s from
    0.1 day on, gets to its set time at 0.3 day. *)
Remark binary64_reaches_first_pass :
  reaches binary64 30 (1 # 10) (3 # 10).
Proof. exists 600%nat. vm_compute. discriminate. Qed.

(** *** The satellite list *)

Lemma str_lstrip_lstripped (s : string) : lstripped (str_lstrip s).
Proof.
  induction s as [|c rest IH]; simpl; [exact I|].
  destruct (isspace c) eqn:Hc; [exact IH|]. simpl. exact Hc.
Qed.

Lemma str_lstrip_of_lstripped (s : string) :
  lstripped s -> str_lstrip s = s.
Proof.
  destruct s as [|c rest]; simpl; [reflexivity|]. intros ->. reflexivity.
Qed.

Lemma str_rstrip_lstripped (s : string) :
  lstripped s -> lstripped (str_rstrip s).
Proof.
  destruct s as [|c rest]; simpl; [trivial|]. intros Hc.
  destruct (str_rstrip rest); [rewrite Hc|]; simpl; exact Hc.
Qed.

Lemma str_rstrip_idem (s : string) : str_rstrip (str_rstrip s) = str_rstrip s.
Proof.
  induction s as [|c rest IH]; simpl; [reflexivity|].
  destruct (str_rstrip rest) as [|c' kept] eqn:Hr.
  - destruct (isspace c) eqn:Hc; simpl; [reflexivity|].
    rewrite Hc. reflexivity.
  - change (str_rstrip (String c (String c' kept)))
      with (match str_rstrip (String c' kept) with
            | EmptyString =>
                if isspace c then EmptyString else String c EmptyString
            | kept' => String c kept'
            end).
    rewrite IH. reflexivity.
Qed.

Lemma str_strip_idem (s : string) : str_strip (str_strip s) = str_strip s.
Proof.
  unfold str_strip.
  rewrite (str_lstrip_of_lstripped (str_rstrip (str_lstrip s))).
  - apply str_rstrip_idem.
  - apply str_rstrip_lstripped, str_lstrip_lstripped.
Qed.

Lemma file_lines_stripped (raw : list string) (csv : string) :
  In csv (file_lines raw) -> str_strip csv = csv.
Proof.
  unfold file_lines. rewrite in_map_iff. intros (r & <- & _).
  apply str_strip_idem.
Qed.

Lemma filter_active_spec (csv : string) :
  filter_active csv = if full_line csv then Ok true else Raise IndexError.
Proof.
  unfold filter_active, full_line, index.
  set (t := str_split ";" csv).
  change ((7 <? 0)%Z) with false. cbv iota.
  change ((7 <? 0)%Z) with false. rewrite orb_false_l.
  change (Z.to_nat 7) with 7%nat.
  destruct (Nat.leb_spec 8 (List.length t)) as [Hlen|Hlen].
  - replace ((Z.of_nat (List.length t) <=? 7)%Z) with false
      by (symmetry; apply Z.leb_gt; lia).
    destruct (nth_error t 7) as [status|] eqn:Hn.
    + simpl. rewrite orb_true_r. reflexivity.
    + apply nth_error_None in Hn. lia.
  - replace ((Z.of_nat (List.length t) <=? 7)%Z) with true
      by (symmetry; apply Z.leb_le; lia).
    reflexivity.
Qed.

Lemma active_sats_loop_spec (lines : list string) :
  active_sats_loop lines
  = if forallb full_line lines then Ok (List.map csv_row_of lines)
    else Raise IndexError.
Proof.
  induction lines as [|csv rest IH]; simpl; [reflexivity|].
  rewrite filter_active_spec.
  destruct (full_line csv); simpl; [|reflexivity].
  rewrite IH. destruct (forallb full_line rest); reflexivity.
Qed.

Lemma csv_row_of_complete (csv : string) :
  full_line csv = true -> str_strip csv = csv -> complete (csv_row_of csv).
Proof.
  unfold full_line, complete, csv_row_of. intros Hlen ->.
  apply Nat.leb_le in Hlen.
  rewrite <- (List.length_map str_strip) in Hlen.
  destruct (List.map str_strip (str_split ";" csv))
    as [|f0 [|f1 [|f2 [|f3 [|f4 [|f5 [|f6 [|f7 more]]]]]]]];
    simpl in Hlen; try lia.
  reflexivity.
Qed.

Lemma complete_inv (r : csv_row) :
  complete r ->
  exists v0 v1 v2 v3 v4 v5 v6 v7,
    r = [("Satellite", v0); ("Number", v1); ("Uplink", v2); ("Downlink", v3);
         ("Beacon", v4); ("Mode", v5); ("Callsign", v6); ("Status", v7)]%string.
Proof.
  unfold complete, csv_field_names. intros H.
  do 8 (destruct r as [|[? ?] r]; [discriminate|];
        simpl in H; injection H as <- H).
  destruct r; [|discriminate]. do 8 eexists. reflexivity.
Qed.

Lemma complete_number (r : csv_row) :
  complete r -> dict_get "Number" r = Ok (value_of "Number" r).
Proof.
  intros H. destruct (complete_inv r H) as (v0&v1&v2&v3&v4&v5&v6&v7&->).
  reflexivity.
Qed.

Lemma complete_make_sat_dict (r : csv_row) :
  complete r ->
  exists sd,
    make_sat_dict r = Ok sd /\
    d_Satellite sd = value_of "Satellite" r /\
    d_Number sd = value_of "Number" r /\
    d_Callsign sd = value_of "Callsign" r /\
    d_Status sd = value_of "Status" r.
Proof.
  intros H. destruct (complete_inv r H) as (v0&v1&v2&v3&v4&v5&v6&v7&->).
  eexists. split; [reflexivity|]. repeat split.
Qed.

Lemma csv_row_eq_iff (a b : csv_row) : csv_row_eq a b = true <-> a = b.
Proof.
  revert b. induction a as [|[k v] a IH]; intros [|[k' v'] b]; simpl;
    try (split; [discriminate|congruence]); [tauto|].
  rewrite !andb_true_iff, !String.eqb_eq, IH.
  split; [intros [[-> ->] ->]; reflexivity|].
  intros H; injection H as -> -> ->. auto.
Qed.

Lemma countb_cons {A : Type} (p : A -> bool) (x : A) (l : list A) :
  countb p (x :: l) = ((if p x then 1 else 0) + countb p l)%nat.
Proof. unfold countb. simpl. destruct (p x); reflexivity. Qed.

Lemma countb_pos {A : Type} (p : A -> bool) (l : list A) :
  (0 < countb p l)%nat -> exists y, In y l /\ p y = true.
Proof.
  induction l as [|x l IH]; [unfold countb; simpl; lia|].
  rewrite countb_cons. destruct (p x) eqn:Hx.
  - intros _. exists x. split; [left; reflexivity|exact Hx].
  - intros H. destruct (IH H) as (y & Hy & Hp).
    exists y. split; [right; exact Hy|exact Hp].
Qed.

Lemma In_countb_pos {A : Type} (p : A -> bool) (l : list A) (y : A) :
  In y l -> p y = true -> (0 < countb p l)%nat.
Proof.
  induction l as [|x l IH]; [intros []|].
  rewrite countb_cons. intros [->|Hy] Hp.
  - rewrite Hp. lia.
  - specialize (IH Hy Hp). lia.
Qed.

Lemma list_remove_row_spec (x : csv_row) (l : list csv_row) :
  In x l ->
  exists l',
    list_remove_row x l = Ok l' /\
    (forall p, countb p l = ((if p x then 1 else 0) + countb p l')%nat) /\
    (forall y, In y l' -> In y l).
Proof.
  induction l as [|y rest IH]; [intros []|]. intros Hin. simpl.
  destruct (csv_row_eq y x) eqn:Heq.
  - apply csv_row_eq_iff in Heq. subst y. exists rest.
    split; [reflexivity|]. split; [intros p; apply countb_cons|].
    intros z Hz. right. exact Hz.
  - destruct Hin as [->|Hin].
    + assert (csv_row_eq x x = true) by (apply csv_row_eq_iff; reflexivity).
      congruence.
    + destruct (IH Hin) as (l' & -> & Hcount & Hsub). exists (y :: l').
      split; [reflexivity|]. split.
      * intros p. rewrite !countb_cons, (Hcount p). lia.
      * intros z [->|Hz]; [left; reflexivity|right; apply Hsub, Hz].
Qed.

Lemma str_in_app (x : string) (l1 l2 : list string) :
  str_in x (l1 ++ l2) = str_in x l1 || str_in x l2.
Proof.
  induction l1 as [|y l1 IH]; simpl; [reflexivity|].
  rewrite IH, orb_assoc. reflexivity.
Qed.

Lemma dedup_loop_spec (copy : list csv_row) :
  forall (active : list csv_row) (seen : list string),
    Forall complete copy ->
    (forall r, (countb (fun y => csv_row_eq y r) copy
                <= countb (fun y => csv_row_eq y r) active)%nat) ->
    (forall n, countb (has_number n) active
               = ((if str_in n seen then 1 else 0)
                  + countb (has_number n) copy)%nat) ->
    exists final,
      dedup_loop copy active seen = Ok final /\
      (forall y, In y final -> In y active) /\
      (forall n, countb (has_number n) final
                 = if str_in n seen || (0 <? countb (has_number n) copy)%nat
                   then 1%nat else 0%nat).
Proof.
  induction copy as [|sat rest IH]; intros active seen Hall HQ HP.
  - exists active. split; [reflexivity|]. split; [auto|].
    intros n. rewrite (HP n). unfold countb at 1 2. simpl.
    destruct (str_in n seen); reflexivity.
  - inversion Hall as [|? ? Hsat Hrest]; subst.
    cbn [dedup_loop]. rewrite (complete_number sat Hsat). cbn [bind].
    set (m := value_of "Number" sat).
    assert (Hm : forall n, has_number n sat = String.eqb m n) by reflexivity.
    destruct (str_in m seen) eqn:Hseen.
    + assert (Hin : In sat active).
      { pose proof (HQ sat) as Hc. rewrite countb_cons in Hc.
        assert (Hrefl : csv_row_eq sat sat = true)
          by (apply csv_row_eq_iff; reflexivity).
        rewrite Hrefl in Hc.
        destruct (countb_pos (fun y => csv_row_eq y sat) active ltac:(lia))
          as (y & Hy & Heq).
        apply csv_row_eq_iff in Heq. subst y. exact Hy. }
      destruct (list_remove_row_spec sat active Hin)
        as (active' & -> & Hcount & Hsub). cbn [bind].
      destruct (IH active' seen Hrest) as (final & Hrun & Hfin & Hnum).
      * intros r. pose proof (HQ r) as Hc.
        rewrite countb_cons, (Hcount (fun y => csv_row_eq y r)) in Hc. lia.
      * intros n. pose proof (HP n) as Hc.
        rewrite countb_cons, (Hcount (has_number n)) in Hc. lia.
      * exists final. split; [exact Hrun|]. split.
        -- intros y Hy. apply Hsub, Hfin, Hy.
        -- intros n. rewrite (Hnum n), countb_cons, Hm.
           destruct (String.eqb m n) eqn:Hmn.
           ++ apply String.eqb_eq in Hmn. subst n. rewrite Hseen.
              reflexivity.
           ++ reflexivity.
    + destruct (IH active (seen ++ [m]) Hrest) as (final & Hrun & Hfin & Hnum).
      * intros r. pose proof (HQ r) as Hc. rewrite countb_cons in Hc. lia.
      * intros n. pose proof (HP n) as Hc. rewrite countb_cons, Hm in Hc.
        rewrite str_in_app. simpl. rewrite orb_false_r.
        destruct (String.eqb m n) eqn:Hmn.
        -- apply String.eqb_eq in Hmn. subst n. rewrite Hseen in Hc.
           rewrite Hseen. simpl. lia.
        -- rewrite orb_false_r. lia.
      * exists final. split; [exact Hrun|]. split; [exact Hfin|].
        intros n. rewrite (Hnum n), countb_cons, Hm, str_in_app. simpl.
        rewrite orb_false_r.
        destruct (String.eqb m n) eqn:Hmn.
        -- rewrite orb_true_r. simpl. rewrite orb_true_r. reflexivity.
        -- rewrite orb_false_r. reflexivity.
Qed.

Lemma dedup_loop_result (rows : list csv_row) :
  Forall complete rows ->
  exists final,
    dedup_loop rows rows [] = Ok final /\
    (forall y, In y final -> In y rows) /\
    (forall n, countb (has_number n) final
               = if (0 <? countb (has_number n) rows)%nat
                 then 1%nat else 0%nat).
Proof.
  intros Hall.
  destruct (dedup_loop_spec rows rows [] Hall) as (final & Hrun & Hsub & Hnum).
  - intros r. lia.
  - intros n. reflexivity.
  - exists final. split; [exact Hrun|]. split; [exact Hsub|]. exact Hnum.
Qed.

Lemma dict_get_set_same {V : Type} (k : string) (v : V)
  (d : list (string * V)) :
  dict_get k (dict_set k v d) = Ok v.
Proof.
  induction d as [|[k' v'] d IH]; simpl.
  - rewrite String.eqb_refl. reflexivity.
  - destruct (String.eqb k' k) eqn:Hk; simpl; rewrite Hk; auto.
Qed.

Lemma dict_get_set_other {V : Type} (k k0 : string) (v : V)
  (d : list (string * V)) :
  k <> k0 -> dict_get k0 (dict_set k v d) = dict_get k0 d.
Proof.
  intros Hne. induction d as [|[k' v'] d IH]; simpl.
  - destruct (String.eqb k k0) eqn:Hk; [|reflexivity].
    apply String.eqb_eq in Hk. contradiction.
  - destruct (String.eqb k' k) eqn:Hk; simpl.
    + apply String.eqb_eq in Hk. subst k'.
      destruct (String.eqb k k0) eqn:Hk0; [|reflexivity].
      apply String.eqb_eq in Hk0. contradiction.
    + rewrite IH. reflexivity.
Qed.

Lemma dict_set_In {V : Type} (k k0 : string) (v v0 : V)
  (d : list (string * V)) :
  In (k0, v0) (dict_set k v d) -> (k0 = k /\ v0 = v) \/ In (k0, v0) d.
Proof.
  induction d as [|[k' v'] d IH]; simpl.
  - intros [H|[]]. injection H as <- <-. left. auto.
  - destruct (String.eqb k' k) eqn:Hk; simpl.
    + apply String.eqb_eq in Hk. subst k'.
      intros [H|H]; [injection H as <- <-; left; auto|right; right; exact H].
    + intros [H|H]; [right; left; exact H|].
      destruct (IH H) as [Hs|Hd]; [left; exact Hs|right; right; exact Hd].
Qed.

Lemma dict_set_keys {V : Type} (k : string) (v : V) (d : list (string * V)) :
  List.map fst (dict_set k v d) = List.map fst d \/
  (~ In k (List.map fst d) /\
   List.map fst (dict_set k v d) = List.map fst d ++ [k]).
Proof.
  induction d as [|[k' v'] d IH]; simpl.
  - right. split; [tauto|reflexivity].
  - destruct (String.eqb k' k) eqn:Hk; simpl; [left; reflexivity|].
    apply String.eqb_neq in Hk.
    destruct IH as [->|[Hnot ->]]; [left; reflexivity|].
    right. split; [|reflexivity]. intros [H|H]; [contradiction|tauto].
Qed.

Lemma dict_set_values {V : Type} (k : string) (v : V) (d : list (string * V)) :
  List.map snd (dict_set k v d) = List.map snd d ++ [v] \/
  (exists l1 v' l2,
      List.map snd d = l1 ++ v' :: l2 /\
      List.map snd (dict_set k v d) = l1 ++ v :: l2).
Proof.
  induction d as [|[k' v'] d IH]; simpl.
  - left. reflexivity.
  - destruct (String.eqb k' k) eqn:Hk; simpl.
    + right. exists [], v', (List.map snd d). split; reflexivity.
    + destruct IH as [->|(l1 & w & l2 & -> & ->)]; [left; reflexivity|].
      right. exists (v' :: l1), w, l2. split; reflexivity.
Qed.

Lemma NoDup_replace_middle {A : Type} (l1 l2 l3 : list A) (x y : A) :
  List.NoDup (l1 ++ x :: l2 ++ y :: l3) -> List.NoDup (l1 ++ y :: l2 ++ l3).
Proof.
  intros H.
  assert (HP : Permutation (l1 ++ x :: l2 ++ y :: l3)
                 (x :: l1 ++ y :: l2 ++ l3)).
  { apply Permutation_sym. apply Permutation_cons_app.
    apply Permutation_app_head. apply Permutation_cons_app.
    reflexivity. }
  pose proof (Permutation_NoDup HP H) as H'.
  inversion H'. assumption.
Qed.

Lemma make_sat_dict_fields (r : csv_row) (sd : sat_dict) :
  make_sat_dict r = Ok sd ->
  d_Satellite sd = value_of "Satellite" r /\
  d_Number sd = value_of "Number" r /\
  d_Callsign sd = value_of "Callsign" r /\
  d_Status sd = value_of "Status" r.
Proof.
  unfold make_sat_dict, value_of.
  destruct (dict_get "Satellite" r); [|discriminate].
  destruct (dict_get "Number" r); [|discriminate].
  destruct (dict_get "Callsign" r); [|discriminate].
  destruct (dict_get "Status" r); [|discriminate].
  destruct (dict_get "Uplink" r); [|discriminate].
  destruct (dict_get "Downlink" r); [|discriminate].
  destruct (dict_get "Beacon" r); [|discriminate].
  destruct (dict_get "Mode" r); [|discriminate].
  cbn [bind]. intros H. injection H as <-. repeat split.
Qed.

Lemma sats_dict_loop_spec (rest : list csv_row) :
  forall acc : list (string * sat_dict),
    Forall complete rest ->
    exists d,
      sats_dict_loop rest acc = Ok d /\
      (forall k sd,
         In (k, sd) d ->
         In (k, sd) acc \/
         exists r, In r rest /\ make_sat_dict r = Ok sd /\ d_Satellite sd = k) /\
      (List.NoDup (dict_keys acc) -> List.NoDup (dict_keys d)) /\
      (List.NoDup (dict_numbers acc ++ List.map (value_of "Number") rest) ->
       List.NoDup (dict_numbers d)).
Proof.
  induction rest as [|s rest IH]; intros acc Hall.
  - exists acc. split; [reflexivity|]. split; [auto|]. split; [auto|].
    simpl. rewrite app_nil_r. auto.
  - inversion Hall as [|? ? Hs Hrest]; subst.
    destruct (complete_make_sat_dict s Hs) as (sd_s & Hmk & _).
    destruct (make_sat_dict_fields s sd_s Hmk) as (_ & Hnum & _).
    cbn [sats_dict_loop]. rewrite Hmk. cbn [bind].
    destruct (IH (dict_set (d_Satellite sd_s) sd_s acc) Hrest)
      as (d & Hrun & Hin & Hkeys & Hnums).
    exists d. split; [exact Hrun|]. split; [|split].
    + intros k sd Hd. destruct (Hin k sd Hd) as [Hacc|(r & Hr & Hmr & Hk)].
      * destruct (dict_set_In _ _ _ _ _ Hacc) as [[-> ->]|Hold].
        -- right. exists s. split; [left; reflexivity|]. auto.
        -- left. exact Hold.
      * right. exists r. split; [right; exact Hr|]. auto.
    + intros Hnd. apply Hkeys. unfold dict_keys in *.
      destruct (dict_set_keys (d_Satellite sd_s) sd_s acc)
        as [->|[Hnot ->]]; [exact Hnd|].
      apply (Permutation_NoDup
               (Permutation_cons_append (List.map fst acc) (d_Satellite sd_s))).
      constructor; assumption.
    + intros Hnd. apply Hnums. unfold dict_numbers in *.
      simpl in Hnd. rewrite <- Hnum in Hnd.
      destruct (dict_set_values (d_Satellite sd_s) sd_s acc)
        as [->|(l1 & v' & l2 & Hold & ->)].
      * rewrite List.map_app, <- app_assoc. exact Hnd.
      * rewrite Hold in Hnd.
        rewrite List.map_app in Hnd |- *. simpl in Hnd |- *.
        rewrite <- app_assoc in Hnd |- *. simpl in Hnd |- *.
        apply (NoDup_replace_middle _ _ _ _ _ Hnd).
Qed.

Lemma sats_dict_loop_get (r : csv_row) (rest : list csv_row) :
  forall acc : list (string * sat_dict),
    Forall complete rest ->
    (forall y, In y rest ->
       value_of "Satellite" y = value_of "Satellite" r -> y = r) ->
    In r rest \/ dict_get (value_of "Satellite" r) acc = make_sat_dict r ->
    exists d,
      sats_dict_loop rest acc = Ok d /\
      dict_get (value_of "Satellite" r) d = make_sat_dict r.
Proof.
  induction rest as [|s rest IH]; intros acc Hall Huniq Hr.
  - exists acc. split; [reflexivity|]. destruct Hr as [[]|Hr]. exact Hr.
  - inversion Hall as [|? ? Hs Hrest]; subst.
    destruct (complete_make_sat_dict s Hs) as (sd_s & Hmk & Hname & _).
    cbn [sats_dict_loop]. rewrite Hmk. cbn [bind].
    apply IH; [exact Hrest|intros y Hy; apply Huniq; right; exact Hy|].
    destruct (String.eqb (d_Satellite sd_s) (value_of "Satellite" r)) eqn:Hk.
    + apply String.eqb_eq in Hk. right. rewrite <- Hk, dict_get_set_same.
      rewrite Hname in Hk.
      rewrite <- (Huniq s (or_introl eq_refl) Hk). symmetry. exact Hmk.
    + apply String.eqb_neq in Hk.
      destruct Hr as [[->|Hr]|Hr].
      * rewrite Hname in Hk. contradiction.
      * left. exact Hr.
      * right. rewrite dict_get_set_other; [exact Hr|exact Hk].
Qed.

Lemma forallb_full_line (lines : list string) :
  (forallb full_line lines = true ->
   Forall (fun csv => full_line csv = true) lines) /\
  (forallb full_line lines = false ->
   Exists (fun csv => full_line csv = false) lines).
Proof.
  induction lines as [|csv rest [IHt IHf]]; simpl.
  - split; [constructor|discriminate].
  - destruct (full_line csv) eqn:Hc; simpl; split; intros H.
    + constructor; [exact Hc|apply IHt, H].
    + apply Exists_cons_tl, IHf, H.
    + discriminate.
    + apply Exists_cons_hd, Hc.
Qed.

Lemma rows_complete (raw : list string) :
  forallb full_line (file_lines raw) = true ->
  Forall complete (List.map csv_row_of (file_lines raw)).
Proof.
  intros Hfull. apply List.Forall_forall. intros r Hr.
  apply in_map_iff in Hr. destruct Hr as (csv & <- & Hcsv).
  apply csv_row_of_complete.
  - rewrite forallb_forall in Hfull. apply Hfull, Hcsv.
  - apply (file_lines_stripped raw), Hcsv.
Qed.

Lemma row_fields (csv : string) :
  full_line csv = true -> str_strip csv = csv ->
  value_of "Satellite" (csv_row_of csv) = csv_field 0 csv /\
  value_of "Number" (csv_row_of csv) = csv_field 1 csv /\
  value_of "Callsign" (csv_row_of csv) = csv_field 6 csv /\
  value_of "Status" (csv_row_of csv) = csv_field 7 csv.
Proof.
  unfold full_line, csv_row_of, csv_field. intros Hlen Hs. rewrite Hs.
  apply Nat.leb_le in Hlen.
  rewrite <- (List.length_map str_strip) in Hlen.
  destruct (List.map str_strip (str_split ";" csv))
    as [|f0 [|f1 [|f2 [|f3 [|f4 [|f5 [|f6 [|f7 more]]]]]]]];
    simpl in Hlen; try lia.
  repeat split.
Qed.

Lemma countb_NoDup (l : list csv_row) :
  (forall n, (countb (has_number n) l <= 1)%nat) ->
  List.NoDup (List.map (value_of "Number") l).
Proof.
  induction l as [|x l IH]; intros Hc; simpl; constructor.
  - intros Hin. apply in_map_iff in Hin. destruct Hin as (y & Hy & Hin).
    pose proof (Hc (value_of "Number" x)) as H1. rewrite countb_cons in H1.
    unfold has_number at 1 in H1. rewrite String.eqb_refl in H1.
    assert (0 < countb (has_number (value_of "Number" x)) l)%nat.
    { apply (In_countb_pos _ l y Hin). unfold has_number. rewrite Hy.
      apply String.eqb_refl. }
    lia.
  - apply IH. intros n. pose proof (Hc n) as H1. rewrite countb_cons in H1.
    lia.
Qed.

(** X13. [on_pushButtonDownloadSatInfo_clicked] builds the satellite dict
    exactly when every line of [satslist.csv] has at least eight fields;
    one line with fewer (a blank line is one) makes it raise [IndexError],
    and it raises nothing else. *)
Theorem download_needs_eight_fields (raw : list string) :
  match on_pushButtonDownloadSatInfo_clicked raw with
  | Ok _ => Forall (fun csv => full_line csv = true) (file_lines raw)
  | Raise e =>
      e = IndexError /\
      Exists (fun csv => full_line csv = false) (file_lines raw)
  end.
Proof.
  unfold on_pushButtonDownloadSatInfo_clicked.
  rewrite active_sats_loop_spec.
  destruct (forallb full_line (file_lines raw)) eqn:Hfull; cbn [bind].
  - destruct (dedup_loop_result _ (rows_complete raw Hfull))
      as (final & -> & Hsub & _). cbn [bind].
    assert (Hfinal : Forall complete final).
    { apply List.Forall_forall. intros y Hy.
      pose proof (rows_complete raw Hfull) as Hall.
      rewrite List.Forall_forall in Hall. apply Hall, Hsub, Hy. }
    destruct (sats_dict_loop_spec final [] Hfinal) as (d & -> & _).
    apply forallb_full_line, Hfull.
  - split; [reflexivity|]. apply forallb_full_line, Hfull.
Qed.

Lemma row_of_line (raw : list string) (y : csv_row) :
  Forall (fun csv => full_line csv = true) (file_lines raw) ->
  In y (List.map csv_row_of (file_lines raw)) ->
  exists csv,
    In csv (file_lines raw) /\ y = csv_row_of csv /\
    value_of "Satellite" y = csv_field 0 csv /\
    value_of "Number" y = csv_field 1 csv /\
    value_of "Status" y = csv_field 7 csv.
Proof.
  intros Hfull Hy. apply in_map_iff in Hy. destruct Hy as (csv & <- & Hcsv).
  rewrite List.Forall_forall in Hfull.
  destruct (row_fields csv (Hfull csv Hcsv) (file_lines_stripped raw csv Hcsv))
    as (H0 & H1 & _ & H7).
  exists csv. auto.
Qed.

(** X14. The status of a line is not looked at: when every line has eight
    fields, a line whose name and number no different line shares gets its
    entry in the satellite dict under its name, with its number and its
    status, whatever the status is. *)
Theorem download_keeps_every_status (raw : list string) (line : string)
  (Hfull : Forall (fun csv => full_line csv = true) (file_lines raw))
  (Hin : In line (file_lines raw))
  (Huniq : forall csv,
      In csv (file_lines raw) ->
      csv_field 0 csv = csv_field 0 line \/ csv_field 1 csv = csv_field 1 line ->
      csv_row_of csv = csv_row_of line) :
  exists d sd,
    on_pushButtonDownloadSatInfo_clicked raw = Ok d /\
    dict_get (csv_field 0 line) d = Ok sd /\
    make_sat_dict (csv_row_of line) = Ok sd /\
    d_Satellite sd = csv_field 0 line /\
    d_Number sd = csv_field 1 line /\
    d_Status sd = csv_field 7 line.
Proof.
  assert (Hb : forallb full_line (file_lines raw) = true)
    by (apply forallb_forall; rewrite List.Forall_forall in Hfull; exact Hfull).
  pose proof (rows_complete raw Hb) as Hall.
  assert (Hline : full_line line = true)
    by (rewrite List.Forall_forall in Hfull; apply Hfull, Hin).
  destruct (row_fields line Hline (file_lines_stripped raw line Hin))
    as (Hname & Hnumber & _ & Hstatus).
  assert (Hr : In (csv_row_of line) (List.map csv_row_of (file_lines raw)))
    by (apply in_map, Hin).
  assert (Hrows : forall y,
             In y (List.map csv_row_of (file_lines raw)) ->
             value_of "Satellite" y = value_of "Satellite" (csv_row_of line) \/
             value_of "Number" y = value_of "Number" (csv_row_of line) ->
             y = csv_row_of line).
  { intros y Hy Hy2.
    destruct (row_of_line raw y Hfull Hy) as (csv & Hcsv & -> & H0 & H1 & _).
    apply (Huniq csv Hcsv). rewrite <- H0, <- H1, <- Hname, <- Hnumber.
    exact Hy2. }
  unfold on_pushButtonDownloadSatInfo_clicked.
  rewrite active_sats_loop_spec, Hb. cbn [bind].
  destruct (dedup_loop_result _ Hall) as (final & -> & Hsub & Hnum).
  cbn [bind].
  assert (Hfinal : Forall complete final).
  { apply List.Forall_forall. intros y Hy.
    rewrite List.Forall_forall in Hall. apply Hall, Hsub, Hy. }
  assert (Hrf : In (csv_row_of line) final).
  { pose proof (Hnum (value_of "Number" (csv_row_of line))) as Hc.
    assert (Hpos : (0 < countb (has_number (value_of "Number" (csv_row_of line)))
                          (List.map csv_row_of (file_lines raw)))%nat).
    { apply (In_countb_pos _ _ _ Hr). unfold has_number.
      apply String.eqb_refl. }
    apply Nat.ltb_lt in Hpos. rewrite Hpos in Hc.
    destruct (countb_pos (has_number (value_of "Number" (csv_row_of line)))
                final ltac:(lia)) as (y & Hy & Hyn).
    unfold has_number in Hyn. apply String.eqb_eq in Hyn.
    rewrite <- (Hrows y (Hsub y Hy) (or_intror Hyn)). exact Hy. }
  destruct (sats_dict_loop_get (csv_row_of line) final [] Hfinal)
    as (d & Hrun & Hget).
  { intros y Hy Hyn. apply (Hrows y (Hsub y Hy)). left. exact Hyn. }
  { left. exact Hrf. }
  assert (Hc : complete (csv_row_of line))
    by (rewrite List.Forall_forall in Hall; apply Hall, Hr).
  destruct (complete_make_sat_dict _ Hc) as (sd & Hmk & Hs & Hn & _ & Hst).
  exists d, sd. split; [exact Hrun|]. split.
  { rewrite <- Hname, Hget. exact Hmk. }
  split; [exact Hmk|]. rewrite Hs, Hn, Hst. auto.
Qed.

Lemma download_keeps_every_status_witness :
  exists d sd,
    on_pushButtonDownloadSatInfo_clicked demo_csv = Ok d /\
    dict_get "AO-7" d = Ok sd /\
    d_Number sd = "7530"%string /\ d_Status sd = "inactive"%string.
Proof.
  destruct (download_keeps_every_status demo_csv
              "AO-7;7530;432.125-432.175;145.975-145.925;145.970;A/B;;inactive")
    as (d & sd & Hrun & Hget & _ & _ & Hn & Hs).
  - repeat constructor.
  - left. reflexivity.
  - intros csv [<-|[<-|[<-|[]]]] [H|H]; vm_compute in H;
      try discriminate; reflexivity.
  - exists d, sd. split; [exact Hrun|]. split; [exact Hget|].
    split; [exact Hn|exact Hs].
Defined.

(** X15. In the satellite dict that is written no two entries share a key
    or a number, and every entry stands under the name it holds and is the
    dict of one line of the file. *)
Theorem download_numbers_distinct (raw : list string)
  (d : list (string * sat_dict))
  (H : on_pushButtonDownloadSatInfo_clicked raw = Ok d) :
  List.NoDup (dict_keys d) /\
  List.NoDup (dict_numbers d) /\
  (forall k sd,
     In (k, sd) d ->
     d_Satellite sd = k /\
     exists csv,
       In csv (file_lines raw) /\ make_sat_dict (csv_row_of csv) = Ok sd).
Proof.
  unfold on_pushButtonDownloadSatInfo_clicked in H.
  rewrite active_sats_loop_spec in H.
  destruct (forallb full_line (file_lines raw)) eqn:Hb; [|discriminate].
  cbn [bind] in H. pose proof (rows_complete raw Hb) as Hall.
  destruct (dedup_loop_result _ Hall) as (final & Hdedup & Hsub & Hnum).
  rewrite Hdedup in H. cbn [bind] in H.
  assert (Hfinal : Forall complete final).
  { apply List.Forall_forall. intros y Hy.
    rewrite List.Forall_forall in Hall. apply Hall, Hsub, Hy. }
  destruct (sats_dict_loop_spec final [] Hfinal)
    as (d' & Hrun & Hin & Hkeys & Hnums).
  rewrite Hrun in H. injection H as ->.
  split; [apply Hkeys; constructor|]. split.
  - apply Hnums. simpl. apply countb_NoDup. intros n. rewrite (Hnum n).
    destruct (0 <? _)%nat; lia.
  - intros k sd Hd. destruct (Hin k sd Hd) as [[]|(r & Hr & Hmk & Hk)].
    split; [exact Hk|]. apply Hsub, in_map_iff in Hr.
    destruct Hr as (csv & <- & Hcsv). exists csv. auto.
Qed.

Lemma download_numbers_distinct_witness :
  exists d,
    on_pushButtonDownloadSatInfo_clicked demo_csv = Ok d /\
    List.NoDup (dict_numbers d) /\ List.length d = 2%nat.
Proof.
  eexists. split; [vm_compute; reflexivity|]. split; [|reflexivity].
  apply (download_numbers_distinct demo_csv). vm_compute. reflexivity.
Defined.

(** *** The satellites with TLEs *)

#[local] Arguments String.append !s1 s2.

Lemma str_append_nil_r (s : string) : String.append s EmptyString = s.
Proof. induction s as [|c s IH]; simpl; [reflexivity|rewrite IH; reflexivity]. Qed.

Lemma str_append_assoc (a b c : string) :
  String.append (String.append a b) c = String.append a (String.append b c).
Proof. induction a as [|x a IH]; simpl; [reflexivity|rewrite IH; reflexivity]. Qed.

Lemma prefix_app (x b : string) : String.prefix x (String.append x b) = true.
Proof.
  induction x as [|c x IH]; simpl; [destruct b; reflexivity|].
  destruct (ascii_dec c c); [exact IH|contradiction].
Qed.

Lemma prefix_inv (x : string) :
  forall s, String.prefix x s = true -> exists b, s = String.append x b.
Proof.
  induction x as [|c x IH]; intros s.
  - intros _. exists s. reflexivity.
  - destruct s as [|c' s]; simpl; [discriminate|].
    destruct (ascii_dec c c') as [<-|]; [|discriminate].
    intros H. destruct (IH s H) as (b & ->). exists b. reflexivity.
Qed.

Lemma str_contains_iff (x s : string) :
  str_contains x s = true <-> substring x s.
Proof.
  unfold substring. split.
  - induction s as [|c s IH].
    + cbn [str_contains]. rewrite orb_false_r. intros H.
      destruct (prefix_inv x _ H) as (b & Hb). exists EmptyString, b. exact Hb.
    + cbn [str_contains]. intros H. apply orb_true_iff in H.
      destruct H as [H|H].
      * destruct (prefix_inv x _ H) as (b & Hb). exists EmptyString, b.
        exact Hb.
      * destruct (IH H) as (a & b & ->). exists (String c a), b. reflexivity.
  - intros (a & b & ->). induction a as [|c a IH].
    + simpl. pose proof (prefix_app x b) as H.
      destruct (String.append x b); cbn [str_contains]; rewrite H; reflexivity.
    + simpl. cbn [str_contains]. rewrite IH. apply orb_true_r.
Qed.

Lemma substring_trans (x y z : string) :
  substring x y -> substring y z -> substring x z.
Proof.
  intros (a & b & ->) (a' & b' & ->).
  exists (String.append a' a), (String.append b b').
  rewrite !str_append_assoc. reflexivity.
Qed.

Lemma str_join_In (sep k : string) (l : list string) :
  In k l -> substring k (str_join sep l).
Proof.
  induction l as [|x rest IH]; [intros []|].
  intros Hin. cbn [str_join]. destruct rest as [|y rest'].
  - destruct Hin as [->|[]]. exists EmptyString, EmptyString.
    simpl. symmetry. apply str_append_nil_r.
  - destruct Hin as [->|Hin].
    + exists EmptyString. eexists. reflexivity.
    + destruct (IH Hin) as (a & b & ->).
      exists (String.append x (String.append sep a)), b.
      rewrite !str_append_assoc. reflexivity.
Qed.

Lemma int_dict_set_keys {V : Type} (k k0 : Z) (v : V) (d : list (Z * V)) :
  In k0 (List.map fst (int_dict_set k v d)) <->
  k0 = k \/ In k0 (List.map fst d).
Proof.
  induction d as [|[k' v'] d IH]; simpl.
  - split; [intros [<-|[]]; auto|intros [->|[]]; auto].
  - destruct (Z.eqb_spec k' k) as [->|Hne]; simpl.
    + split; intros H; repeat destruct H as [H|H]; subst; auto.
    + rewrite IH. tauto.
Qed.

Section SetUpFacts.

Context {satellite : Type}.
Variable satnum : satellite -> Z.

Lemma numbers_of_keys (objs : list satellite) :
  forall (d : list (Z * satellite)) (k : Z),
    In k (List.map fst d) \/ (exists sat, In sat objs /\ satnum sat = k) ->
    In k (List.map fst
            (fold_left (fun d sat => int_dict_set (satnum sat) sat d) objs d)).
Proof.
  induction objs as [|sat objs IH]; intros d k H; simpl.
  - destruct H as [H|(sat & [] & _)]. exact H.
  - apply IH. destruct H as [H|(sat' & [<-|Hin] & Hk)].
    + left. apply int_dict_set_keys. right. exact H.
    + left. apply int_dict_set_keys. left. symmetry. exact Hk.
    + right. exists sat'. auto.
Qed.

Lemma classic_objs (objs : list satellite) (n : Z) :
  (exists sat, In sat objs /\ satnum sat = n) \/
  (forall sat, In sat objs -> satnum sat <> n).
Proof.
  induction objs as [|sat objs [(sat' & Hin & Hk)|Hnone]].
  - right. intros sat [].
  - left. exists sat'. split; [right; exact Hin|exact Hk].
  - destruct (Z.eq_dec (satnum sat) n) as [Hk|Hk].
    + left. exists sat. split; [left; reflexivity|exact Hk].
    + right. intros sat' [<-|Hin]; [exact Hk|apply Hnone, Hin].
Qed.

Lemma by_number_of_fold (objs : list satellite) :
  forall (m : gmap Z satellite) (n : Z),
    let m' := fold_left (fun d sat => <[satnum sat := sat]> d) objs m in
    ((forall sat, In sat objs -> satnum sat <> n) -> m' !! n = m !! n) /\
    ((exists sat, In sat objs /\ satnum sat = n) ->
     exists sat', m' !! n = Some sat' /\ In sat' objs /\ satnum sat' = n).
Proof.
  induction objs as [|sat objs IH]; intros m n; simpl.
  - split; [reflexivity|]. intros (sat & [] & _).
  - destruct (IH (<[satnum sat := sat]> m) n) as [IHno IHsome]. split.
    + intros Hno. rewrite IHno.
      * apply lookup_insert_ne. apply Hno. left. reflexivity.
      * intros sat' Hin. apply Hno. right. exact Hin.
    + intros Hex.
      destruct (classic_objs objs n) as [Hlater|Hnone].
      * destruct (IHsome Hlater) as (sat' & Hl & Hin & Hk).
        exists sat'. auto.
      * rewrite (IHno Hnone).
        destruct Hex as (sat0 & [<-|Hin] & Hk).
        -- exists sat. rewrite <- Hk, lookup_insert_eq. auto.
        -- exfalso. apply (Hnone sat0 Hin Hk).
Qed.

End SetUpFacts.

Lemma dict_get_keys {V : Type} (s : string) (d : list (string * V)) :
  (forall v, dict_get s d = Ok v -> str_in s (List.map fst d) = true) /\
  (In s (List.map fst d) -> exists v, dict_get s d = Ok v).
Proof.
  induction d as [|[k v'] d [IHget IHin]]; simpl.
  - split; [discriminate|intros []].
  - destruct (String.eqb k s) eqn:Hk; simpl.
    + split; [reflexivity|]. intros _. exists v'. reflexivity.
    + split; [exact IHget|]. intros [->|Hin]; [|exact (IHin Hin)].
      rewrite String.eqb_refl in Hk. discriminate.
Qed.

Lemma satellites_loop_spec (keys : string) (data : list (string * sat_dict))
  (names : list string) :
  forall acc : gmap string sat_data,
    (forall s, In s names -> exists v, dict_get s data = Ok v) ->
    exists m,
      satellites_loop keys data names acc = Ok m /\
      forall s,
        m !! s = match dict_get s data with
                 | Ok v =>
                     if str_in s names && str_contains (d_Number v) keys
                     then Some (sat_data_of v) else acc !! s
                 | Raise _ => acc !! s
                 end.
Proof.
  induction names as [|s0 rest IH]; intros acc Hkeys.
  - exists acc. split; [reflexivity|]. intros s.
    destruct (dict_get s data); reflexivity.
  - destruct (Hkeys s0 (or_introl eq_refl)) as (v0 & Hv0).
    cbn [satellites_loop]. rewrite Hv0. cbn [bind].
    assert (Hrest : forall s, In s rest -> exists v, dict_get s data = Ok v)
      by (intros s Hs; apply Hkeys; right; exact Hs).
    destruct (str_contains (d_Number v0) keys) eqn:Hkept.
    + destruct (IH (<[s0 := sat_data_of v0]> acc) Hrest) as (m & Hrun & Hm).
      exists m. split; [exact Hrun|]. intros s. rewrite (Hm s).
      cbn [str_in]. destruct (String.eqb s0 s) eqn:Heq.
      * apply String.eqb_eq in Heq. subst s. rewrite Hv0, Hkept.
        rewrite lookup_insert_eq. simpl.
        destruct (str_in s0 rest); reflexivity.
      * apply String.eqb_neq in Heq.
        rewrite (lookup_insert_ne acc s0 s _ Heq). reflexivity.
    + destruct (IH acc Hrest) as (m & Hrun & Hm).
      exists m. split; [exact Hrun|]. intros s. rewrite (Hm s).
      cbn [str_in]. destruct (String.eqb s0 s) eqn:Heq; [|reflexivity].
      apply String.eqb_eq in Heq. subst s. rewrite Hv0, Hkept.
      rewrite !andb_false_r. reflexivity.
Qed.

Lemma set_up_satellite_data_spec {satellite : Type} (satnum : satellite -> Z)
  (objs : list satellite) (data : list (string * sat_dict)) :
  exists self,
    set_up_satellite_data satnum objs data = Ok self /\
    by_number self = by_number_of satnum objs /\
    forall s v,
      dict_get s data = Ok v ->
      satellites self !! s
      = if str_contains (d_Number v) (str_keys (numbers_of satnum objs))
        then Some (sat_data_of v) else None.
Proof.
  unfold set_up_satellite_data.
  destruct (satellites_loop_spec (str_keys (numbers_of satnum objs)) data
              (List.map fst data) ∅) as (m & -> & Hm).
  { intros s Hs. apply (dict_get_keys s data), Hs. }
  eexists. split; [reflexivity|]. split; [reflexivity|].
  intros s v Hv. simpl. rewrite (Hm s), Hv.
  rewrite (proj1 (dict_get_keys s data) v Hv). simpl.
  rewrite lookup_empty. reflexivity.
Qed.

Lemma str_keys_substring {satellite : Type} (satnum : satellite -> Z)
  (objs : list satellite) (sat : satellite) :
  In sat objs ->
  substring (str_int (satnum sat)) (str_keys (numbers_of satnum objs)).
Proof.
  intros Hin. unfold str_keys.
  assert (Hk : In (str_int (satnum sat))
                 (List.map (fun e => str_int (fst e)) (numbers_of satnum objs))).
  { rewrite <- (List.map_map fst str_int). apply in_map.
    apply numbers_of_keys. right. exists sat. auto. }
  destruct (str_join_In ", " _ _ Hk) as (a & b & ->).
  exists (String.append "dict_keys([" a), (String.append b "])").
  rewrite !str_append_assoc. reflexivity.
Qed.

(** X16. A satellite of [satslist.json] whose number is, in decimal, the
    number of a loaded TLE, and is read back by [int], is kept by
    [set_up_satellite_data], and the look-up that opens the pass methods
    then finds a loaded body with this number. *)
Theorem set_up_keeps_satellites_with_tle {satellite : Type}
  (X : Extern satellite) (satnum : satellite -> Z) (objs : list satellite)
  (data : list (string * sat_dict)) (name : string) (sd : sat_dict)
  (sat : satellite)
  (Hdata : dict_get name data = Ok sd)
  (Hsat : In sat objs)
  (Hnum : d_Number sd = str_int (satnum sat))
  (Hint : py_int X (d_Number sd) = Ok (satnum sat)) :
  exists self sat',
    set_up_satellite_data satnum objs data = Ok self /\
    satellites self !! name = Some (sat_data_of sd) /\
    lookup_satellite X self name = Ok sat' /\
    In sat' objs /\ satnum sat' = satnum sat.
Proof.
  destruct (set_up_satellite_data_spec satnum objs data)
    as (self & Hrun & Hby & Hsats).
  assert (Hkept : satellites self !! name = Some (sat_data_of sd)).
  { rewrite (Hsats name sd Hdata), Hnum.
    rewrite (proj2 (str_contains_iff _ _) (str_keys_substring satnum objs sat Hsat)).
    reflexivity. }
  destruct (proj2 (by_number_of_fold satnum objs ∅ (satnum sat)))
    as (sat' & Hl & Hin & Hk).
  { exists sat. auto. }
  exists self, sat'. split; [exact Hrun|]. split; [exact Hkept|].
  split; [|auto].
  unfold lookup_satellite, getitem. rewrite Hkept. cbn [bind].
  change (Number (sat_data_of sd)) with (d_Number sd). rewrite Hint.
  cbn [bind]. rewrite Hby. unfold by_number_of. rewrite Hl. reflexivity.
Qed.

Lemma set_up_keeps_satellites_with_tle_witness :
  exists self,
    set_up_satellite_data demo_satnum [O; 1%nat] demo_data = Ok self /\
    lookup_satellite Demo.extern self "AO-7" = Ok 1%nat.
Proof.
  destruct (set_up_keeps_satellites_with_tle Demo.extern demo_satnum
              [O; 1%nat] demo_data "AO-7" ao7_dict 1%nat)
    as (self & sat' & Hrun & _ & Hlook & Hin & Hk).
  - reflexivity.
  - right. left. reflexivity.
  - reflexivity.
  - reflexivity.
  - exists self. split; [exact Hrun|]. rewrite Hlook.
    destruct Hin as [<-|[<-|[]]]; [discriminate|reflexivity].
Defined.

(** X17. The test of [set_up_satellite_data] is a search in the printed
    list of the TLE numbers: a satellite whose number is only a part of the
    number of a loaded TLE is kept too, and when [int] reads its number as
    one that no loaded TLE has, [get_next_passes] and [get_alt_azimuth]
    raise [KeyError] for it. *)
Theorem set_up_keeps_part_of_a_number {satellite : Type}
  (X : Extern satellite) (satnum : satellite -> Z) (objs : list satellite)
  (data : list (string * sat_dict)) (name : string) (sd : sat_dict)
  (sat : satellite) (m : Z)
  (Hdata : dict_get name data = Ok sd)
  (Hsat : In sat objs)
  (Hpart : substring (d_Number sd) (str_int (satnum sat)))
  (Hint : py_int X (d_Number sd) = Ok m)
  (Hno : forall s, In s objs -> satnum s <> m) :
  exists self,
    set_up_satellite_data satnum objs data = Ok self /\
    satellites self !! name = Some (sat_data_of sd) /\
    (forall now N, get_next_passes X self now name N = Raise KeyError) /\
    (forall t, get_alt_azimuth X self t name = Raise KeyError).
Proof.
  destruct (set_up_satellite_data_spec satnum objs data)
    as (self & Hrun & Hby & Hsats).
  assert (Hkept : satellites self !! name = Some (sat_data_of sd)).
  { rewrite (Hsats name sd Hdata).
    rewrite (proj2 (str_contains_iff _ _)
               (substring_trans _ _ _ Hpart
                  (str_keys_substring satnum objs sat Hsat))).
    reflexivity. }
  assert (Hlook : lookup_satellite X self name = Raise KeyError).
  { unfold lookup_satellite, getitem. rewrite Hkept. cbn [bind].
    change (Number (sat_data_of sd)) with (d_Number sd). rewrite Hint.
    cbn [bind]. rewrite Hby. unfold by_number_of.
    rewrite (proj1 (by_number_of_fold satnum objs ∅ m) Hno), lookup_empty.
    reflexivity. }
  exists self. split; [exact Hrun|]. split; [exact Hkept|]. split.
  - intros now N. unfold get_next_passes. rewrite Hlook. reflexivity.
  - intros t. unfold get_alt_azimuth. rewrite Hlook. reflexivity.
Qed.

Lemma set_up_keeps_part_of_a_number_witness :
  exists self,
    set_up_satellite_data demo_satnum [O; 1%nat] demo_data = Ok self /\
    get_next_passes reads_554 self 0 "NO-TLE" 1 = Raise KeyError.
Proof.
  destruct (set_up_keeps_part_of_a_number reads_554 demo_satnum
              [O; 1%nat] demo_data "NO-TLE" no_tle_dict O 554%Z)
    as (self & Hrun & _ & Hpasses & _).
  - reflexivity.
  - left. reflexivity.
  - exists "2"%string, "4"%string. reflexivity.
  - reflexivity.
  - intros s [<-|[<-|[]]]; discriminate.
  - exists self. split; [exact Hrun|]. apply Hpasses.
Defined.

(** *** Constructing a graph again *)

Lemma Graph_init_again (a b c d : Q) (e f : Z) (sx sy nx ny : Q) :
  let g := Graph_init a b c d e f sx sy in
  Graph_init (xmin g) (xmax g) (ymin g) (ymax g) (xgrids g) (ygrids g) nx ny
  = {| image_size_x := nx; image_size_y := ny;
       xmin := xmin g; xmax := xmax g; ymin := ymin g; ymax := ymax g;
       xgrids := xgrids g; ygrids := ygrids g |}.
Proof.
  unfold Graph_init.
  assert (Hgrid : forall n : Z,
             ((if (n <=? 0)%Z then 1%Z else n) <=? 0)%Z = false).
  { intros n. destruct (Z.leb_spec n 0); apply Z.leb_gt; lia. }
  destruct (eq (b - a) 0) eqn:Hx; destruct (eq (d - c) 0) eqn:Hy;
    try destruct (gt d 0) eqn:Hd; cbn -[eq gt Z.leb];
    rewrite ?Hgrid, ?Hx, ?Hy;
    try replace (eq (1 - 0) 0) with false by reflexivity;
    cbn -[eq gt Z.leb]; rewrite ?Hy.
  all: try reflexivity.
  all: try (assert (Hd0 : eq (d - 0) 0 = false);
            [apply eq_false_iff; apply lt_true_iff in Hd; intros H0; lra|];
            rewrite Hd0; reflexivity).
  all: destruct (eq (0 - c) 0) eqn:Hc; [|reflexivity];
    replace (gt 0 0) with false by reflexivity; reflexivity.
Qed.

(** X19. The corrections of the constructors apply once: a [Graph] or a
    [Polar] constructed again from the ranges and grid counts of a
    constructed one, with whatever image size (the call of
    [reCreateGraph], lines 1306-1312), has the ranges and the grid counts
    of the first. *)
Theorem constructor_corrections_apply_once (polar : bool) (a b c d : Q)
  (e f : Z) (sx sy nx ny : Q) :
  let graph_class := if polar then Polar_init else Graph_init in
  let g := graph_class a b c d e f sx sy in
  graph_class (xmin g) (xmax g) (ymin g) (ymax g) (xgrids g) (ygrids g) nx ny
  = {| image_size_x := nx; image_size_y := ny;
       xmin := xmin g; xmax := xmax g; ymin := ymin g; ymax := ymax g;
       xgrids := xgrids g; ygrids := ygrids g |}.
Proof.
  assert (Hclass : Polar_init = Graph_init) by reflexivity.
  intros graph_class g.
  assert (Hg : graph_class = Graph_init)
    by (unfold graph_class; destruct polar; [exact Hclass|reflexivity]).
  unfold g. rewrite Hg. apply Graph_init_again.
Qed.

(** *** The entries of the transit list *)

Lemma countb_app {A : Type} (p : A -> bool) (l1 l2 : list A) :
  countb p (l1 ++ l2) = (countb p l1 + countb p l2)%nat.
Proof.
  induction l1 as [|x l1 IH]; [reflexivity|].
  change ((x :: l1) ++ l2) with (x :: (l1 ++ l2)).
  rewrite !countb_cons, IH. lia.
Qed.

Lemma countb_Permutation {A : Type} (p : A -> bool) (l1 l2 : list A) :
  Permutation l1 l2 -> countb p l1 = countb p l2.
Proof.
  induction 1 as [|x l l' _ IH|x y l|l l' l'' _ IH1 _ IH2].
  - reflexivity.
  - rewrite !countb_cons, IH. reflexivity.
  - rewrite !countb_cons. lia.
  - rewrite IH1. exact IH2.
Qed.

Lemma pass_info_loop_count (sat name : string) (pass_list : list pass_event) :
  forall pass_info acc,
    entries_named name (pass_info_loop sat pass_list pass_info acc)
    = (entries_named name acc
       + if String.eqb sat name then count_set pass_list else 0)%nat.
Proof.
  unfold entries_named.
  induction pass_list as [|[ti event_name] rest IH]; intros [[r tr] st] acc.
  - simpl. destruct (String.eqb sat name); lia.
  - cbn [pass_info_loop count_set]. unfold is_set. cbn [snd].
    destruct (String.eqb event_name "rise") eqn:Hr.
    { apply String.eqb_eq in Hr. subst event_name. rewrite IH. reflexivity. }
    destruct (String.eqb event_name "transit") eqn:Ht.
    { apply String.eqb_eq in Ht. subst event_name. rewrite IH. reflexivity. }
    destruct (String.eqb event_name "set") eqn:Hs; rewrite IH; [|reflexivity].
    rewrite countb_app, countb_cons. unfold sat_of. cbn [snd].
    change (countb (fun t : transit => String.eqb (snd t) name) [])
      with 0%nat.
    destruct (String.eqb sat name); lia.
Qed.

Lemma list_sum_cons (x : nat) (l : list nat) :
  list_sum (x :: l) = (x + list_sum l)%nat.
Proof. reflexivity. Qed.

Section TransitEntries.

Context {satellite : Type}.
Variable X : Extern satellite.
Variable self : MainApp satellite.
Variables (now : Q) (N : Z).

Lemma transit_list_loop_count (name : string) (filtered : list sat_data) :
  forall acc tl,
    transit_list_loop X self now N filtered acc = Ok tl ->
    entries_named name tl
    = (entries_named name acc
       + list_sum (List.map (fun v => if String.eqb (Satellite v) name
                                      then entered X self now N v
                                      else 0%nat) filtered))%nat.
Proof.
  induction filtered as [|v rest IH]; intros acc tl H; simpl in H.
  - injection H as <-. simpl. lia.
  - cbn [List.map]. rewrite list_sum_cons. unfold entered at 1.
    destruct (get_next_passes X self now (Satellite v) N) as [pass_list|e];
      simpl in H; [|discriminate].
    rewrite (IH _ _ H). destruct pass_list as [|ev pl].
    + cbn [pass_info_loop]. unfold entries_named.
      rewrite countb_app, countb_cons. unfold sat_of. cbn [snd].
      change (countb (fun t : transit => String.eqb (snd t) name) [])
        with 0%nat.
      destruct (String.eqb (Satellite v) name); lia.
    + rewrite pass_info_loop_count.
      destruct (String.eqb (Satellite v) name); lia.
Qed.

Lemma list_sum_one (filtered : list sat_data) (v : sat_data) :
  List.NoDup (List.map Satellite filtered) -> In v filtered ->
  list_sum (List.map (fun w => if String.eqb (Satellite w) (Satellite v)
                               then entered X self now N w
                               else 0%nat) filtered)
  = entered X self now N v.
Proof.
  induction filtered as [|w rest IH]; intros Hnd Hv; [destruct Hv|].
  cbn [List.map]. rewrite list_sum_cons.
  simpl in Hnd. inversion Hnd as [|? ? Hnot Hnd']; subst.
  destruct Hv as [->|Hv].
  - rewrite String.eqb_refl.
    assert (Hz : list_sum (List.map (fun w => if String.eqb (Satellite w) (Satellite v)
                                              then entered X self now N w
                                              else 0%nat) rest)
                 = 0%nat).
    { clear IH Hnd Hnd'. induction rest as [|u rest IHr]; [reflexivity|].
      cbn [List.map]. rewrite list_sum_cons.
      destruct (String.eqb (Satellite u) (Satellite v)) eqn:Hu.
      - apply String.eqb_eq in Hu. exfalso. apply Hnot. left. exact Hu.
      - rewrite IHr; [reflexivity|]. intros Hin. apply Hnot. right. exact Hin. }
    rewrite Hz. lia.
  - destruct (String.eqb (Satellite w) (Satellite v)) eqn:Hw.
    + apply String.eqb_eq in Hw. exfalso. apply Hnot. rewrite Hw.
      apply in_map, Hv.
    + rewrite (IH Hnd' Hv). reflexivity.
Qed.

End TransitEntries.

(** X20. In the list [transit_list_sorted_by_time] returns, a satellite
    (its name that of no other satellite of the batch) has one entry for
    each 'set' event of its pass list, and the one entry [[0, 0, 0, sat]]
    when the pass list is empty: a satellite whose events include no 'set'
    has no entry at all. *)
Theorem transit_list_entries_per_satellite {satellite : Type}
  (X : Extern satellite) (self : MainApp satellite) (now : Q) (N : Z)
  (filtered : list sat_data) (v : sat_data) (transit_list : list transit)
  (H : transit_list_sorted_by_time X self now N filtered = Ok transit_list)
  (Hv : In v filtered)
  (Hnames : List.NoDup (List.map Satellite filtered)) :
  exists pass_list,
    get_next_passes X self now (Satellite v) N = Ok pass_list /\
    entries_named (Satellite v) transit_list
    = match pass_list with
      | [] => 1%nat
      | _ :: _ => count_set pass_list
      end.
Proof.
  unfold transit_list_sorted_by_time in H.
  destruct (transit_list_loop X self now N filtered []) as [tl|e] eqn:Hloop;
    simpl in H; [|discriminate].
  injection H as <-.
  pose proof (transit_list_loop_count X self now N (Satellite v) filtered
                [] tl Hloop) as Hcount.
  rewrite (list_sum_one X self now N filtered v Hnames Hv) in Hcount.
  unfold entries_named in *.
  rewrite <- (countb_Permutation _ _ _ (list_sort_Permutation tl)).
  rewrite Hcount. change (countb _ []) with 0%nat. unfold entered.
  destruct (get_next_passes X self now (Satellite v) N) as [pass_list|e] eqn:Hp.
  - exists pass_list. split; [reflexivity|]. destruct pass_list; reflexivity.
  - exfalso. clear Hcount. revert Hloop. generalize (@nil transit).
    induction filtered as [|w rest IH]; intros acc Hloop; [destruct Hv|].
    simpl in Hloop. destruct Hv as [->|Hv].
    + rewrite Hp in Hloop. discriminate.
    + destruct (get_next_passes X self now (Satellite w) N); simpl in Hloop;
        [|discriminate].
      inversion Hnames; subst. eapply IH; eassumption.
Qed.

Lemma transit_list_entries_per_satellite_witness :
  exists transit_list,
    transit_list_sorted_by_time Demo.extern Demo.app 0 2 [Demo.iss; Demo.ao7]
    = Ok transit_list /\
    entries_named "ISS" transit_list = 2%nat.
Proof.
  eexists.
  assert (H : transit_list_sorted_by_time Demo.extern Demo.app 0 2
                [Demo.iss; Demo.ao7] = Ok _) by (vm_compute; reflexivity).
  split; [exact H|].
  destruct (transit_list_entries_per_satellite Demo.extern Demo.app 0 2
              [Demo.iss; Demo.ao7] Demo.iss _ H)
    as (pass_list & Hp & Hn).
  - left. reflexivity.
  - repeat constructor; simpl; intros Hin;
      repeat destruct Hin as [Hin|Hin]; try discriminate; exact Hin.
  - reflexivity.
Defined.

(** *** The satellites above the horizon *)

Lemma up_positions_loop_spec {satellite : Type} (X : Extern satellite)
  (self : MainApp satellite) (now : Q) (selected_satellite : string)
  (selected_mhz : result Q) (filtered : list sat_data) :
  forall acc shown ups shown',
    up_positions_loop X self now selected_satellite selected_mhz filtered
      acc shown = Ok (ups, shown') ->
    (forall p, In p acc -> In p ups) /\
    (forall p, In p ups -> In p acc \/ seen_up X self now filtered p) /\
    (forall v alt az velocity,
       In v filtered ->
       get_alt_azimuth X self now (Satellite v) = Ok (alt, az, velocity) ->
       0 < degrees alt -> In (up_point (Satellite v) alt az) ups).
Proof.
  induction filtered as [|v rest IH]; intros acc shown ups shown' H.
  - simpl in H. injection H as <- <-. split; [auto|]. split; [auto|].
    intros v alt az velocity [].
  - cbn [up_positions_loop] in H.
    destruct (get_alt_azimuth X self now (Satellite v))
      as [[[alt az] velocity]|e] eqn:Hobs; cbn [bind] in H; [|discriminate].
    assert (Hweak : forall p, seen_up X self now rest p ->
                              seen_up X self now (v :: rest) p).
    { intros p (w & a & z & sv & Hw & Hgw & Hrest).
      exists w, a, z, sv. split; [right; exact Hw|]. auto. }
    destruct (gt (degrees alt) 0) eqn:Hup.
    + assert (Halt : 0 < degrees alt) by (apply lt_true_iff; exact Hup).
      assert (Hseen : forall p, pt_r p = degrees alt ->
                                pt_theta p = radians az ->
                                seen_up X self now (v :: rest) p).
      { intros p Hr Ht. exists v, alt, az, velocity.
        split; [left; reflexivity|]. auto. }
      assert (Hstep : forall acc' shown0,
                 up_positions_loop X self now selected_satellite selected_mhz
                   rest acc' shown0 = Ok (ups, shown') ->
                 (forall p, In p acc' ->
                            In p (acc ++ [up_point (Satellite v) alt az]) \/
                            seen_up X self now (v :: rest) p) ->
                 (forall p, In p (acc ++ [up_point (Satellite v) alt az]) ->
                            In p acc') ->
                 (forall p, In p acc -> In p ups) /\
                 (forall p, In p ups ->
                            In p acc \/ seen_up X self now (v :: rest) p) /\
                 (forall w a z sv,
                    In w (v :: rest) ->
                    get_alt_azimuth X self now (Satellite w) = Ok (a, z, sv) ->
                    0 < degrees a -> In (up_point (Satellite w) a z) ups)).
      { intros acc' shown0 Hrun Hfrom Hinto.
        destruct (IH _ _ _ _ Hrun) as (Hkeep & Hfromr & Hall).
        split; [|split].
        - intros p Hp. apply Hkeep, Hinto, in_or_app. left. exact Hp.
        - intros p Hp. destruct (Hfromr p Hp) as [Hacc|Hs].
          + destruct (Hfrom p Hacc) as [Hin|Hs]; [|right; exact Hs].
            apply in_app_or in Hin. destruct Hin as [Hin|[<-|[]]].
            * left. exact Hin.
            * right. apply Hseen; reflexivity.
          + right. apply Hweak, Hs.
        - intros w a z sv [<-|Hw] Hgw Ha.
          + rewrite Hobs in Hgw. injection Hgw as <- <- <-.
            apply Hkeep, Hinto, in_or_app. right. left. reflexivity.
          + apply (Hall w a z sv Hw Hgw Ha). }
      destruct (String.eqb (Satellite v) selected_satellite).
      * destruct selected_mhz as [mhz|e]; cbn [bind] in H; [|discriminate].
        apply (Hstep _ _ H).
        -- intros p Hp. apply in_app_or in Hp. destruct Hp as [Hp|[<-|[]]].
           ++ left. exact Hp.
           ++ right. apply Hseen; reflexivity.
        -- intros p Hp. apply in_or_app. left. exact Hp.
      * apply (Hstep _ _ H); [intros p Hp; left; exact Hp|auto].
    + destruct (IH _ _ _ _ H) as (Hkeep & Hfromr & Hall).
      split; [exact Hkeep|]. split.
      * intros p Hp. destruct (Hfromr p Hp) as [Hacc|Hs];
          [left; exact Hacc|right; apply Hweak, Hs].
      * intros w a z sv [<-|Hw] Hgw Ha.
        -- rewrite Hobs in Hgw. injection Hgw as <- <- <-.
           apply lt_true_iff in Ha. unfold gt in Hup. congruence.
        -- apply (Hall w a z sv Hw Hgw Ha).
Qed.

(** X21. The positions [on_auto_update_timer] plots are those of the
    satellites above the horizon: when the loop raises nothing, every
    point of [up_positions] is at the place where a filtered satellite is
    seen at an altitude above 0 degrees (so none stands for a satellite at
    altitude 0, which is also what a look-up failing with [ValueError]
    gives), and every filtered satellite seen above 0 degrees has its grey
    point, labelled with its name. *)
Theorem up_positions_above_horizon {satellite : Type} (X : Extern satellite)
  (self : MainApp satellite) (now : Q) (selected_satellite : string)
  (selected_mhz : result Q) (filtered : list sat_data)
  (up_positions : list point) (shown : option Q)
  (H : up_positions_loop X self now selected_satellite selected_mhz filtered
         [] None = Ok (up_positions, shown)) :
  Forall (seen_up X self now filtered) up_positions /\
  (forall v alt az velocity,
     In v filtered ->
     get_alt_azimuth X self now (Satellite v) = Ok (alt, az, velocity) ->
     0 < degrees alt ->
     In (up_point (Satellite v) alt az) up_positions).
Proof.
  destruct (up_positions_loop_spec X self now selected_satellite selected_mhz
              filtered [] None up_positions shown H) as (_ & Hfrom & Hall).
  split; [|exact Hall].
  apply List.Forall_forall. intros p Hp.
  destruct (Hfrom p Hp) as [[]|Hs]. exact Hs.
Qed.

Lemma up_positions_above_horizon_witness :
  exists up_positions shown,
    up_positions_loop Demo.extern Demo.app 0 "ISS" (Ok 145)
      [Demo.iss; Demo.bad] [] None = Ok (up_positions, shown) /\
    List.length up_positions = 2%nat /\
    Forall (seen_up Demo.extern Demo.app 0 [Demo.iss; Demo.bad]) up_positions.
Proof.
  do 2 eexists.
  assert (H : up_positions_loop Demo.extern Demo.app 0 "ISS" (Ok 145)
                [Demo.iss; Demo.bad] [] None = Ok (_, _))
    by (vm_compute; reflexivity).
  split; [exact H|]. split; [reflexivity|].
  apply (up_positions_above_horizon _ _ _ _ _ _ _ _ H).
Defined.
